(** * grab_app.py: cart, order store, order lifecycle and rating aggregation

    A shallow embedding of the food-delivery application src/grab_app.py.
    The script is a Streamlit page: every user interaction re-runs it from
    the top, [orders], [users] and [ratings] are read again from their
    files, and the widget that fired reports [True].  Each interactive
    block of the script is embedded as a function of the state it reads
    (the module-level dictionaries and the session's [username], [step]
    and [cart]) and of the widget event of the run; it returns the state
    it leaves behind together with the banners it showed and the files it
    saved.  [customer_page] is the sequence of [add_to_cart] and
    [cart_block] (step 1) or [checkout_block] (step 2), then
    [orders_block]; [driver_page] is one function.

    Dictionaries are finite maps (gmap) keyed by strings.  The loops over
    [dict.items()] run over [map_to_list]; since the keys of a dictionary
    are distinct and every such loop stops at the first widget that fired,
    the outcome does not depend on the iteration order.  Prices, tips and
    averages are binary64 floats (PrimFloat), identifiers and counters are
    unbounded integers (Z). *)

From Stdlib Require Import ZArith Floats SpecFloat String Ascii.
From Stdlib.Strings Require Import Byte.
From Stdlib Require Import DecimalString DecimalZ DecimalPos.
From stdpp Require Import gmap strings list fin_maps sorting.

Set Warnings "-inexact-float,-register-all".

Local Open Scope Z_scope.

(** ** The fragment of the Python runtime used by the script *)

Module Py.

(** Exception classes that the embedded code can raise. *)
Inductive exn : Set :=
| ValueError
| KeyError
| OverflowError
| ZeroDivisionError
| UnicodeDecodeError
| JSONDecodeError.

(** A computation either returns a value or raises. *)
Inductive result (A : Type) : Type :=
| Ok (a : A)
| Raise (e : exn).
Arguments Ok {A} a.
Arguments Raise {A} e.

#[global] Instance exn_eq_dec : EqDecision exn.
Proof. solve_decision. Defined.

#[global] Instance result_eq_dec {A} `{EqDecision A} : EqDecision (result A).
Proof. solve_decision. Defined.

Definition bind {A B} (m : result A) (k : A -> result B) : result B :=
  match m with
  | Ok a => k a
  | Raise e => Raise e
  end.

(** [[f(x) for x in xs]]: the first exception aborts the comprehension. *)
Fixpoint traverse {A B} (f : A -> result B) (xs : list A) : result (list B) :=
  match xs with
  | [] => Ok []
  | x :: xs' =>
      bind (f x) (fun y => bind (traverse f xs') (fun ys => Ok (y :: ys)))
  end.

(** Truth value of a string: only the empty string is false. *)
Definition truthy (s : string) : bool :=
  match s with
  | EmptyString => false
  | String _ _ => true
  end.

(** *** [str(n)] for an integer: minus sign and decimal digits, no padding. *)
Definition str (n : Z) : string := NilZero.string_of_int (Z.to_int n).

(** *** [int(s)] for a string.

    Surrounding white space is stripped, one sign is allowed, and the
    digits may be grouped by single underscores.  Only the ASCII
    grammar is embedded: the interpreter also accepts non-ASCII decimal
    digits and white space, for which [int] answers [ValueError] here,
    and its configurable cap on the number of digits is left out. *)
Definition isspace (c : ascii) : bool :=
  match c with
  | " " | "009" | "010" | "011" | "012" | "013" => true
  | _ => false
  end%char.

Definition isdigit (c : ascii) : bool :=
  match c with
  | "0" | "1" | "2" | "3" | "4" | "5" | "6" | "7" | "8" | "9" => true
  | _ => false
  end%char.

Fixpoint lstrip (s : string) : string :=
  match s with
  | String c r => if isspace c then lstrip r else s
  | EmptyString => EmptyString
  end.

Fixpoint rstrip (s : string) : string :=
  match s with
  | String c r =>
      match rstrip r with
      | EmptyString => if isspace c then EmptyString else String c EmptyString
      | r' => String c r'
      end
  | EmptyString => EmptyString
  end.

(** The digits of [digit ('_'? digit)*], underscores removed. *)
Fixpoint digits (s : string) : option string :=
  match s with
  | String c r =>
      if isdigit c then
        match r with
        | EmptyString => Some (String c EmptyString)
        | String "_" r' => String c <$> digits r'
        | String _ _ => String c <$> digits r
        end
      else None
  | EmptyString => None
  end.

Definition unsigned (s : string) : option Z :=
  ds ← digits s; Z.of_uint <$> NilEmpty.uint_of_string ds.

Definition int (s : string) : result Z :=
  let parsed :=
    match rstrip (lstrip s) with
    | String "-" r => Z.opp <$> unsigned r
    | String "+" r => unsigned r
    | t => unsigned t
    end in
  match parsed with
  | Some n => Ok n
  | None => Raise ValueError
  end.

(** [max(xs)] of a non-empty list of integers, [ValueError] on []. *)
Definition max (xs : list Z) : result Z :=
  match xs with
  | [] => Raise ValueError
  | x :: xs' => Ok (foldl Z.max x xs')
  end.

(** *** Floats

    [float_of_int] is the conversion applied to an [int] operand of a
    float operation: round to nearest even, [OverflowError] when the
    integer is too large.  [truediv] is [a / b] on two integers: the
    correctly rounded quotient. *)
Definition spec_of_int (n : Z) : spec_float :=
  binary_normalize prec emax n 0 false.

Definition to_float (n : Z) : float := SF2Prim (spec_of_int n).

Definition float_of_int (n : Z) : result float :=
  match spec_of_int n with
  | S754_infinity _ => Raise OverflowError
  | _ => Ok (to_float n)
  end.

Definition exact (n : Z) : spec_float :=
  match n with
  | 0 => S754_zero false
  | Z.pos p => S754_finite false p 0
  | Z.neg p => S754_finite true p 0
  end.

Definition truediv (a b : Z) : result float :=
  if bool_decide (b = 0) then Raise ZeroDivisionError
  else
    match SFdiv prec emax (exact a) (exact b) with
    | S754_infinity _ => Raise OverflowError
    | sf => Ok (SF2Prim sf)
    end.

(** [price * quantity] with a float on the left and an int on the right. *)
Definition mul_float_int (x : float) (n : Z) : result float :=
  bind (float_of_int n) (fun y => Ok (x * y)%float).

End Py.

Notation "x <- m ;; k" := (Py.bind m (fun x => k))
  (at level 100, m at next level, right associativity, only parsing).

Import Py (Ok, Raise).

(** ** Data model *)

(** A cart line: the dictionary appended by "Add to Cart". *)
Module Item.
Record t : Type := mk {
  restaurant : string;
  category : string;
  food : string;
  price : float;
  quantity : Z
}.

Definition with_quantity (q : Z) (i : t) : t :=
  mk (restaurant i) (category i) (food i) (price i) q.
End Item.

(** The three values the script stores and tests in an order's "status". *)
Inductive lifecycle : Set := pending | claimed | completed.

#[global] Instance lifecycle_eq_dec : EqDecision lifecycle.
Proof. solve_decision. Defined.

(** An order: the dictionary stored under its identifier in [orders]. *)
Module Order.
Record t : Type := mk {
  customer : string;
  phone : string;
  restaurant : string;
  category : string;
  food : string;
  price : float;
  quantity : Z;
  dropoff : string;
  payment : string;
  tip : float;
  status : lifecycle;
  driver : option string;
  rating_food : option Z;
  rating_speed : option Z;
  rating_service : option Z
}.

Definition with_status (s : lifecycle) (o : t) : t :=
  mk (customer o) (phone o) (restaurant o) (category o) (food o) (price o)
     (quantity o) (dropoff o) (payment o) (tip o) s (driver o)
     (rating_food o) (rating_speed o) (rating_service o).

Definition with_driver (d : option string) (o : t) : t :=
  mk (customer o) (phone o) (restaurant o) (category o) (food o) (price o)
     (quantity o) (dropoff o) (payment o) (tip o) (status o) d
     (rating_food o) (rating_speed o) (rating_service o).

Definition with_rating_food (r : option Z) (o : t) : t :=
  mk (customer o) (phone o) (restaurant o) (category o) (food o) (price o)
     (quantity o) (dropoff o) (payment o) (tip o) (status o) (driver o)
     r (rating_speed o) (rating_service o).

Definition with_rating_speed (r : option Z) (o : t) : t :=
  mk (customer o) (phone o) (restaurant o) (category o) (food o) (price o)
     (quantity o) (dropoff o) (payment o) (tip o) (status o) (driver o)
     (rating_food o) r (rating_service o).

Definition with_rating_service (r : option Z) (o : t) : t :=
  mk (customer o) (phone o) (restaurant o) (category o) (food o) (price o)
     (quantity o) (dropoff o) (payment o) (tip o) (status o) (driver o)
     (rating_food o) (rating_speed o) r.
End Order.

(** A registered user, as written by [register]. *)
Module User.
Record t : Type := mk { password : string; phone : string; role : string }.
End User.

(** The running sums kept per restaurant and per driver. *)
Module RestaurantRating.
Record t : Type := mk { rating_sum : Z; rating_count : Z }.
End RestaurantRating.

Module DriverRating.
Record t : Type := mk {
  rating_sum : Z;
  rating_count : Z;
  speed_sum : Z;
  service_sum : Z
}.
End DriverRating.

Module Ratings.
Record t : Type := mk {
  restaurants : gmap string RestaurantRating.t;
  drivers : gmap string DriverRating.t
}.
End Ratings.

(** The state a run of the script reads and leaves behind. *)
Record app : Type := App {
  users : gmap string User.t;
  orders : gmap string Order.t;
  ratings : Ratings.t;
  username : string;
  step : Z;
  cart : list Item.t
}.

Definition with_orders (os : gmap string Order.t) (a : app) : app :=
  App (users a) os (ratings a) (username a) (step a) (cart a).

Definition with_ratings (rs : Ratings.t) (a : app) : app :=
  App (users a) (orders a) rs (username a) (step a) (cart a).

Definition with_step (s : Z) (a : app) : app :=
  App (users a) (orders a) (ratings a) (username a) s (cart a).

Definition with_cart (c : list Item.t) (a : app) : app :=
  App (users a) (orders a) (ratings a) (username a) (step a) c.

Definition with_username (u : string) (a : app) : app :=
  App (users a) (orders a) (ratings a) u (step a) (cart a).

(** What a run shows and writes: [st.success] / [st.error] banners and
    the calls of [save_data]. *)
Inductive notice : Type :=
| success (msg : string)
| error (msg : string).

Inductive data : Type :=
| orders_data (os : gmap string Order.t)
| ratings_data (rs : Ratings.t).

Definition ORDERS_FILE : string := "orders.json".
Definition RATINGS_FILE : string := "ratings.json".

Record run : Type := Run {
  state : app;
  notices : list notice;
  saved : list (string * data);
  rerun : bool
}.

(** A run in which no widget of the block fired. *)
Definition idle (a : app) : run := Run a [] [] false.

(** ** The cart (customer page, step 1) *)

(** Lines 202-207: the search loop of "Add to Cart".  The first line with
    the same food and restaurant has its quantity incremented; [None]
    stands for [found = False] at the end of the loop. *)
Fixpoint increment (restaurant food : string) (cart : list Item.t)
  : option (list Item.t) :=
  match cart with
  | [] => None
  | item :: rest =>
      if bool_decide (Item.food item = food)
         && bool_decide (Item.restaurant item = restaurant)
      then Some (Item.with_quantity (Item.quantity item + 1) item :: rest)
      else cons item <$> increment restaurant food rest
  end.

(** Lines 201-213: "Add to Cart" with the selected restaurant, category
    and food and the catalogue price of that food. *)
Definition add_to_cart (restaurant category food : string) (price : float)
    (cart : list Item.t) : list Item.t :=
  match increment restaurant food cart with
  | Some cart' => cart'
  | None => cart ++ [Item.mk restaurant category food price 1]
  end.

(** What a click on "Add to Cart" carries: the values of the three select
    boxes and the catalogue price of the selected food. *)
Module Selection.
Record t : Type := mk {
  restaurant : string;
  category : string;
  food : string;
  price : float
}.
End Selection.

Definition add_selection (cart : list Item.t) (s : Selection.t) : list Item.t :=
  add_to_cart (Selection.restaurant s) (Selection.category s)
              (Selection.food s) (Selection.price s) cart.

(** The cart after a sequence of clicks on "Add to Cart", from []. *)
Definition add_all (calls : list Selection.t) : list Item.t :=
  foldl add_selection [] calls.

(** The pair that identifies a cart line, and the number of clicks made
    for a pair. *)
Definition line_key (item : Item.t) : string * string :=
  (Item.restaurant item, Item.food item).

Definition call_key (s : Selection.t) : string * string :=
  (Selection.restaurant s, Selection.food s).

Definition calls_for (k : string * string) (calls : list Selection.t) : nat :=
  length (filter (fun s => call_key s = k) calls).

(** The amount of a line and the sum of a list of amounts, added from the
    left starting at 0.0, as the words "sum over all lines of unit price
    times quantity" read on floats. *)
Definition line_amount (item : Item.t) : float :=
  (Item.price item * Py.to_float (Item.quantity item))%float.


(** The lines of a cart for a pair. *)
Definition lines_for (k : string * string) (cart : list Item.t) : list Item.t :=
  filter (fun item => line_key item = k) cart.

(** The invariant of a cart built by "Add to Cart" alone. *)
Definition counted (calls : list Selection.t) (cart : list Item.t) : Prop :=
  forall k,
    (calls_for k calls = 0%nat -> lines_for k cart = []) /\
    (calls_for k calls <> 0%nat ->
     exists item, lines_for k cart = [item] /\
                  Item.quantity item = Z.of_nat (calls_for k calls)).

(** The buttons drawn with the cart: three per row, keyed by the row
    index, and "Proceed to Checkout" below the totals. *)
Inductive cart_button : Set :=
| minus (idx : nat)
| plus (idx : nat)
| remove (idx : nat)
| proceed.

#[global] Instance cart_button_eq_dec : EqDecision cart_button.
Proof. solve_decision. Defined.

Definition fired {B} `{EqDecision B} (click : option B) (b : B) : bool :=
  bool_decide (click = Some b).

Record totals : Type := Totals {
  subtotal : float;
  service_tax : float;
  delivery_charge : float;
  total : float
}.

(** How the cart block ends: a button changed the cart and the script
    re-runs, or the totals are drawn, or the totals are drawn and
    "Proceed to Checkout" moves the session to step 2. *)
Inductive cart_view : Type :=
| changed (cart' : list Item.t)
| drawn (t : totals)
| checkout (t : totals).

(** Lines 219-239: the loop over [enumerate(cart[:])].  [rows] is what is
    left of the copy, [idx] the index of its head; the rows are the very
    dictionaries of [cart], so a change of [item] is a change of
    [cart[idx]].  Returns the cart a button left behind, or the
    subtotal. *)
Fixpoint cart_rows (click : option cart_button) (cart : list Item.t)
    (idx : nat) (rows : list Item.t) (subtotal : float)
  : Py.result (list Item.t + float) :=
  match rows with
  | [] => Ok (inr subtotal)
  | item :: rows' =>
      if fired click (minus idx) && bool_decide (1 < Item.quantity item) then
        Ok (inl (alter (fun i => Item.with_quantity (Item.quantity i - 1) i)
                       idx cart))
      else if fired click (plus idx) then
        Ok (inl (alter (fun i => Item.with_quantity (Item.quantity i + 1) i)
                       idx cart))
      else if fired click (remove idx) then
        Ok (inl (delete idx cart))
      else
        amount <- Py.mul_float_int (Item.price item) (Item.quantity item) ;;
        cart_rows click cart (S idx) rows' (subtotal + amount)%float
  end.

(** Lines 217-253: the rows, then the three derived amounts.  The page
    runs the block when the cart is not empty (line 215). *)
Definition cart_block (click : option cart_button) (cart : list Item.t)
  : Py.result cart_view :=
  r <- cart_rows click cart 0 cart 0%float ;;
  match r with
  | inl cart' => Ok (changed cart')
  | inr subtotal =>
      let service_tax := (subtotal * 0.10)%float in
      let delivery_charge := (subtotal * 0.06)%float in
      let total := (subtotal + service_tax + delivery_charge)%float in
      let t := Totals subtotal service_tax delivery_charge total in
      Ok (if fired click proceed then checkout t else drawn t)
  end.

(** ** Checkout (customer page, step 2) *)

(** [d[k]] on a dictionary: [KeyError] when the key is missing. *)
Definition getitem {V} (d : gmap string V) (k : string) : Py.result V :=
  match d !! k with
  | Some v => Ok v
  | None => Raise Py.KeyError
  end.

(** [d.keys()] *)
Definition keys {V} (d : gmap string V) : list string := (map_to_list d).*1.

(** Lines 276-284: the order written for one cart line. *)
Definition new_order (customer user_phone : string) (item : Item.t)
    (dropoff payment : string) (tip : float) : Order.t :=
  Order.mk customer user_phone
    (Item.restaurant item) (Item.category item) (Item.food item)
    (Item.price item) (Item.quantity item) dropoff payment tip pending
    None None None None.

(** Lines 273-284: one pass of the loop over the cart, on the pair of
    [last_id] and [orders]. *)
Definition place_line (customer user_phone dropoff payment : string)
    (tip : float) (acc : Z * gmap string Order.t) (item : Item.t)
  : Z * gmap string Order.t :=
  let last_id := acc.1 + 1 in
  let order_id := Py.str last_id in
  (last_id,
   <[order_id := new_order customer user_phone item dropoff payment tip]> acc.2).

(** Line 271: [max([int(k) for k in orders.keys()] or [0])] *)
Definition last_order_id (os : gmap string Order.t) : Py.result Z :=
  ids <- Py.traverse Py.int (keys os) ;;
  Py.max (match ids with [] => [0] | _ => ids end).

(** A store whose identifiers all read as integers, the highest
    identifier of a store (0 for the empty store), and the identifier
    given to the cart line of index [i] when the highest was [m]. *)
Definition numeric (os : gmap string Order.t) : Prop :=
  map_Forall (fun k _ => Py.int k <> Raise Py.ValueError) os.

Definition highest (os : gmap string Order.t) (m : Z) : Prop :=
  (forall k n, is_Some (os !! k) -> Py.int k = Ok n -> n <= m) /\
  ((os = ∅ /\ m = 0) \/ (exists k, is_Some (os !! k) /\ Py.int k = Ok m)).

(** No identifier of the store reads as an integer above [m]. *)
Definition below (os : gmap string Order.t) (m : Z) : Prop :=
  forall k n, is_Some (os !! k) -> Py.int k = Ok n -> n <= m.

Definition order_id (m : Z) (i : nat) : string := Py.str (m + 1 + Z.of_nat i).

(** The widgets of step 2 that start an action: the submitted checkout
    form with its field values, and "Back to Menu". *)
Inductive checkout_event : Type :=
| place_order (dropoff payment : string) (tip : float)
| back_to_menu.

(** Lines 256-293. *)
Definition checkout_block (a : app) (ev : option checkout_event)
  : Py.result run :=
  match ev with
  | Some (place_order dropoff payment tip) =>
      if negb (Py.truthy dropoff) then
        Ok (Run a [error "Please enter a dropoff location."] [] false)
      else
        user <- getitem (users a) (username a) ;;
        let user_phone := User.phone user in
        last_id <- last_order_id (orders a) ;;
        let os :=
          (foldl (place_line (username a) user_phone dropoff payment tip)
                 (last_id, orders a) (cart a)).2 in
        Ok (Run (with_cart [] (with_step 1 (with_orders os a)))
                [success "Order placed successfully!"]
                [(ORDERS_FILE, orders_data os)]
                true)
  | Some back_to_menu => Ok (Run (with_step 1 a) [] [] true)
  | None => Ok (idle a)
  end.

(** ** The customer's orders and their rating forms *)

(** Line 297: the orders placed by [customer]. *)
Definition user_orders (os : gmap string Order.t) (customer : string)
  : gmap string Order.t :=
  filter (fun kv => Order.customer kv.2 = customer) os.

(** [sorted(items, key=lambda item: item[0], reverse=True)]: a stable
    sort on the identifier strings, compared character by character,
    largest first. *)
Fixpoint insert_rev {V} (x : string * V) (l : list (string * V))
  : list (string * V) :=
  match l with
  | [] => [x]
  | y :: l' =>
      if String.leb y.1 x.1 then x :: l else y :: insert_rev x l'
  end.

Definition sorted_rev {V} (l : list (string * V)) : list (string * V) :=
  foldr insert_rev [] l.


(** Line 304: the sequence the page walks through. *)
Definition listed_orders (os : gmap string Order.t) (customer : string)
  : list (string * Order.t) :=
  sorted_rev (map_to_list (user_orders os customer)).

(** The submitted rating form of order [oid] with its three sliders. *)
Inductive rating_event : Type :=
| submit_rating (oid : string) (rating_food rating_speed rating_service : Z).

(** [d.setdefault(k, v)]: the dictionary with [k] present. *)
Definition setdefault {V} (k : string) (v : V) (d : gmap string V)
  : gmap string V :=
  match d !! k with
  | Some _ => d
  | None => <[k := v]> d
  end.

(** Lines 328-330. *)
Definition rate_restaurant (restaurant : string) (rating_food : Z)
    (rs : gmap string RestaurantRating.t) : gmap string RestaurantRating.t :=
  alter (fun r => RestaurantRating.mk
                    (RestaurantRating.rating_sum r + rating_food)
                    (RestaurantRating.rating_count r + 1))
        restaurant
        (setdefault restaurant (RestaurantRating.mk 0 0) rs).

(** Lines 334-341. *)
Definition rate_driver (driver : string)
    (rating_food rating_speed rating_service : Z)
    (ds : gmap string DriverRating.t) : gmap string DriverRating.t :=
  alter (fun d => DriverRating.mk
                    (DriverRating.rating_sum d + rating_food)
                    (DriverRating.rating_count d + 1)
                    (DriverRating.speed_sum d + rating_speed)
                    (DriverRating.service_sum d + rating_service))
        driver
        (setdefault driver (DriverRating.mk 0 0 0 0) ds).

(** Lines 321-346: the body of "Submit Rating" for the listed order
    [(oid, o)]. *)
Definition submit (a : app) (oid : string) (o : Order.t)
    (rating_food rating_speed rating_service : Z) : run :=
  let os :=
    alter (fun o => Order.with_rating_service (Some rating_service)
                      (Order.with_rating_speed (Some rating_speed)
                         (Order.with_rating_food (Some rating_food) o)))
          oid (orders a) in
  let restaurants :=
    rate_restaurant (Order.restaurant o) rating_food
                    (Ratings.restaurants (ratings a)) in
  let drivers :=
    match Order.driver o with
    | Some d =>
        if Py.truthy d then
          rate_driver d rating_food rating_speed rating_service
                      (Ratings.drivers (ratings a))
        else Ratings.drivers (ratings a)
    | None => Ratings.drivers (ratings a)
    end in
  let rs := Ratings.mk restaurants drivers in
  Run (with_ratings rs (with_orders os a))
      [success "Thank you for your feedback!"]
      [(RATINGS_FILE, ratings_data rs); (ORDERS_FILE, orders_data os)]
      true.

(** Lines 304-351: the loop over the listed orders.  A rating form is
    drawn only for a completed order whose [rating_food] is [None]; a
    form that is not drawn cannot report a submission. *)
Fixpoint rating_forms (a : app) (ev : option rating_event)
    (listed : list (string * Order.t)) : run :=
  match listed with
  | [] => idle a
  | (oid, o) :: rest =>
      if bool_decide (Order.status o = completed)
         && bool_decide (Order.rating_food o = None)
      then
        match ev with
        | Some (submit_rating oid' rating_food rating_speed rating_service) =>
            if bool_decide (oid' = oid) then
              submit a oid o rating_food rating_speed rating_service
            else rating_forms a ev rest
        | None => rating_forms a ev rest
        end
      else rating_forms a ev rest
  end.

(** Lines 296-351. *)
Definition orders_block (a : app) (ev : option rating_event) : run :=
  rating_forms a ev (listed_orders (orders a) (username a)).

(** ** Displayed averages *)

(** Lines 191-194: the average food rating of the selected restaurant,
    [None] when the line is not written. *)
Definition restaurant_average (rs : Ratings.t) (restaurant : string)
  : Py.result (option float) :=
  match Ratings.restaurants rs !! restaurant with
  | Some r_rating =>
      if bool_decide (0 < RestaurantRating.rating_count r_rating) then
        avg_rating <- Py.truediv (RestaurantRating.rating_sum r_rating)
                                 (RestaurantRating.rating_count r_rating) ;;
        Ok (Some avg_rating)
      else Ok None
  | None => Ok None
  end.

(** Lines 359-364: the driver's three averages (food, speed, service). *)
Definition driver_average (rs : Ratings.t) (driver : string)
  : Py.result (option (float * float * float)) :=
  match Ratings.drivers rs !! driver with
  | Some d_rating =>
      if bool_decide (0 < DriverRating.rating_count d_rating) then
        avg_food <- Py.truediv (DriverRating.rating_sum d_rating)
                               (DriverRating.rating_count d_rating) ;;
        avg_speed <- Py.truediv (DriverRating.speed_sum d_rating)
                                (DriverRating.rating_count d_rating) ;;
        avg_service <- Py.truediv (DriverRating.service_sum d_rating)
                                  (DriverRating.rating_count d_rating) ;;
        Ok (Some (avg_food, avg_speed, avg_service))
      else Ok None
  | None => Ok None
  end.

(** ** The driver page *)

(** One button per row of the two lists, keyed by the order identifier. *)
Inductive driver_button : Set :=
| deliver (oid : string)
| claim (oid : string).

#[global] Instance driver_button_eq_dec : EqDecision driver_button.
Proof. solve_decision. Defined.

(** Line 368 *)
Definition driver_orders (os : gmap string Order.t) (driver : string)
  : gmap string Order.t :=
  filter (fun kv => Order.driver kv.2 = Some driver
                    /\ Order.status kv.2 = claimed) os.

(** Line 386 *)
Definition pending_orders (os : gmap string Order.t) : gmap string Order.t :=
  filter (fun kv => Order.status kv.2 = pending) os.

(** Lines 373-380: the rows of "Your Claimed Orders"; [None] when the
    loop ends without a button having fired. *)
Fixpoint deliver_rows (a : app) (click : option driver_button)
    (rows : list (string * Order.t)) : option run :=
  match rows with
  | [] => None
  | (oid, o) :: rest =>
      if fired click (deliver oid) then
        let os := alter (Order.with_status completed) oid (orders a) in
        Some (Run (with_orders os a)
                  [success ("Order " +:+ oid +:+ " marked as completed!")]
                  [(ORDERS_FILE, orders_data os)]
                  true)
      else deliver_rows a click rest
  end.

(** Lines 391-401: the rows of "Available Orders to Claim". *)
Fixpoint claim_rows (a : app) (click : option driver_button)
    (rows : list (string * Order.t)) : option run :=
  match rows with
  | [] => None
  | (oid, order) :: rest =>
      if fired click (claim oid) then
        let os :=
          alter (fun o => Order.with_status claimed
                            (Order.with_driver (Some (username a)) o))
                oid (orders a) in
        Some (Run (with_orders os a)
                  [success ("Order " +:+ oid +:+
                     " claimed! It has been moved to 'Your Claimed Orders'.")]
                  [(ORDERS_FILE, orders_data os)]
                  true)
      else claim_rows a click rest
  end.

(** Lines 355-401 (the average line apart). *)
Definition driver_page (a : app) (click : option driver_button) : run :=
  match deliver_rows a click
          (map_to_list (driver_orders (orders a) (username a))) with
  | Some r => r
  | None =>
      match claim_rows a click (map_to_list (pending_orders (orders a))) with
      | Some r => r
      | None => idle a
      end
  end.

(** ** Loading a store from its file *)

Module Json.
(** What [json.load] can return. *)
Inductive value : Type :=
| null
| boolean (b : bool)
| integer (n : Z)
| number (x : float)
| text (s : string)
| array (items : list value)
| object (members : list (string * value)).
End Json.

(** Reading a file opened with [open(file, "r")]: the bytes are decoded
    as UTF-8, the text encoding of a POSIX locale, with strict error
    handling, and line ends are translated. *)
Definition between (lo hi : N) (b : byte) : bool :=
  ((lo <=? Byte.to_N b) && (Byte.to_N b <=? hi))%N.

Definition continuation : byte -> bool := between 128 191.

Fixpoint utf8 (bs : list byte) : bool :=
  match bs with
  | [] => true
  | b0 :: r0 =>
      if between 0 127 b0 then utf8 r0
      else
        match r0 with
        | [] => false
        | b1 :: r1 =>
            if between 194 223 b0 then continuation b1 && utf8 r1
            else
              match r1 with
              | [] => false
              | b2 :: r2 =>
                  if between 224 239 b0 then
                    (if between 224 224 b0 then between 160 191 b1
                     else if between 237 237 b0 then between 128 159 b1
                     else continuation b1)
                    && continuation b2 && utf8 r2
                  else
                    match r2 with
                    | [] => false
                    | b3 :: r3 =>
                        between 240 244 b0
                        && (if between 240 240 b0 then between 144 191 b1
                            else if between 244 244 b0 then between 128 143 b1
                            else continuation b1)
                        && continuation b2 && continuation b3 && utf8 r3
                    end
              end
        end
  end.

Fixpoint universal_newlines (s : string) : string :=
  match s with
  | String "013" (String "010" r) => String "010" (universal_newlines r)
  | String "013" r => String "010" (universal_newlines r)
  | String c r => String c (universal_newlines r)
  | EmptyString => EmptyString
  end.

Definition read (content : list byte) : Py.result string :=
  if utf8 content then Ok (universal_newlines (string_of_list_byte content))
  else Raise Py.UnicodeDecodeError.

Section Persistence.

(** The parser of the json module on a decoded text: the value it
    returns or the exception it raises. *)
Variable loads : string -> Py.result Json.value.

(** Lines 30-37, on a disk that maps the existing paths to the bytes of
    their files. *)
Definition load_data (disk : gmap string (list byte)) (file : string)
  : Py.result Json.value :=
  match disk !! file with
  | Some content =>
      match (s <- read content ;; loads s) with
      | Raise Py.JSONDecodeError => Ok (Json.object [])
      | r => r
      end
  | None => Ok (Json.object [])
  end.

End Persistence.

(** The three rating fields of an order. *)
Definition rating_fields (o : Order.t) : option Z * option Z * option Z :=
  (Order.rating_food o, Order.rating_speed o, Order.rating_service o).

(** ** Reported errors *)

(** The script reports a refused action with an [st.error] banner. *)
Definition reports_error (r : run) : Prop :=
  exists msg, error msg ∈ notices r.

(** ** Sample states *)

Module Sample.

Definition alice : User.t := User.mk "$2b$12$hash" "0123456789" "Customer".
Definition bob : User.t := User.mk "$2b$12$hash" "0198765432" "Driver".

Definition margherita : Item.t :=
  Item.mk "Pizza Place" "Pizza" "Margherita" 12 2.
Definition garlic_bread : Item.t :=
  Item.mk "Pizza Place" "Sides" "Garlic Bread" 5 1.

(** Alice at the checkout form, nothing ordered yet. *)
Definition start : app :=
  App {[ "alice" := alice; "bob" := bob ]} ∅ (Ratings.mk ∅ ∅) "alice" 2 [].

(** One checkout of a single line. *)
Definition order_once (a : app) : app :=
  match checkout_block (with_cart [margherita] a)
                       (Some (place_order "Dorm 3" "Cash" 2)) with
  | Ok r => state r
  | Raise _ => a
  end.

Definition after_ten : app := Nat.iter 10 order_once start.

(** Alice with two lines in her cart and one earlier order in the store. *)
Definition at_checkout : app :=
  with_cart [margherita; garlic_bread] (order_once start).

(** Bob's driver page after he claimed Alice's only order. *)
Definition claimed_by_bob : app :=
  state (driver_page (with_username "bob" (order_once start))
                     (Some (claim "1"))).

(** Alice's page after that order was delivered and she rated it. *)
Definition delivered : app :=
  with_username "alice"
    (state (driver_page claimed_by_bob (Some (deliver "1")))).

(** Order "1" as it stands once delivered. *)
Definition delivered_order : Order.t :=
  Order.mk "alice" "0123456789" "Pizza Place" "Pizza" "Margherita" 12 2
           "Dorm 3" "Cash" 2 completed (Some "bob") None None None.

Definition rated : app :=
  state (orders_block delivered (Some (submit_rating "1" 5 4 3))).

End Sample.


(** * The rest of the script *)

Set Warnings "-clear-no-such-hyp".

(** ** Phone numbers *)

(** [''.join(filter(str.isdigit, phone))], for the ASCII digits: a
    non-ASCII digit character, which [str.isdigit] also accepts, is
    dropped here. *)
Fixpoint only_digits (s : string) : string :=
  match s with
  | EmptyString => EmptyString
  | String c r => if Py.isdigit c then String c (only_digits r) else only_digits r
  end.

(** Lines 45-49 *)
Definition format_phone_number (phone : string) : string :=
  let digits := only_digits phone in
  if bool_decide (String.length digits < 4)%nat then phone
  else String.substring 0 3 digits +:+ "-"
       +:+ String.substring 3 (String.length digits - 3) digits.

(** A text of 7-bit characters only. *)
Fixpoint ascii_text (s : string) : Prop :=
  match s with
  | EmptyString => True
  | String c r => (nat_of_ascii c < 128)%nat /\ ascii_text r
  end.

(** ** Accounts *)

Definition USERS_FILE : string := "users.json".

(** The two entries of [ROLES], as the role select boxes offer them. *)
Inductive role_choice : Set := Customer | Driver.

Definition role_name (r : role_choice) : string :=
  match r with
  | Customer => "Customer"
  | Driver => "Driver"
  end.

Definition ROLES : list string := [role_name Customer; role_name Driver].

(** The session keys written by the sidebar, beside those of [app]. *)
Record world : Type := World {
  app_of : app;
  logged_in : bool;
  role : string
}.

Definition with_app (a : app) (w : world) : world :=
  World a (logged_in w) (role w).

Definition with_users (us : gmap string User.t) (a : app) : app :=
  App us (orders a) (ratings a) (username a) (step a) (cart a).

(** What a run of the sidebar leaves: the world, the banners, the users
    written to [USERS_FILE] if any, and whether the script re-runs. *)
Record sidebar_run : Type := SidebarRun {
  world_after : world;
  banners : list notice;
  users_saved : option (gmap string User.t);
  reran : bool
}.

Definition refused (w : world) (msg : string) : sidebar_run :=
  SidebarRun w [error msg] None false.

Section Accounts.

(** The password library: [pwd_context.verify(plain, hashed)], which
    answers or raises on a hash it cannot read, and
    [pwd_context.hash(password)], which draws a salt; the salt drawn is
    its first argument here. *)
Variable verify_password : string -> string -> Py.result bool.
Variable hash_password : string -> string -> string.

(** Lines 71-83 *)
Definition login (w : world) (username password role : string)
  : Py.result sidebar_run :=
  match users (app_of w) !! username with
  | Some u =>
      ok <- verify_password password (User.password u) ;;
      if ok : bool then
        if bool_decide (User.role u = role) then
          Ok (SidebarRun
                (World (with_username username (app_of w)) true role)
                [success ("Logged in as " +:+ username +:+ " (" +:+ role +:+ ")")]
                None true)
        else
          Ok (refused w ("User '" +:+ username
                         +:+ "' is not registered as a " +:+ role +:+ "."))
      else Ok (refused w "Invalid username or password.")
  | None => Ok (refused w "Invalid username or password.")
  end.

(** Lines 85-98; [salt] is the salt that [hash_password] draws. *)
Definition register (w : world) (salt username password phone role : string)
  : sidebar_run :=
  if negb (Py.truthy username) || negb (Py.truthy password)
     || negb (Py.truthy phone)
  then refused w "All fields are required."
  else
    match users (app_of w) !! username with
    | Some _ => refused w "Username already exists."
    | None =>
        let hashed_pwd := hash_password salt password in
        let us := <[username := User.mk hashed_pwd phone role]>
                    (users (app_of w)) in
        SidebarRun (with_app (with_users us (app_of w)) w)
                   [success "User registered successfully! Please log in."]
                   (Some us) false
    end.

(** The widgets of the sidebar that start an action. *)
Inductive sidebar_event : Type :=
| login_form (username password : string) (role : role_choice)
| register_form (salt username password phone : string) (role : role_choice)
| logout_button.

(** Lines 104-132: the forms are drawn for a logged-out session, the
    logout button for a logged-in one. *)
Definition sidebar (w : world) (ev : option sidebar_event)
  : Py.result sidebar_run :=
  if negb (logged_in w) then
    match ev with
    | Some (login_form username password r) =>
        login w username password (role_name r)
    | Some (register_form salt username password phone r) =>
        Ok (register w salt username password phone (role_name r))
    | _ => Ok (SidebarRun w [] None false)
    end
  else
    match ev with
    | Some logout_button =>
        Ok (SidebarRun (World (with_username "" (app_of w)) false "")
                       [] None true)
    | _ => Ok (SidebarRun w [] None false)
    end.

End Accounts.

(** A stand-in for the password library, to run the account functions
    on: the "hash" is the salt, a dollar sign and the password. *)
Module Toy.
Definition hash_password (salt password : string) : string :=
  salt +:+ "$" +:+ password.

Definition salts : list string := ["s1"; "s2"].

Definition verify_password (password hashed : string) : Py.result bool :=
  Ok (bool_decide (Exists (fun salt => hashed = hash_password salt password)
                          salts)).
End Toy.

(** ** The catalogue *)

(** Lines 140-174 *)
Definition restaurants : gmap string (gmap string (gmap string float)) :=
  list_to_map [
    ("Pizza Place", list_to_map [
       ("Pizza", list_to_map [("Margherita", 12); ("Pepperoni", 14);
                              ("Hawaiian", 13.5)]);
       ("Sides", list_to_map [("Garlic Bread", 5); ("Wings", 7)])]);
    ("Sushi Bar", list_to_map [
       ("Sushi Rolls", list_to_map [("California Roll", 10);
                                    ("Spicy Tuna", 11.5);
                                    ("Dragon Roll", 12.5)]);
       ("Drinks", list_to_map [("Green Tea", 3); ("Sake", 8)])]);
    ("Yo Mama's Kitchen", list_to_map [
       ("Comfort Food", list_to_map [("Fried Chicken", 15);
                                     ("Mac and Cheese", 9);
                                     ("Cornbread", 4)]);
       ("Desserts", list_to_map [("Peach Cobbler", 6.5);
                                 ("Chocolate Cake", 7)])]);
    ("Darren's Skibidi Restaurant", list_to_map [
       ("Meme Meals", list_to_map [("Skibidi Burger", 13);
                                   ("Toilet Tacos", 11);
                                   ("Sigma Soda", 4.5)]);
       ("Sides", list_to_map [("French Fries", 5); ("Onion Rings", 5.5)])]);
    ("The Hungry Coder", list_to_map [
       ("Wraps", list_to_map [("Chicken Shawarma", 10); ("Beef Kebab", 12)]);
       ("Energy Drinks", list_to_map [("Red Bull", 6); ("Monster", 6.5)])])
  ]%float.

(** Line 198: [restaurants[restaurant][category][food]] *)
Definition catalogue_price (restaurant category food : string)
  : Py.result float :=
  categories <- getitem restaurants restaurant ;;
  foods <- getitem categories category ;;
  getitem foods food.

(** What a cart line sells: everything but the quantity. *)
Definition sold (item : Item.t) : string * string * string * float :=
  (Item.restaurant item, Item.category item, Item.food item, Item.price item).

(** A cart line at its catalogue price, and a well-formed cart: one line
    per (restaurant, food) pair, quantities of at least 1, catalogue
    prices. *)
Definition priced (item : Item.t) : Prop :=
  catalogue_price (Item.restaurant item) (Item.category item) (Item.food item)
  = Ok (Item.price item).

Definition cart_ok (cart : list Item.t) : Prop :=
  NoDup (line_key <$> cart) /\
  Forall (fun item => 1 <= Item.quantity item) cart /\
  Forall priced cart.

(** A line whose quantity converts to a float. *)
Definition fits (item : Item.t) : Prop :=
  Py.float_of_int (Item.quantity item) <> Raise Py.OverflowError.

(** The three changes a cart button can make to the line it belongs to. *)
Definition decremented (idx : nat) (cart : list Item.t) : list Item.t :=
  alter (fun i => Item.with_quantity (Item.quantity i - 1) i) idx cart.

Definition incremented (idx : nat) (cart : list Item.t) : list Item.t :=
  alter (fun i => Item.with_quantity (Item.quantity i + 1) i) idx cart.

(** ** The customer page as a whole *)

(** The widgets of the customer page that start an action. *)
Inductive customer_event : Type :=
| add_button
| cart_event (b : cart_button)
| checkout_form (e : checkout_event)
| rating_form (e : rating_event).

Definition cart_click (ev : option customer_event) : option cart_button :=
  match ev with Some (cart_event b) => Some b | _ => None end.

Definition checkout_click (ev : option customer_event)
  : option checkout_event :=
  match ev with Some (checkout_form e) => Some e | _ => None end.

Definition rating_click (ev : option customer_event) : option rating_event :=
  match ev with Some (rating_form e) => Some e | _ => None end.

(** Lines 187-253: step 1 with the values of the three select boxes.
    The session's [total], which "Proceed to Checkout" writes and nothing
    reads, is left out. *)
Definition ordering_step (a : app) (restaurant category food : string)
    (ev : option customer_event) : Py.result run :=
  _ <- restaurant_average (ratings a) restaurant ;;
  price <- catalogue_price restaurant category food ;;
  match ev with
  | Some add_button =>
      Ok (Run (with_cart (add_to_cart restaurant category food price (cart a)) a)
              [] [] true)
  | _ =>
      match cart a with
      | [] => Ok (idle a)
      | _ :: _ =>
          v <- cart_block (cart_click ev) (cart a) ;;
          match v with
          | changed cart' => Ok (Run (with_cart cart' a) [] [] true)
          | drawn _ => Ok (idle a)
          | checkout _ => Ok (Run (with_step 2 a) [] [] true)
          end
      end
  end.

(** Lines 177-351: the step block, then, unless it re-ran the script,
    the orders block. *)
Definition customer_page (a : app) (restaurant category food : string)
    (ev : option customer_event) : Py.result run :=
  first <-
    (if bool_decide (step a = 1) then
       ordering_step a restaurant category food ev
     else if bool_decide (step a = 2) then
       checkout_block a (checkout_click ev)
     else Ok (idle a)) ;;
  if rerun first then Ok first
  else
    let last := orders_block (state first) (rating_click ev) in
    Ok (Run (state last) (notices first ++ notices last)
            (saved first ++ saved last) (rerun last)).

(** ** One run of the script *)

Inductive event : Type :=
| in_sidebar (e : sidebar_event)
| in_customer_page (e : customer_event)
| in_driver_page (b : driver_button).

Definition sidebar_click (ev : option event) : option sidebar_event :=
  match ev with Some (in_sidebar e) => Some e | _ => None end.

Definition customer_click (ev : option event) : option customer_event :=
  match ev with Some (in_customer_page e) => Some e | _ => None end.

Definition driver_click (ev : option event) : option driver_button :=
  match ev with Some (in_driver_page b) => Some b | _ => None end.

(** What one run leaves: the world, the banners, what was written to the
    users file and to the other two files. *)
Record script_run : Type := ScriptRun {
  final : world;
  shown : list notice;
  users_written : option (gmap string User.t);
  written : list (string * data)
}.

Definition page_run (w : world) (s : sidebar_run) (r : run) : script_run :=
  ScriptRun (with_app (state r) w) (banners s ++ notices r)
            (users_saved s) (saved r).

Section Script.

Variable verify_password : string -> string -> Py.result bool.
Variable hash_password : string -> string -> string.

(** Lines 100-137 and 404-408: the sidebar; nothing more for a session
    that is not logged in; otherwise the page of the session's role. *)
Definition script (w : world) (restaurant category food : string)
    (ev : option event) : Py.result script_run :=
  s <- sidebar verify_password hash_password w (sidebar_click ev) ;;
  let w1 := world_after s in
  if reran s || negb (logged_in w1) then
    Ok (ScriptRun w1 (banners s) (users_saved s) [])
  else if bool_decide (role w1 = "Customer") then
    r <- customer_page (app_of w1) restaurant category food
                       (customer_click ev) ;;
    Ok (page_run w1 s r)
  else if bool_decide (role w1 = "Driver") then
    _ <- driver_average (ratings (app_of w1)) (username (app_of w1)) ;;
    Ok (page_run w1 s (driver_page (app_of w1) (driver_click ev)))
  else Ok (ScriptRun w1 (banners s) (users_saved s) []).

(** A session logged in under a role. *)
Definition as_role (name : string) (w : world) : Prop :=
  logged_in w = true /\ role w = name.

(** The changes that one run of the script can make to the world. *)
Inductive transition : world -> world -> Prop :=
| stays w : transition w w
| logs_in w username password usr rc :
    logged_in w = false ->
    users (app_of w) !! username = Some usr ->
    verify_password password (User.password usr) = Ok true ->
    User.role usr = role_name rc ->
    transition w (World (with_username username (app_of w)) true (role_name rc))
| registers w salt username password phone rc :
    logged_in w = false ->
    username <> EmptyString -> password <> EmptyString ->
    phone <> EmptyString ->
    users (app_of w) !! username = None ->
    transition w
      (with_app
         (with_users
            (<[username := User.mk (hash_password salt password) phone
                                   (role_name rc)]> (users (app_of w)))
            (app_of w)) w)
| logs_out w :
    logged_in w = true ->
    transition w (World (with_username "" (app_of w)) false "")
| adds w restaurant category food price :
    as_role "Customer" w ->
    step (app_of w) = 1 ->
    catalogue_price restaurant category food = Ok price ->
    transition w
      (with_app (with_cart (add_to_cart restaurant category food price
                                        (cart (app_of w))) (app_of w)) w)
| presses w click cart' :
    as_role "Customer" w ->
    step (app_of w) = 1 ->
    cart_block click (cart (app_of w)) = Ok (changed cart') ->
    transition w (with_app (with_cart cart' (app_of w)) w)
| proceeds w :
    as_role "Customer" w ->
    step (app_of w) = 1 ->
    cart (app_of w) <> [] ->
    transition w (with_app (with_step 2 (app_of w)) w)
| checks_out w dropoff tip usr m :
    as_role "Customer" w ->
    step (app_of w) = 2 ->
    dropoff <> EmptyString ->
    (0 <=? tip)%float = true ->
    users (app_of w) !! username (app_of w) = Some usr ->
    highest (orders (app_of w)) m ->
    transition w
      (with_app
         (with_cart []
            (with_step 1
               (with_orders
                  (foldl (place_line (username (app_of w)) (User.phone usr)
                                     dropoff "Cash" tip)
                         (m, orders (app_of w)) (cart (app_of w))).2
                  (app_of w)))) w)
| goes_back w :
    as_role "Customer" w ->
    step (app_of w) = 2 ->
    transition w (with_app (with_step 1 (app_of w)) w)
| rates w oid o f s v :
    as_role "Customer" w ->
    orders (app_of w) !! oid = Some o ->
    Order.customer o = username (app_of w) ->
    Order.status o = completed ->
    Order.rating_food o = None ->
    1 <= f <= 5 -> 1 <= s <= 5 -> 1 <= v <= 5 ->
    transition w (with_app (state (submit (app_of w) oid o f s v)) w)
| delivers w oid o :
    as_role "Driver" w ->
    orders (app_of w) !! oid = Some o ->
    Order.driver o = Some (username (app_of w)) ->
    Order.status o = claimed ->
    transition w
      (with_app (with_orders (<[oid := Order.with_status completed o]>
                                (orders (app_of w))) (app_of w)) w)
| claims w oid o :
    as_role "Driver" w ->
    orders (app_of w) !! oid = Some o ->
    Order.status o = pending ->
    transition w
      (with_app
         (with_orders
            (<[oid := Order.with_status claimed
                        (Order.with_driver (Some (username (app_of w))) o)]>
               (orders (app_of w))) (app_of w)) w).

(** What the widgets can send: slider values from 1 to 5, the one
    payment method, a tip that is not negative. *)
Definition offered (ev : option event) : Prop :=
  match ev with
  | Some (in_customer_page (rating_form (submit_rating _ f s v))) =>
      1 <= f <= 5 /\ 1 <= s <= 5 /\ 1 <= v <= 5
  | Some (in_customer_page (checkout_form (place_order _ payment tip))) =>
      payment = "Cash" /\ (0 <=? tip)%float = true
  | _ => True
  end.

(** A first visit with empty files: nobody logged in, nothing stored. *)
Definition first_visit : world :=
  World (App ∅ ∅ (Ratings.mk ∅ ∅) "" 1 []) false "".

(** The worlds that runs of the script lead to from a first visit. *)
Inductive reachable : world -> Prop :=
| reachable_first : reachable first_visit
| reachable_run w restaurant category food ev r :
    reachable w ->
    offered ev ->
    script w restaurant category food ev = Ok r ->
    reachable (final r).

End Script.

(** ** How an order may change *)

(** The position of a status in the life of an order. *)
Definition rank (s : lifecycle) : Z :=
  match s with
  | pending => 0
  | claimed => 1
  | completed => 2
  end.

(** What was ordered: the fields written at checkout and never again. *)
Definition ordered (o : Order.t)
  : string * string * string * string * string * float * Z
    * string * string * float :=
  (Order.customer o, Order.phone o, Order.restaurant o, Order.category o,
   Order.food o, Order.price o, Order.quantity o, Order.dropoff o,
   Order.payment o, Order.tip o).

(** [o'] is a later state of the order [o]: what was ordered is the same,
    the status has not gone back, a claimed or completed order has kept
    its driver, and a rated order its rating. *)
Definition evolves (o o' : Order.t) : Prop :=
  ordered o' = ordered o /\
  rank (Order.status o) <= rank (Order.status o') /\
  (Order.status o <> pending -> Order.driver o' = Order.driver o) /\
  (Order.driver o <> None -> Order.driver o' <> None) /\
  (Order.rating_food o <> None -> rating_fields o' = rating_fields o).

(** Every order of [os] is in [os'], in a later state. *)
Definition store_evolves (os os' : gmap string Order.t) : Prop :=
  forall k o, os !! k = Some o -> exists o', os' !! k = Some o' /\ evolves o o'.

(** ** What holds in every world the script leads to *)

(** The sum of a quantity over the orders of a store. *)
Definition sum_over (g : Order.t -> Z) (os : gmap string Order.t) : Z :=
  map_fold (fun _ o acc => acc + g o) 0 os.

(** 1 for a rated order, the value of a rating field (0 when absent),
    and a quantity counted only for one restaurant or one driver. *)
Definition rated (o : Order.t) : Z :=
  match Order.rating_food o with Some _ => 1 | None => 0 end.

Definition value (field : Order.t -> option Z) (o : Order.t) : Z :=
  default 0 (field o).

Definition at_restaurant (r : string) (g : Order.t -> Z) (o : Order.t) : Z :=
  if decide (Order.restaurant o = r) then g o else 0.

Definition of_driver (d : string) (g : Order.t -> Z) (o : Order.t) : Z :=
  if decide (Order.driver o = Some d) then g o else 0.

(** The aggregates are the sums over the rated orders. *)
Definition ratings_ok (rs : Ratings.t) (os : gmap string Order.t) : Prop :=
  (forall r,
     let agg := default (RestaurantRating.mk 0 0)
                        (Ratings.restaurants rs !! r) in
     RestaurantRating.rating_count agg = sum_over (at_restaurant r rated) os /\
     RestaurantRating.rating_sum agg
     = sum_over (at_restaurant r (value Order.rating_food)) os) /\
  (forall d,
     let agg := default (DriverRating.mk 0 0 0 0) (Ratings.drivers rs !! d) in
     DriverRating.rating_count agg = sum_over (of_driver d rated) os /\
     DriverRating.rating_sum agg
     = sum_over (of_driver d (value Order.rating_food)) os /\
     DriverRating.speed_sum agg
     = sum_over (of_driver d (value Order.rating_speed)) os /\
     DriverRating.service_sum agg
     = sum_over (of_driver d (value Order.rating_service)) os).

(** The eight quantities that the aggregates sum. *)
Definition same_measures (o o' : Order.t) : Prop :=
  forall (g : Order.t -> Z),
    (exists r, g = at_restaurant r rated) \/
    (exists r, g = at_restaurant r (value Order.rating_food)) \/
    (exists d, g = of_driver d rated) \/
    (exists d, g = of_driver d (value Order.rating_food)) \/
    (exists d, g = of_driver d (value Order.rating_speed)) \/
    (exists d, g = of_driver d (value Order.rating_service)) ->
    g o' = g o.

(** Every account has a name, a phone and one of the two roles. *)
Definition users_ok (us : gmap string User.t) : Prop :=
  forall u usr, us !! u = Some usr ->
    u <> EmptyString /\ User.phone usr <> EmptyString /\
    (User.role usr = "Customer" \/ User.role usr = "Driver").

(** A logged-in session is the session of an account, under its role. *)
Definition session_ok (w : world) : Prop :=
  logged_in w = true ->
  exists usr, users (app_of w) !! username (app_of w) = Some usr /\
              User.role usr = role w.

(** The step is 1 or 2, the cart is well-formed, and it is not empty at
    the checkout step. *)
Definition cart_step_ok (a : app) : Prop :=
  cart_ok (cart a) /\ (step a = 1 \/ step a = 2) /\
  (step a = 2 -> cart a <> []).

(** The identifiers are "1", "2", ..., up to the number of orders. *)
Definition ids_ok (os : gmap string Order.t) : Prop :=
  exists N : nat,
    forall k, is_Some (os !! k) <-> exists i, (i < N)%nat /\ k = order_id 0 i.

(** A rating triple: all three absent, or all three from 1 to 5. *)
Definition rating_ok (o : Order.t) : Prop :=
  rating_fields o = (None, None, None) \/
  exists f s v, rating_fields o = (Some f, Some s, Some v) /\
                1 <= f <= 5 /\ 1 <= s <= 5 /\ 1 <= v <= 5.

(** A well-formed order, among the accounts [us]. *)
Definition order_ok (us : gmap string User.t) (o : Order.t) : Prop :=
  (Order.driver o = None <-> Order.status o = pending) /\
  (Order.rating_food o <> None -> Order.status o = completed) /\
  rating_ok o /\
  1 <= Order.quantity o /\
  Order.dropoff o <> EmptyString /\
  Order.payment o = "Cash" /\
  (0 <=? Order.tip o)%float = true /\
  catalogue_price (Order.restaurant o) (Order.category o) (Order.food o)
  = Ok (Order.price o) /\
  (exists usr, us !! Order.customer o = Some usr /\
               User.role usr = "Customer" /\
               Order.phone o = User.phone usr) /\
  (forall d, Order.driver o = Some d ->
     d <> EmptyString /\
     exists usr, us !! d = Some usr /\ User.role usr = "Driver").

Definition invariant (w : world) : Prop :=
  users_ok (users (app_of w)) /\
  session_ok w /\
  cart_step_ok (app_of w) /\
  ids_ok (orders (app_of w)) /\
  map_Forall (fun _ o => order_ok (users (app_of w)) o) (orders (app_of w)) /\
  ratings_ok (ratings (app_of w)) (orders (app_of w)).

(** [w'] is what some run of the script, on inputs the widgets can send,
    leaves of [w]; [rtc] of it is any sequence of runs. *)
Definition run_of (verify_password : string -> string -> Py.result bool)
    (hash_password : string -> string -> string) (w w' : world) : Prop :=
  exists restaurant category food ev r,
    offered ev /\
    script verify_password hash_password w restaurant category food ev = Ok r /\
    w' = final r.

(** ** The files and the stores *)

(** The run [r] of a page, started in the state [a], has saved every
    store that it changed, after the change: whatever it wrote to a
    file is the store it leaves, a changed store was written, and the
    accounts are as they were. *)
Definition run_saves (a : app) (r : run) : Prop :=
  users (state r) = users a /\
  (orders (state r) <> orders a ->
   (ORDERS_FILE, orders_data (orders (state r))) ∈ saved r) /\
  (ratings (state r) <> ratings a ->
   (RATINGS_FILE, ratings_data (ratings (state r))) ∈ saved r) /\
  (forall f d, (f, d) ∈ saved r ->
     (f = ORDERS_FILE /\ d = orders_data (orders (state r))) \/
     (f = RATINGS_FILE /\ d = ratings_data (ratings (state r)))).

(** The same for a run of the whole script, with the users file. *)
Definition script_saves (w : world) (r : script_run) : Prop :=
  let a := app_of w in
  let a' := app_of (final r) in
  (users a' <> users a -> users_written r = Some (users a')) /\
  (forall us, users_written r = Some us -> us = users a') /\
  (orders a' <> orders a ->
   (ORDERS_FILE, orders_data (orders a')) ∈ written r) /\
  (ratings a' <> ratings a ->
   (RATINGS_FILE, ratings_data (ratings a')) ∈ written r) /\
  (forall f d, (f, d) ∈ written r ->
     (f = ORDERS_FILE /\ d = orders_data (orders a')) \/
     (f = RATINGS_FILE /\ d = ratings_data (ratings a'))).

(** ** Who can change what *)

(** What a run from [w] to [w'] respects: accounts change only while
    logged out, orders and aggregates only while logged in; a customer's
    run keeps the status and driver of every order; a driver's run keeps
    the aggregates and the cart, adds no order and keeps what was ordered
    and the ratings of every order. *)
Definition role_bound (w w' : world) : Prop :=
  (users (app_of w') <> users (app_of w) -> logged_in w = false) /\
  (orders (app_of w') <> orders (app_of w)
   \/ ratings (app_of w') <> ratings (app_of w) -> logged_in w = true) /\
  (as_role "Customer" w ->
   forall k o, orders (app_of w) !! k = Some o ->
     exists o', orders (app_of w') !! k = Some o' /\
                Order.status o' = Order.status o /\
                Order.driver o' = Order.driver o) /\
  (as_role "Driver" w ->
   ratings (app_of w') = ratings (app_of w) /\
   cart (app_of w') = cart (app_of w) /\
   (forall k, is_Some (orders (app_of w') !! k)
              <-> is_Some (orders (app_of w) !! k)) /\
   forall k o, orders (app_of w) !! k = Some o ->
     exists o', orders (app_of w') !! k = Some o' /\
                ordered o' = ordered o /\
                rating_fields o' = rating_fields o).

(** ** A session from the first visit to a rated order *)

Module Story.

(** One more run, with the stand-in password functions (a run that
    raises leaves the world as it was). *)
Definition run (w : world) (restaurant category food : string)
    (ev : option event) : script_run :=
  match script Toy.verify_password Toy.hash_password
               w restaurant category food ev with
  | Ok r => r
  | Raise _ => ScriptRun w [] None []
  end.

Definition after (w : world) (restaurant category food : string)
    (ev : option event) : world :=
  final (run w restaurant category food ev).

(** A run with the Margherita selected in the menu. *)
Definition click (w : world) (e : event) : world :=
  after w "Pizza Place" "Pizza" "Margherita" (Some e).

Definition alice_registered : world :=
  click first_visit
    (in_sidebar (register_form "s1" "alice" "pw" "0123456789" Customer)).

Definition both_registered : world :=
  click alice_registered
    (in_sidebar (register_form "s2" "bob" "pw2" "0198765432" Driver)).

Definition alice_in : world :=
  click both_registered (in_sidebar (login_form "alice" "pw" Customer)).

Definition one_line : world :=
  click (click alice_in (in_customer_page add_button))
        (in_customer_page add_button).

Definition at_checkout : world :=
  click one_line (in_customer_page (cart_event proceed)).

Definition placed : world :=
  click at_checkout
    (in_customer_page (checkout_form (place_order "Dorm 3" "Cash" 2))).

Definition bob_in : world :=
  click (click placed (in_sidebar logout_button))
        (in_sidebar (login_form "bob" "pw2" Driver)).

Definition taken : world := click bob_in (in_driver_page (claim "1")).

Definition brought : world := click taken (in_driver_page (deliver "1")).

Definition alice_back : world :=
  click (click brought (in_sidebar logout_button))
        (in_sidebar (login_form "alice" "pw" Customer)).

Definition judged : world :=
  click alice_back (in_customer_page (rating_form (submit_rating "1" 5 4 3))).

End Story.

(** * Proofs *)

(** ** Integers and their decimal strings *)

Lemma digits_string_of_uint d :
  d ≠ Decimal.Nil ->
  Py.digits (NilEmpty.string_of_uint d) = Some (NilEmpty.string_of_uint d).
Proof.
  induction d as [|d IH|d IH|d IH|d IH|d IH|d IH|d IH|d IH|d IH|d IH];
    intros Hd; [done|..];
    (destruct d; [reflexivity|..]);
    cbn [NilEmpty.string_of_uint Py.digits Py.isdigit] in *;
    rewrite IH; done.
Qed.

Lemma rstrip_string_of_uint d :
  Py.rstrip (NilEmpty.string_of_uint d) = NilEmpty.string_of_uint d.
Proof.
  induction d; [done|..];
    cbn [NilEmpty.string_of_uint Py.rstrip]; rewrite IHd;
    destruct (NilEmpty.string_of_uint d); reflexivity.
Qed.

Lemma unsigned_string_of_uint d :
  d ≠ Decimal.Nil ->
  Py.unsigned (NilEmpty.string_of_uint d) = Some (Z.of_uint d).
Proof.
  intros Hd. unfold Py.unsigned.
  rewrite digits_string_of_uint by done. cbn. by rewrite NilEmpty.usu.
Qed.

Lemma int_string_of_uint d :
  d ≠ Decimal.Nil ->
  Py.int (NilEmpty.string_of_uint d) = Ok (Z.of_uint d).
Proof.
  intros Hd. unfold Py.int.
  assert (Py.lstrip (NilEmpty.string_of_uint d) = NilEmpty.string_of_uint d) as ->
    by (destruct d; done).
  rewrite rstrip_string_of_uint.
  pose proof (unsigned_string_of_uint d Hd) as Hu.
  destruct d; try done; cbn [NilEmpty.string_of_uint] in *; by rewrite Hu.
Qed.

Lemma int_str n : Py.int (Py.str n) = Ok n.
Proof.
  destruct n as [|p|p]; [reflexivity|..]; unfold Py.str; cbn [Z.to_int NilZero.string_of_int].
  - pose proof (Unsigned.to_uint_nonnil p) as Hp.
    assert (NilZero.string_of_uint (Pos.to_uint p) = NilEmpty.string_of_uint (Pos.to_uint p)) as ->
      by (destruct (Pos.to_uint p); done).
    rewrite int_string_of_uint by done.
    f_equal. exact (DecimalZ.of_to (Z.pos p)).
  - pose proof (Unsigned.to_uint_nonnil p) as Hp.
    assert (NilZero.string_of_uint (Pos.to_uint p) = NilEmpty.string_of_uint (Pos.to_uint p)) as ->
      by (destruct (Pos.to_uint p); done).
    unfold Py.int. cbn [Py.lstrip Py.isspace].
    cbn [Py.rstrip]. rewrite rstrip_string_of_uint.
    assert (exists c r, NilEmpty.string_of_uint (Pos.to_uint p) = String c r) as (c & r & Hs)
      by (destruct (Pos.to_uint p); [done|eauto..]).
    rewrite Hs. rewrite <- Hs.
    rewrite unsigned_string_of_uint by done. cbn.
    f_equal. exact (DecimalZ.of_to (Z.neg p)).
Qed.
(** ** The cart *)

Lemma increment_None restaurant food cart :
  increment restaurant food cart = None <->
  (restaurant, food) ∉ (line_key <$> cart).
Proof.
  induction cart as [|item rest IH]; cbn [increment fmap list_fmap].
  - split; [intros _; apply not_elem_of_nil | done].
  - rewrite not_elem_of_cons, <- IH. unfold line_key at 1.
    destruct (increment restaurant food rest);
      repeat case_bool_decide; cbn [andb fmap option_fmap option_map];
      split; try done; try (intros [? ?]; congruence); intuition congruence.
Qed.

Lemma increment_Some restaurant food cart cart' :
  increment restaurant food cart = Some cart' ->
  exists before item after,
    cart = before ++ item :: after /\
    line_key item = (restaurant, food) /\
    ((restaurant, food) ∉ line_key <$> before) /\
    cart' = before ++ Item.with_quantity (Item.quantity item + 1) item :: after.
Proof.
  revert cart'. induction cart as [|item rest IH]; intros cart'; cbn [increment]; [done|].
  destruct (bool_decide (Item.food item = food)
            && bool_decide (Item.restaurant item = restaurant)) eqn:Hhit.
  - intros [= <-]. apply andb_prop in Hhit as [Hf Hr].
    apply bool_decide_eq_true in Hf. apply bool_decide_eq_true in Hr. subst.
    exists [], item, rest. repeat split; try done. apply not_elem_of_nil.
  - destruct (increment restaurant food rest) as [rest'|]; [|done].
    intros [= <-]. destruct (IH _ eq_refl) as (before & hit & after & -> & Hk & Hb & ->).
    exists (item :: before), hit, after. repeat split; try done.
    cbn [fmap list_fmap]. rewrite not_elem_of_cons. split; [|done].
    unfold line_key. intros [= Hr Hf].
    apply andb_false_iff in Hhit as [H|H]; apply bool_decide_eq_false in H; congruence.
Qed.

Lemma lines_for_absent k cart :
  k ∉ line_key <$> cart -> lines_for k cart = [].
Proof.
  intros Hk. unfold lines_for. induction cart as [|item rest IH]; [done|].
  cbn [fmap list_fmap] in Hk. apply not_elem_of_cons in Hk as [Hne Hk].
  rewrite filter_cons_False by congruence. auto.
Qed.

Lemma lines_for_present k cart :
  k ∈ line_key <$> cart -> lines_for k cart <> [].
Proof.
  intros (item & -> & Hin)%list_elem_of_fmap Hnil.
  assert (item ∈ lines_for (line_key item) cart) as Hitem
    by (apply list_elem_of_filter; done).
  rewrite Hnil in Hitem. by apply not_elem_of_nil in Hitem.
Qed.

Lemma calls_for_snoc k calls s :
  calls_for k (calls ++ [s]) =
  (calls_for k calls + (if decide (call_key s = k) then 1 else 0))%nat.
Proof.
  unfold calls_for. rewrite filter_app, length_app. f_equal.
  case_decide; [rewrite filter_cons_True | rewrite filter_cons_False]; done.
Qed.

Lemma add_selection_old cart s :
  call_key s ∈ line_key <$> cart ->
  exists before item after,
    cart = before ++ item :: after /\
    line_key item = call_key s /\
    (call_key s ∉ line_key <$> before) /\
    add_selection cart s =
      before ++ Item.with_quantity (Item.quantity item + 1) item :: after.
Proof.
  intros Hin. unfold add_selection, add_to_cart.
  destruct (increment _ _ cart) as [cart'|] eqn:Hinc.
  - apply increment_Some in Hinc as (b & i & a & ? & ? & ? & ?). by exists b, i, a.
  - apply increment_None in Hinc. done.
Qed.

Lemma add_selection_new cart s :
  call_key s ∉ line_key <$> cart ->
  add_selection cart s =
    cart ++ [Item.mk (Selection.restaurant s) (Selection.category s)
                     (Selection.food s) (Selection.price s) 1].
Proof.
  intros Hin. unfold add_selection, add_to_cart.
  apply increment_None in Hin. unfold call_key in Hin. by rewrite Hin.
Qed.

Lemma counted_step calls cart s :
  counted calls cart -> counted (calls ++ [s]) (add_selection cart s).
Proof.
  intros Hinv k. rewrite calls_for_snoc.
  destruct (decide (call_key s ∈ line_key <$> cart)) as [Hold|Hnew].
  - destruct (add_selection_old _ _ Hold) as (b & i & a & -> & Hi & Hb & ->).
    destruct (Hinv (call_key s)) as [Hzero Hpos].
    destruct (decide (calls_for (call_key s) calls = 0%nat)) as [Hz|Hnz].
    { apply Hzero in Hz. by apply lines_for_present in Hold. }
    destruct (Hpos Hnz) as (item & Hlines & Hq).
    unfold lines_for in Hlines. rewrite filter_app, filter_cons_True in Hlines by done.
    fold (lines_for (call_key s) b) in Hlines.
    rewrite (lines_for_absent _ _ Hb) in Hlines. cbn [Datatypes.app] in Hlines.
    injection Hlines as -> Ha.
    unfold lines_for. rewrite filter_app.
    case_decide as Hk; subst.
    + rewrite filter_cons_True by done.
      fold (lines_for (call_key s) b). rewrite (lines_for_absent _ _ Hb), Ha.
      split; [lia|]. intros _. eexists. split; [done|]. cbn. lia.
    + rewrite filter_cons_False by (change (line_key item <> k); congruence).
      destruct (Hinv k) as [Hzero' Hpos'].
      unfold lines_for in Hzero', Hpos'.
      rewrite filter_app, filter_cons_False in Hzero', Hpos' by congruence.
      rewrite Nat.add_0_r. done.
  - rewrite (add_selection_new _ _ Hnew).
    unfold lines_for. rewrite filter_app.
    destruct (Hinv k) as [Hzero Hpos].
    case_decide as Hk; subst.
    + rewrite filter_cons_True by done.
      fold (lines_for (call_key s) cart). rewrite (lines_for_absent _ _ Hnew).
      destruct (decide (calls_for (call_key s) calls = 0%nat)) as [Hz|Hnz].
      * rewrite Hz. split; [done|]. intros _. eexists. split; [done|]. done.
      * destruct (Hpos Hnz) as (item & Hlines & _).
        rewrite (lines_for_absent _ _ Hnew) in Hlines. done.
    + rewrite filter_cons_False by exact Hk.
      rewrite app_nil_r, Nat.add_0_r. done.
Qed.

Lemma counted_add_all calls : counted calls (add_all calls).
Proof.
  unfold add_all. induction calls as [|s calls IH] using rev_ind.
  - intros k. split; [done|]. intros []. done.
  - rewrite foldl_snoc. by apply counted_step.
Qed.

(** C7: after any sequence of clicks on "Add to Cart" from the empty
    cart, a pair that was never added has no line, a pair that was added
    has exactly one line and its quantity is the number of clicks made for
    the pair.  A click for a pair already in a cart adds one to the
    quantity of its line and leaves every other line and the length
    alone; a click for a new pair appends a line of quantity 1.
    [add_to_cart] is a total function: no click fails. *)
Theorem add_to_cart_counts (calls : list Selection.t) :
  (forall k,
     (calls_for k calls = 0%nat -> lines_for k (add_all calls) = []) /\
     (calls_for k calls <> 0%nat ->
      exists item,
        lines_for k (add_all calls) = [item] /\
        Item.quantity item = Z.of_nat (calls_for k calls))) /\
  (forall cart s,
     call_key s ∈ line_key <$> cart ->
     exists before item after,
       cart = before ++ item :: after /\
       line_key item = call_key s /\
       add_selection cart s =
         before ++ Item.with_quantity (Item.quantity item + 1) item :: after /\
       length (add_selection cart s) = length cart) /\
  (forall cart s,
     call_key s ∉ line_key <$> cart ->
     add_selection cart s =
       cart ++ [Item.mk (Selection.restaurant s) (Selection.category s)
                        (Selection.food s) (Selection.price s) 1]).
Proof.
  split; [exact (counted_add_all calls)|]. split.
  - intros cart s Hin.
    destruct (add_selection_old _ _ Hin) as (b & i & a & -> & Hi & _ & Heq).
    exists b, i, a. rewrite Heq, !length_app. done.
  - exact add_selection_new.
Qed.

(** ** Totals *)

Lemma fired_None {B} `{EqDecision B} (b : B) : fired None b = false.
Proof. unfold fired. by apply bool_decide_eq_false_2. Qed.

Lemma float_of_int_fits n :
  Py.float_of_int n <> Raise Py.OverflowError ->
  Py.float_of_int n = Ok (Py.to_float n).
Proof. unfold Py.float_of_int. by destruct (Py.spec_of_int n). Qed.



(** ** Checkout *)

Lemma str_inj n1 n2 : Py.str n1 = Py.str n2 -> n1 = n2.
Proof.
  intros Heq. pose proof (int_str n1) as H1. rewrite Heq, int_str in H1.
  congruence.
Qed.

Lemma order_id_inj m i j : order_id m i = order_id m j -> i = j.
Proof. unfold order_id. intros Heq%str_inj. lia. Qed.

Lemma elem_of_keys {V} (d : gmap string V) k : k ∈ keys d <-> is_Some (d !! k).
Proof.
  unfold keys. rewrite list_elem_of_fmap. split.
  - intros ([k' v] & -> & Hin). apply elem_of_map_to_list in Hin. by exists v.
  - intros [v Hv]. exists (k, v). split; [done|]. by apply elem_of_map_to_list.
Qed.

Lemma traverse_Ok {A B} (f : A -> Py.result B) xs :
  (forall x, x ∈ xs -> exists y, f x = Ok y) ->
  exists ys, Py.traverse f xs = Ok ys /\ Forall2 (fun x y => f x = Ok y) xs ys.
Proof.
  induction xs as [|x xs IH]; intros Hall.
  - exists []. split; [done|constructor].
  - destruct (Hall x) as [y Hy]; [left|].
    destruct IH as (ys & Hys & Hall2).
    { intros x' Hx'. apply Hall. by right. }
    exists (y :: ys). cbn [Py.traverse]. rewrite Hy, Hys. split; [done|].
    by constructor.
Qed.

Lemma foldl_max_bounds xs x :
  x <= foldl Z.max x xs /\
  (forall y, y ∈ xs -> y <= foldl Z.max x xs) /\
  (foldl Z.max x xs = x \/ foldl Z.max x xs ∈ xs).
Proof.
  revert x. induction xs as [|z xs IH]; intros x; cbn [foldl].
  - split; [lia|]. split; [|by left]. intros y Hy. by apply not_elem_of_nil in Hy.
  - destruct (IH (Z.max x z)) as (Hle & Hall & Hmem). split; [lia|]. split.
    + intros y [->|Hy]%elem_of_cons; [lia|auto].
    + destruct Hmem as [Heq|Hin].
      * destruct (Z.max_spec x z) as [[_ Hm]|[_ Hm]]; rewrite Hm in *.
        -- right. rewrite Heq. left.
        -- by left.
      * right. by right.
Qed.

Lemma int_cases s : (exists n, Py.int s = Ok n) \/ Py.int s = Raise Py.ValueError.
Proof. unfold Py.int. destruct (match Py.rstrip _ with EmptyString => _ | _ => _ end); eauto. Qed.

Lemma numeric_int os k :
  numeric os -> is_Some (os !! k) -> exists n, Py.int k = Ok n.
Proof.
  intros Hnum [o Ho]. specialize (Hnum k o Ho). cbn beta in Hnum.
  by destruct (int_cases k).
Qed.

Lemma last_order_id_highest os :
  numeric os -> exists m, last_order_id os = Ok m /\ highest os m.
Proof.
  intros Hnum. unfold last_order_id.
  destruct (traverse_Ok Py.int (keys os)) as (ids & -> & Hids).
  { intros k Hk. apply (numeric_int os); [done|]. by apply elem_of_keys. }
  cbn [Py.bind]. destruct ids as [|id ids].
  - apply Forall2_nil_inv_r in Hids.
    assert (os = ∅) as ->.
    { apply map_to_list_empty_iff. unfold keys in Hids.
      by apply fmap_nil_inv in Hids. }
    exists 0. split; [done|]. split; [|by left].
    intros k n [o Ho]. by rewrite lookup_empty in Ho.
  - exists (foldl Z.max id ids). split; [done|].
    destruct (foldl_max_bounds ids id) as (Hle & Hall & Hmem).
    assert (foldl Z.max id ids ∈ id :: ids) as Hin.
    { destruct Hmem as [->|?]; [left|by right]. }
    assert (forall n, n ∈ id :: ids -> n <= foldl Z.max id ids) as Hub.
    { intros n [->|Hn]%elem_of_cons; auto. }
    split.
    + intros k n Hk%elem_of_keys Hn.
      apply list_elem_of_lookup in Hk as [i Hi].
      destruct (Forall2_lookup_l _ _ _ _ _ Hids Hi) as (n' & Hn' & Hkn').
      apply Hub. apply list_elem_of_lookup. exists i. congruence.
    + right. apply list_elem_of_lookup in Hin as [i Hi].
      destruct (Forall2_lookup_r _ _ _ _ _ Hids Hi) as (k & Hk & Hkm).
      exists k. split; [|done]. apply elem_of_keys, list_elem_of_lookup. eauto.
Qed.

Lemma below_fresh os m i : below os m -> os !! order_id m i = None.
Proof.
  intros Hb. destruct (os !! order_id m i) as [o|] eqn:Ho; [|done].
  assert (m + 1 + Z.of_nat i <= m); [|lia].
  apply (Hb (order_id m i)); [by eexists|]. unfold order_id. apply int_str.
Qed.

Lemma place_lines customer user_phone dropoff payment tip cart : forall m os,
  below os m ->
  let os' := (foldl (place_line customer user_phone dropoff payment tip)
                    (m, os) cart).2 in
  size os' = (size os + length cart)%nat /\
  (forall i item, cart !! i = Some item ->
     os' !! order_id m i
     = Some (new_order customer user_phone item dropoff payment tip)) /\
  (forall k, (forall i, (i < length cart)%nat -> k <> order_id m i) ->
     os' !! k = os !! k).
Proof.
  induction cart as [|item rest IH]; intros m os Hb; cbn [foldl].
  - cbn. split; [lia|]. split; [intros i item; by rewrite lookup_nil | done].
  - change (place_line customer user_phone dropoff payment tip (m, os) item)
      with (m + 1, <[Py.str (m + 1) :=
                       new_order customer user_phone item dropoff payment tip]> os).
    set (o := new_order customer user_phone item dropoff payment tip).
    assert (os !! Py.str (m + 1) = None) as Hfresh.
    { pose proof (below_fresh os m 0 Hb) as H0. unfold order_id in H0.
      by rewrite Z.add_0_r in H0. }
    assert (below (<[Py.str (m + 1) := o]> os) (m + 1)) as Hb'.
    { intros k n [o' Ho'] Hn. destruct (decide (k = Py.str (m + 1))) as [->|Hne].
      - rewrite int_str in Hn. injection Hn as <-. lia.
      - rewrite lookup_insert_ne in Ho' by done.
        specialize (Hb k n (mk_is_Some _ _ Ho') Hn). lia. }
    destruct (IH (m + 1) _ Hb') as (Hsize & Hnew & Hold).
    assert (forall i, order_id (m + 1) i = order_id m (S i)) as Hshift.
    { intros i. unfold order_id. f_equal. lia. }
    split; [|split].
    + rewrite Hsize, map_size_insert_None by done. cbn [length]. lia.
    + intros [|i] item' Hi.
      * injection Hi as <-. rewrite Hold.
        -- unfold order_id. rewrite Z.add_0_r. apply lookup_insert_eq.
        -- intros i _. rewrite Hshift. intros Heq%order_id_inj. lia.
      * rewrite <- Hshift. by apply Hnew.
    + intros k Hk. rewrite Hold.
      * apply lookup_insert_ne. intros <-. apply (Hk 0%nat); [cbn; lia|].
        unfold order_id. f_equal. lia.
      * intros i Hi. rewrite Hshift. apply Hk. cbn. lia.
Qed.

Lemma checkout_placed a user dropoff payment tip :
  dropoff <> EmptyString ->
  users a !! username a = Some user ->
  numeric (orders a) ->
  exists m,
    highest (orders a) m /\
    let os' := (foldl (place_line (username a) (User.phone user)
                                  dropoff payment tip)
                      (m, orders a) (cart a)).2 in
    checkout_block a (Some (place_order dropoff payment tip))
    = Ok (Run (with_cart [] (with_step 1 (with_orders os' a)))
              [success "Order placed successfully!"]
              [(ORDERS_FILE, orders_data os')]
              true).
Proof.
  intros Hdrop Huser Hnum.
  destruct (last_order_id_highest _ Hnum) as (m & Hlast & Hhigh).
  exists m. split; [done|]. cbn zeta. unfold checkout_block.
  destruct dropoff as [|c dropoff]; [done|]. cbn [Py.truthy negb].
  unfold getitem. rewrite Huser. cbn [Py.bind]. by rewrite Hlast.
Qed.

(** C1: with a non-empty drop-off, a registered session user and a store
    whose identifiers all read as integers, checkout succeeds and leaves a
    store with exactly one more order per cart line: the old orders are
    untouched, the line of index [i] is stored under the identifier
    [m + 1 + i], where [m] is the highest identifier of the old store (0
    when it was empty), that identifier was free, the identifiers are
    pairwise distinct and each is strictly above every old identifier,
    and the new order copies the line and is pending with no driver and
    no rating. *)
Theorem checkout_new_orders a user dropoff payment tip :
  dropoff <> EmptyString ->
  users a !! username a = Some user ->
  numeric (orders a) ->
  exists m r,
    checkout_block a (Some (place_order dropoff payment tip)) = Ok r /\
    highest (orders a) m /\
    (orders a = ∅ -> m = 0) /\
    size (orders (state r)) = (size (orders a) + length (cart a))%nat /\
    (forall k o, orders a !! k = Some o -> orders (state r) !! k = Some o) /\
    (forall i item, cart a !! i = Some item ->
       orders a !! order_id m i = None /\
       exists o,
         orders (state r) !! order_id m i = Some o /\
         Order.restaurant o = Item.restaurant item /\
         Order.category o = Item.category item /\
         Order.food o = Item.food item /\
         Order.price o = Item.price item /\
         Order.quantity o = Item.quantity item /\
         Order.status o = pending /\
         Order.driver o = None /\
         Order.rating_food o = None /\
         Order.rating_speed o = None /\
         Order.rating_service o = None) /\
    (forall i, Py.int (order_id m i) = Ok (m + 1 + Z.of_nat i)) /\
    (forall i j, order_id m i = order_id m j -> i = j) /\
    (forall i k n, is_Some (orders a !! k) -> Py.int k = Ok n ->
       n < m + 1 + Z.of_nat i).
Proof.
  intros Hdrop Huser Hnum.
  destruct (checkout_placed a user dropoff payment tip Hdrop Huser Hnum)
    as (m & Hhigh & Hrun).
  cbn zeta in Hrun. destruct Hhigh as [Hbelow Hmax].
  destruct (place_lines (username a) (User.phone user) dropoff payment tip
              (cart a) m (orders a) Hbelow) as (Hsize & Hnew & Hold).
  eexists m, _. split; [exact Hrun|]. cbn [state orders with_cart with_step with_orders].
  split; [done|]. split.
  { intros Hempty. destruct Hmax as [[_ ->]|(k & [o Ho] & _)]; [done|].
    by rewrite Hempty, lookup_empty in Ho. }
  split; [done|]. split.
  { intros k o Ho. rewrite Hold; [done|]. intros i _ ->.
    by rewrite (below_fresh _ _ i Hbelow) in Ho. }
  split.
  { intros i item Hi. split; [by apply below_fresh|].
    eexists. split; [by apply Hnew|]. by repeat split. }
  split; [intros i; apply int_str|]. split; [apply order_id_inj|].
  intros i k n Hk Hn. specialize (Hbelow k n Hk Hn). lia.
Qed.

(** C10: under the same conditions every order that checkout adds (every
    identifier of the new store that the old one did not have) carries
    the session user, that user's phone, and the drop-off, payment and
    tip of the form, whatever the number of lines: the tip is written in
    full on each of them, and each cart line gets one such order. *)
Theorem checkout_shared_fields a user dropoff payment tip :
  dropoff <> EmptyString ->
  users a !! username a = Some user ->
  numeric (orders a) ->
  exists m r,
    checkout_block a (Some (place_order dropoff payment tip)) = Ok r /\
    (forall i, (i < length (cart a))%nat ->
       orders a !! order_id m i = None /\
       is_Some (orders (state r) !! order_id m i)) /\
    (forall k o,
       orders (state r) !! k = Some o -> orders a !! k = None ->
       Order.customer o = username a /\
       Order.phone o = User.phone user /\
       Order.dropoff o = dropoff /\
       Order.payment o = payment /\
       Order.tip o = tip).
Proof.
  intros Hdrop Huser Hnum.
  destruct (checkout_placed a user dropoff payment tip Hdrop Huser Hnum)
    as (m & Hhigh & Hrun).
  cbn zeta in Hrun. destruct Hhigh as [Hbelow _].
  destruct (place_lines (username a) (User.phone user) dropoff payment tip
              (cart a) m (orders a) Hbelow) as (_ & Hnew & Hold).
  eexists m, _. split; [exact Hrun|]. cbn [state orders with_cart with_step with_orders].
  split.
  { intros i Hi. split; [by apply below_fresh|].
    destruct (lookup_lt_is_Some_2 (cart a) i Hi) as [item Hitem].
    rewrite (Hnew i item Hitem). by eexists. }
  intros k o Ho Hfree.
  destruct (decide (k ∈ order_id m <$> seq 0 (length (cart a))))
    as [(i & -> & Hi%elem_of_seq)%list_elem_of_fmap|Hnone].
  - destruct (lookup_lt_is_Some_2 (cart a) i) as [item Hitem]; [lia|].
    rewrite (Hnew i item Hitem) in Ho. injection Ho as <-. done.
  - rewrite Hold in Ho; [congruence|]. intros i Hi ->. apply Hnone.
    apply list_elem_of_fmap. exists i. split; [done|]. apply elem_of_seq. lia.
Qed.

(** ** The customer's list of orders *)

Lemma insert_rev_Permutation {V} (x : string * V) l : insert_rev x l ≡ₚ x :: l.
Proof.
  induction l as [|y l IH]; cbn [insert_rev]; [done|].
  destruct (String.leb y.1 x.1); [done|]. rewrite IH. apply Permutation_swap.
Qed.

Lemma sorted_rev_Permutation {V} (l : list (string * V)) : sorted_rev l ≡ₚ l.
Proof.
  unfold sorted_rev. induction l as [|x l IH]; cbn [foldr]; [done|].
  by rewrite insert_rev_Permutation, IH.
Qed.



Lemma elem_of_listed_orders os customer k o :
  (k, o) ∈ listed_orders os customer <->
  os !! k = Some o /\ Order.customer o = customer.
Proof.
  unfold listed_orders, user_orders.
  rewrite sorted_rev_Permutation, elem_of_map_to_list, map_lookup_filter_Some.
  done.
Qed.

Lemma NoDup_listed_orders os customer :
  NoDup (listed_orders os customer).*1.
Proof.
  unfold listed_orders. rewrite sorted_rev_Permutation.
  apply NoDup_fst_map_to_list.
Qed.


(** C2: after ten checkouts of one line each from the empty store, the
    customer's orders are listed with "9" first and the newest, "10",
    between "2" and "1": the order of the identifier strings, not of the
    numbers they spell, which come out as 9, 8, ..., 2, 10, 1. *)
Theorem listed_orders_by_string :
  (listed_orders (orders Sample.after_ten) "alice").*1
  = ["9"; "8"; "7"; "6"; "5"; "4"; "3"; "2"; "10"; "1"] /\
  Py.traverse Py.int (listed_orders (orders Sample.after_ten) "alice").*1
  = Ok [9; 8; 7; 6; 5; 4; 3; 2; 10; 1].
Proof. split; vm_compute; reflexivity. Qed.

(** ** The driver page *)

Lemma alter_lookup_insert {V} (f : V -> V) (m : gmap string V) k v :
  m !! k = Some v -> alter f k m = <[k := f v]> m.
Proof.
  intros Hk. apply map_eq. intros k'.
  destruct (decide (k = k')) as [<-|Hne].
  - by rewrite lookup_alter_eq, lookup_insert_eq, Hk.
  - by rewrite lookup_alter_ne, lookup_insert_ne.
Qed.

Lemma deliver_rows_claim a oid rows :
  deliver_rows a (Some (claim oid)) rows = None.
Proof.
  induction rows as [|[oid' o] rows IH]; [done|]. cbn [deliver_rows].
  unfold fired. by rewrite bool_decide_eq_false_2.
Qed.

Lemma claim_rows_hit a oid rows :
  oid ∈ rows.*1 ->
  claim_rows a (Some (claim oid)) rows
  = Some (Run (with_orders
                 (alter (fun o => Order.with_status claimed
                                    (Order.with_driver (Some (username a)) o))
                        oid (orders a)) a)
              [success ("Order " +:+ oid +:+
                 " claimed! It has been moved to 'Your Claimed Orders'.")]
              [(ORDERS_FILE,
                orders_data
                  (alter (fun o => Order.with_status claimed
                                     (Order.with_driver (Some (username a)) o))
                         oid (orders a)))]
              true).
Proof.
  induction rows as [|[oid' o] rows IH]; cbn [fmap list_fmap fst].
  - intros H. by apply not_elem_of_nil in H.
  - intros Hin. cbn [claim_rows]. unfold fired.
    destruct (decide (oid' = oid)) as [->|Hne].
    + by rewrite bool_decide_eq_true_2.
    + rewrite bool_decide_eq_false_2 by congruence.
      apply IH. apply elem_of_cons in Hin as [?|?]; [congruence|done].
Qed.

Lemma claim_rows_miss a oid rows :
  oid ∉ rows.*1 -> claim_rows a (Some (claim oid)) rows = None.
Proof.
  induction rows as [|[oid' o] rows IH]; [done|]. cbn [fmap list_fmap fst].
  intros [Hne Hrest]%not_elem_of_cons. cbn [claim_rows]. unfold fired.
  rewrite bool_decide_eq_false_2 by congruence. auto.
Qed.

Lemma elem_of_pending_keys os oid :
  oid ∈ (map_to_list (pending_orders os)).*1 <->
  exists o, os !! oid = Some o /\ Order.status o = pending.
Proof.
  unfold pending_orders. rewrite list_elem_of_fmap. split.
  - intros ([k o] & -> & Hin). apply elem_of_map_to_list in Hin.
    apply map_lookup_filter_Some in Hin. by exists o.
  - intros (o & Ho & Hs). exists (oid, o). split; [done|].
    apply elem_of_map_to_list, map_lookup_filter_Some. done.
Qed.

Lemma claim_pending a oid o :
  orders a !! oid = Some o ->
  Order.status o = pending ->
  driver_page a (Some (claim oid))
  = let os := <[oid := Order.with_status claimed
                         (Order.with_driver (Some (username a)) o)]> (orders a) in
    Run (with_orders os a)
        [success ("Order " +:+ oid +:+
           " claimed! It has been moved to 'Your Claimed Orders'.")]
        [(ORDERS_FILE, orders_data os)]
        true.
Proof.
  intros Ho Hs. unfold driver_page. rewrite deliver_rows_claim.
  rewrite claim_rows_hit by (apply elem_of_pending_keys; eauto).
  by rewrite (alter_lookup_insert _ _ _ _ Ho).
Qed.

Lemma claim_not_pending a oid :
  (forall o, orders a !! oid = Some o -> Order.status o <> pending) ->
  driver_page a (Some (claim oid)) = idle a.
Proof.
  intros Hno. unfold driver_page. rewrite deliver_rows_claim.
  rewrite claim_rows_miss; [done|].
  intros (o & Ho & Hs)%elem_of_pending_keys. by apply (Hno o).
Qed.

(** C3, as the code has it: a click on the claim button of a pending order
    writes the driver and the status "claimed" on that order, saves the
    store and confirms; a claim of an order that is not pending (or not
    in the store) finds no button: the run changes nothing, saves nothing
    and shows no banner, in particular no error.  So a second claim of
    the same order, by any driver, is ignored. *)
Theorem claim_order a oid o :
  orders a !! oid = Some o ->
  (Order.status o = pending ->
     let os := <[oid := Order.with_status claimed
                          (Order.with_driver (Some (username a)) o)]>
                 (orders a) in
     driver_page a (Some (claim oid))
     = Run (with_orders os a)
           [success ("Order " +:+ oid +:+
              " claimed! It has been moved to 'Your Claimed Orders'.")]
           [(ORDERS_FILE, orders_data os)]
           true /\
     forall driver,
       let a' := with_username driver (with_orders os a) in
       driver_page a' (Some (claim oid)) = idle a') /\
  (Order.status o <> pending ->
     driver_page a (Some (claim oid)) = idle a /\
     ~ reports_error (driver_page a (Some (claim oid)))).
Proof.
  intros Ho. split.
  - intros Hs. cbn zeta. split; [by apply claim_pending|].
    intros driver. apply claim_not_pending. intros o'.
    cbn [orders with_username with_orders]. rewrite lookup_insert_eq.
    by intros [= <-].
  - intros Hs.
    assert (driver_page a (Some (claim oid)) = idle a) as Hidle.
    { apply claim_not_pending. intros o'. rewrite Ho. by intros [= <-]. }
    split; [done|]. rewrite Hidle. intros [msg Hmsg].
    by apply not_elem_of_nil in Hmsg.
Qed.

(** C3, counterexample to the claim as stated: Bob has claimed order "1";
    a second claim of it, by Alice's other driver or by Bob, changes
    nothing and reports no error. *)
Lemma claim_twice_no_error :
  (exists o, orders Sample.claimed_by_bob !! "1" = Some o /\
             Order.status o = claimed /\ Order.driver o = Some "bob") /\
  driver_page Sample.claimed_by_bob (Some (claim "1"))
  = idle Sample.claimed_by_bob /\
  ~ reports_error (driver_page Sample.claimed_by_bob (Some (claim "1"))).
Proof.
  split; [eexists; split; [vm_compute; reflexivity|done]|].
  assert (driver_page Sample.claimed_by_bob (Some (claim "1"))
          = idle Sample.claimed_by_bob) as Hidle by (vm_compute; reflexivity).
  split; [done|]. rewrite Hidle. intros [msg Hmsg].
  by apply not_elem_of_nil in Hmsg.
Qed.

(** Bob's claim of Alice's pending order "1" leaves it claimed. *)
Lemma claim_order_witness :
  exists o,
    orders (with_username "bob" (Sample.order_once Sample.start)) !! "1" = Some o /\
    Order.status o = pending /\
    Order.status
      <$> orders (state (driver_page
                           (with_username "bob" (Sample.order_once Sample.start))
                           (Some (claim "1")))) !! "1"
    = Some claimed.
Proof.
  eexists. split; [vm_compute; reflexivity|]. split; [reflexivity|].
  set (a := with_username "bob" (Sample.order_once Sample.start)).
  destruct (claim_order a "1" _ ltac:(vm_compute; reflexivity)) as [Hp _].
  destruct (Hp eq_refl) as [-> _]. cbn zeta.
  cbn [state orders with_orders]. by rewrite lookup_insert_eq.
Defined.

(** ** Rating an order *)

Lemma rating_forms_miss a oid f s v listed :
  oid ∉ listed.*1 ->
  rating_forms a (Some (submit_rating oid f s v)) listed = idle a.
Proof.
  induction listed as [|[oid' o'] rest IH]; [done|]. cbn [fmap list_fmap fst].
  intros [Hne Hrest]%not_elem_of_cons. cbn [rating_forms].
  rewrite (bool_decide_eq_false_2 (oid = oid')) by done.
  rewrite IH by done. by destruct (_ && _).
Qed.

Lemma rating_forms_hit a oid o f s v listed :
  NoDup listed.*1 ->
  (oid, o) ∈ listed ->
  rating_forms a (Some (submit_rating oid f s v)) listed
  = if bool_decide (Order.status o = completed)
       && bool_decide (Order.rating_food o = None)
    then submit a oid o f s v
    else idle a.
Proof.
  induction listed as [|[oid' o'] rest IH]; cbn [fmap list_fmap fst].
  - intros _ H. by apply not_elem_of_nil in H.
  - intros [Hfresh Hnodup]%NoDup_cons Hin. cbn [rating_forms].
    apply elem_of_cons in Hin as [[= <- <-]|Hin].
    + rewrite (bool_decide_eq_true_2 (oid = oid)) by done.
      destruct (_ && _); [done|]. by apply rating_forms_miss.
    + assert (oid <> oid') as Hne.
      { intros <-. apply Hfresh. apply list_elem_of_fmap. by exists (oid, o). }
      rewrite (bool_decide_eq_false_2 (oid = oid')) by done.
      rewrite IH by done. by destruct (bool_decide (Order.status o' = _) && _).
Qed.

Lemma rating_accepted a oid o f s v :
  orders a !! oid = Some o ->
  Order.customer o = username a ->
  Order.status o = completed ->
  Order.rating_food o = None ->
  orders_block a (Some (submit_rating oid f s v)) = submit a oid o f s v.
Proof.
  intros Ho Hc Hs Hr. unfold orders_block.
  rewrite (rating_forms_hit a oid o).
  - by rewrite !bool_decide_eq_true_2.
  - apply NoDup_listed_orders.
  - by apply elem_of_listed_orders.
Qed.

Lemma rating_refused a oid f s v :
  (forall o, orders a !! oid = Some o ->
             Order.customer o = username a ->
             ~ (Order.status o = completed /\ Order.rating_food o = None)) ->
  orders_block a (Some (submit_rating oid f s v)) = idle a.
Proof.
  intros Hno. unfold orders_block.
  destruct (decide (oid ∈ (listed_orders (orders a) (username a)).*1))
    as [([k o] & -> & Hin)%list_elem_of_fmap|Hout].
  - rewrite (rating_forms_hit a k o) by (done || apply NoDup_listed_orders).
    apply elem_of_listed_orders in Hin as [Ho Hc]. cbn [fst] in *.
    specialize (Hno o Ho Hc).
    destruct (decide (Order.status o = completed));
      destruct (decide (Order.rating_food o = None));
      rewrite ?bool_decide_eq_true_2, ?bool_decide_eq_false_2 by done;
      cbn [andb]; try done. by destruct Hno.
  - by apply rating_forms_miss.
Qed.

Lemma rate_restaurant_insert restaurant rating_food rs :
  rate_restaurant restaurant rating_food rs
  = let old := default (RestaurantRating.mk 0 0) (rs !! restaurant) in
    <[restaurant := RestaurantRating.mk
                      (RestaurantRating.rating_sum old + rating_food)
                      (RestaurantRating.rating_count old + 1)]> rs.
Proof.
  unfold rate_restaurant, setdefault. cbn zeta.
  destruct (rs !! restaurant) as [old|] eqn:Hold.
  - by rewrite (alter_lookup_insert _ _ _ _ Hold).
  - rewrite (alter_lookup_insert _ _ _ (RestaurantRating.mk 0 0))
      by apply lookup_insert_eq.
    by rewrite insert_insert_eq.
Qed.

Lemma rate_driver_insert driver rating_food rating_speed rating_service ds :
  rate_driver driver rating_food rating_speed rating_service ds
  = let old := default (DriverRating.mk 0 0 0 0) (ds !! driver) in
    <[driver := DriverRating.mk
                  (DriverRating.rating_sum old + rating_food)
                  (DriverRating.rating_count old + 1)
                  (DriverRating.speed_sum old + rating_speed)
                  (DriverRating.service_sum old + rating_service)]> ds.
Proof.
  unfold rate_driver, setdefault. cbn zeta.
  destruct (ds !! driver) as [old|] eqn:Hold.
  - by rewrite (alter_lookup_insert _ _ _ _ Hold).
  - rewrite (alter_lookup_insert _ _ _ (DriverRating.mk 0 0 0 0))
      by apply lookup_insert_eq.
    by rewrite insert_insert_eq.
Qed.

(** C5: submitting the rating form of a completed order of the session
    user whose [rating_food] is still [None] writes the three values on
    that order and on no other: the stored order has [rating_food],
    [rating_speed] and [rating_service] equal to the three values and
    every other field as before.  It adds the food value, and only it, to
    the restaurant's sum and one to its count; and, when the order has a
    driver (a non-empty name), adds the three values to the driver's
    three sums and one to the driver's count.  An aggregate that did not
    exist starts from zeros.  This holds for any three values, so for
    the values 1 to 5 that the sliders offer. *)
Theorem submit_rating_effects a oid o rating_food rating_speed rating_service :
  orders a !! oid = Some o ->
  Order.customer o = username a ->
  Order.status o = completed ->
  Order.rating_food o = None ->
  let r := orders_block a (Some (submit_rating oid rating_food rating_speed
                                               rating_service)) in
  let restaurants := Ratings.restaurants (ratings a) in
  let drivers := Ratings.drivers (ratings a) in
  let old_r := default (RestaurantRating.mk 0 0)
                       (restaurants !! Order.restaurant o) in
  orders (state r)
  = <[oid := Order.with_rating_service (Some rating_service)
               (Order.with_rating_speed (Some rating_speed)
                  (Order.with_rating_food (Some rating_food) o))]> (orders a) /\
  (exists o',
     orders (state r) !! oid = Some o' /\
     Order.rating_food o' = Some rating_food /\
     Order.rating_speed o' = Some rating_speed /\
     Order.rating_service o' = Some rating_service /\
     Order.customer o' = Order.customer o /\
     Order.phone o' = Order.phone o /\
     Order.restaurant o' = Order.restaurant o /\
     Order.category o' = Order.category o /\
     Order.food o' = Order.food o /\
     Order.price o' = Order.price o /\
     Order.quantity o' = Order.quantity o /\
     Order.dropoff o' = Order.dropoff o /\
     Order.payment o' = Order.payment o /\
     Order.tip o' = Order.tip o /\
     Order.status o' = Order.status o /\
     Order.driver o' = Order.driver o) /\
  (forall k, k <> oid -> orders (state r) !! k = orders a !! k) /\
  Ratings.restaurants (ratings (state r))
  = <[Order.restaurant o :=
        RestaurantRating.mk (RestaurantRating.rating_sum old_r + rating_food)
                            (RestaurantRating.rating_count old_r + 1)]>
      restaurants /\
  (forall d, Order.driver o = Some d -> d <> EmptyString ->
     let old_d := default (DriverRating.mk 0 0 0 0) (drivers !! d) in
     Ratings.drivers (ratings (state r))
     = <[d := DriverRating.mk (DriverRating.rating_sum old_d + rating_food)
                              (DriverRating.rating_count old_d + 1)
                              (DriverRating.speed_sum old_d + rating_speed)
                              (DriverRating.service_sum old_d + rating_service)]>
         drivers) /\
  (Order.driver o = None \/ Order.driver o = Some EmptyString ->
     Ratings.drivers (ratings (state r)) = drivers) /\
  notices r = [success "Thank you for your feedback!"] /\
  saved r = [(RATINGS_FILE, ratings_data (ratings (state r)));
             (ORDERS_FILE, orders_data (orders (state r)))].
Proof.
  intros Ho Hc Hs Hr. cbn zeta.
  rewrite (rating_accepted a oid o) by done. unfold submit.
  cbn [state orders ratings notices saved with_ratings with_orders
       Ratings.restaurants Ratings.drivers].
  split; [by rewrite (alter_lookup_insert _ _ _ _ Ho)|].
  split.
  { eexists. split; [by rewrite lookup_alter_eq, Ho|]. by repeat split. }
  split; [by intros k Hk; rewrite lookup_alter_ne|].
  split; [apply rate_restaurant_insert|].
  split; [|split; [|done]].
  - intros d -> Hd. destruct d; [done|]. cbn [Py.truthy].
    apply rate_driver_insert.
  - by intros [->| ->].
Qed.

Lemma rating_forms_None a listed : rating_forms a None listed = idle a.
Proof.
  induction listed as [|[oid o] rest IH]; [done|]. cbn [rating_forms].
  rewrite IH. by destruct (_ && _).
Qed.

Lemma orders_block_cases a ev :
  orders_block a ev = idle a \/
  exists oid o f s v,
    ev = Some (submit_rating oid f s v) /\
    orders a !! oid = Some o /\
    Order.customer o = username a /\
    Order.status o = completed /\
    Order.rating_food o = None /\
    orders_block a ev = submit a oid o f s v.
Proof.
  destruct ev as [[oid f s v]|]; [|left; apply rating_forms_None].
  destruct (orders a !! oid) as [o|] eqn:Ho.
  - destruct (decide (Order.customer o = username a /\
                      Order.status o = completed /\
                      Order.rating_food o = None)) as [(Hc & Hs & Hr)|Hno].
    + right. exists oid, o, f, s, v. repeat split; try done.
      by apply rating_accepted.
    + left. apply rating_refused. intros o' Ho' Hc [Hs Hr].
      rewrite Ho in Ho'. injection Ho' as <-. by apply Hno.
  - left. apply rating_refused. intros o' Ho'. by rewrite Ho in Ho'.
Qed.

Lemma deliver_rows_Some a click rows r :
  deliver_rows a click rows = Some r ->
  exists oid, orders (state r) = alter (Order.with_status completed) oid (orders a).
Proof.
  induction rows as [|[oid o] rest IH]; [done|]. cbn [deliver_rows].
  destruct (fired click (deliver oid)); [|done].
  intros [= <-]. by exists oid.
Qed.

Lemma claim_rows_Some a click rows r :
  claim_rows a click rows = Some r ->
  exists oid,
    orders (state r)
    = alter (fun o => Order.with_status claimed
                        (Order.with_driver (Some (username a)) o))
            oid (orders a).
Proof.
  induction rows as [|[oid o] rest IH]; [done|]. cbn [claim_rows].
  destruct (fired click (claim oid)); [|done].
  intros [= <-]. by exists oid.
Qed.

Lemma driver_page_rating_fields a click k :
  rating_fields <$> orders (state (driver_page a click)) !! k
  = rating_fields <$> orders a !! k.
Proof.
  unfold driver_page.
  destruct (deliver_rows _ _ _) as [r|] eqn:Hd.
  - apply deliver_rows_Some in Hd as [oid ->]. rewrite lookup_alter.
    case_decide; [subst|done]. by destruct (orders a !! k).
  - destruct (claim_rows _ _ _) as [r|] eqn:Hc; [|done].
    apply claim_rows_Some in Hc as [oid ->]. rewrite lookup_alter.
    case_decide; [subst|done]. by destruct (orders a !! k).
Qed.

Lemma idle_no_error a : ~ reports_error (idle a).
Proof. intros [msg Hmsg]. by apply not_elem_of_nil in Hmsg. Qed.

(** C4, as the code has it: once the rating form of an order has been
    submitted, the order holds the three values, and any later rating
    submission for it, in any session, finds no form: the run changes
    neither the order nor the aggregates, saves nothing and shows no
    banner, in particular no error.  In every run of the orders block
    the rating fields are written only by the form of an order that is
    completed and whose [rating_food] is [None]; the driver page never
    changes a rating field. *)
Theorem rating_write_once a oid o rating_food rating_speed rating_service :
  orders a !! oid = Some o ->
  Order.customer o = username a ->
  Order.status o = completed ->
  Order.rating_food o = None ->
  let a1 := state (orders_block a (Some (submit_rating oid rating_food
                                           rating_speed rating_service))) in
  (exists o1,
     orders a1 !! oid = Some o1 /\
     rating_fields o1
     = (Some rating_food, Some rating_speed, Some rating_service)) /\
  (forall u f s v,
     let a2 := with_username u a1 in
     orders_block a2 (Some (submit_rating oid f s v)) = idle a2 /\
     ~ reports_error (orders_block a2 (Some (submit_rating oid f s v)))) /\
  (forall b ev,
     orders_block b ev = idle b \/
     exists oid' o' f s v,
       ev = Some (submit_rating oid' f s v) /\
       orders b !! oid' = Some o' /\
       Order.status o' = completed /\
       Order.rating_food o' = None /\
       orders_block b ev = submit b oid' o' f s v) /\
  (forall b click k,
     rating_fields <$> orders (state (driver_page b click)) !! k
     = rating_fields <$> orders b !! k).
Proof.
  intros Ho Hc Hs Hr a1.
  assert (orders a1
          = <[oid := Order.with_rating_service (Some rating_service)
                       (Order.with_rating_speed (Some rating_speed)
                          (Order.with_rating_food (Some rating_food) o))]>
              (orders a)) as Horders.
  { subst a1. rewrite (rating_accepted a oid o) by done. unfold submit.
    cbn [state orders with_ratings with_orders].
    by rewrite (alter_lookup_insert _ _ _ _ Ho). }
  split.
  { eexists. split; [rewrite Horders; apply lookup_insert_eq|done]. }
  split.
  { intros u f s v a2.
    assert (orders_block a2 (Some (submit_rating oid f s v)) = idle a2)
      as Hidle.
    { apply rating_refused. intros o'. subst a2. cbn [orders with_username].
      rewrite Horders, lookup_insert_eq. intros [= <-] _ [_ Hfood]. done. }
    split; [exact Hidle|]. rewrite Hidle. apply idle_no_error. }
  split.
  { intros b ev. destruct (orders_block_cases b ev)
      as [?|(oid' & o' & f & s & v & ? & ? & ? & ? & ? & ?)]; [by left|].
    right. by exists oid', o', f, s, v. }
  apply driver_page_rating_fields.
Qed.

(** C4, counterexample to the claim as stated: Alice has rated order "1"
    with 5, 4, 3; a second submission with 1, 1, 1 is not answered by an
    error: the run is idle and the first values stay. *)
Lemma rate_twice_no_error :
  rating_fields <$> orders Sample.rated !! "1" = Some (Some 5, Some 4, Some 3) /\
  orders_block Sample.rated (Some (submit_rating "1" 1 1 1))
  = idle Sample.rated /\
  ~ reports_error (orders_block Sample.rated (Some (submit_rating "1" 1 1 1))).
Proof.
  split; [vm_compute; reflexivity|].
  assert (orders_block Sample.rated (Some (submit_rating "1" 1 1 1))
          = idle Sample.rated) as Hidle by (vm_compute; reflexivity).
  split; [done|]. rewrite Hidle. apply idle_no_error.
Qed.

(** ** Averages *)

Lemma truediv_nonzero a b : b <> 0 -> Py.truediv a b <> Raise Py.ZeroDivisionError.
Proof.
  intros Hb. unfold Py.truediv. rewrite bool_decide_eq_false_2 by done.
  by destruct (SFdiv _ _ _ _).
Qed.

Lemma bind_not_raise {A B} (m : Py.result A) (k : A -> Py.result B) e :
  m <> Raise e -> (forall x, k x <> Raise e) -> Py.bind m k <> Raise e.
Proof.
  destruct m as [x|e']; cbn [Py.bind]; [auto|].
  intros Hm _ [= ->]. by apply Hm.
Qed.

Lemma digits2_pos_size p : digits2_pos p = Pos.size p.
Proof. induction p as [p IH|p IH|]; cbn; by rewrite ?IH. Qed.

Lemma Zdigits2_nonneg m : 0 <= Zdigits2 m.
Proof. destruct m; cbn; lia. Qed.

Lemma Zdigits2_gt m : 0 <= m -> m < 2 ^ Zdigits2 m.
Proof.
  destruct m as [|p|p]; [done| |lia]. intros _. cbn [Zdigits2].
  rewrite digits2_pos_size. pose proof (Pos.size_gt p) as Hp.
  apply Pos2Z.pos_lt_pos in Hp. by rewrite Pos2Z.inj_pow in Hp.
Qed.

Lemma Zdigits2_le m k : 0 <= m < 2 ^ k -> 0 <= k -> Zdigits2 m <= k.
Proof.
  destruct m as [|p|p]; [done| |lia]. intros [_ Hm] Hk. cbn [Zdigits2].
  rewrite digits2_pos_size.
  destruct (Z.le_gt_cases (Z.pos (Pos.size p)) k) as [|Hgt]; [done|].
  pose proof (Pos.size_le p) as Hp.
  apply Pos2Z.pos_le_pos in Hp. rewrite Pos2Z.inj_pow in Hp.
  assert (2 ^ (k + 1) <= 2 ^ Z.pos (Pos.size p))
    by (apply Z.pow_le_mono_r; lia).
  rewrite Z.pow_add_r in * by lia. lia.
Qed.

Lemma shr_m_of_loc m l : shr_m (shr_record_of_loc m l) = m.
Proof. by destruct l as [|[]]. Qed.

Lemma shr_1_div2 mrs : 0 <= shr_m mrs -> shr_m (shr_1 mrs) = Z.div2 (shr_m mrs).
Proof. destruct mrs as [[|[p|p|]|p] r s]; cbn; done || lia. Qed.

Lemma iter_shr_1 n : forall mrs,
  0 <= shr_m mrs ->
  shr_m (SpecFloat.iter_pos shr_1 n mrs) = Z.shiftr (shr_m mrs) (Z.pos n).
Proof.
  assert (forall m, 0 <= m -> 0 <= Z.div2 m) as Hdiv2
    by (intros m Hm; by apply Z.div2_nonneg).
  induction n as [n IH|n IH|]; intros mrs Hm; cbn [SpecFloat.iter_pos].
  - assert (0 <= shr_m (shr_1 mrs)) as H1 by (rewrite shr_1_div2; auto).
    assert (0 <= shr_m (SpecFloat.iter_pos shr_1 n (shr_1 mrs))) as H2
      by (rewrite IH by done; by apply Z.shiftr_nonneg).
    rewrite IH, IH, shr_1_div2 by done.
    rewrite Z.div2_spec, !Z.shiftr_shiftr by lia. f_equal. lia.
  - assert (0 <= shr_m (SpecFloat.iter_pos shr_1 n mrs)) as H2
      by (rewrite IH by done; by apply Z.shiftr_nonneg).
    rewrite IH, IH by done. rewrite Z.shiftr_shiftr by lia. f_equal. lia.
  - rewrite shr_1_div2 by done. apply Z.div2_spec.
Qed.

Lemma shiftr_digits m n :
  0 <= m -> 0 < n -> Zdigits2 (Z.shiftr m n) + n <= Z.max (Zdigits2 m) n.
Proof.
  intros Hm Hn. pose proof (Zdigits2_gt m Hm) as Hlt.
  pose proof (Zdigits2_nonneg m) as Hd.
  rewrite Z.shiftr_div_pow2 by lia.
  destruct (Z.le_gt_cases n (Zdigits2 m)) as [Hle|Hgt].
  - assert (Zdigits2 (m / 2 ^ n) <= Zdigits2 m - n); [|lia].
    apply Zdigits2_le; [|lia]. split; [apply Z.div_pos; lia|].
    apply Z.div_lt_upper_bound; [lia|].
    rewrite <- Z.pow_add_r by lia. by replace (n + (Zdigits2 m - n)) with (Zdigits2 m) by lia.
  - assert (m / 2 ^ n = 0) as ->; [|cbn; lia].
    apply Z.div_small. split; [done|].
    assert (2 ^ Zdigits2 m <= 2 ^ n) by (apply Z.pow_le_mono_r; lia). lia.
Qed.

(** What [shr_fexp] leaves of a mantissa that is not negative: the new
    exponent, and a bound on the weight of the new mantissa. *)
Lemma shr_fexp_bounds m e l :
  0 <= m ->
  let '(mrs, e') := shr_fexp prec emax m e l in
  e' = Z.max e (fexp prec emax (Zdigits2 m + e)) /\
  0 <= shr_m mrs /\
  Zdigits2 (shr_m mrs) + e' <= Z.max (Zdigits2 m + e) e'.
Proof.
  intros Hm. unfold shr_fexp, shr.
  destruct (fexp prec emax (Zdigits2 m + e) - e) as [|n|n] eqn:Hn.
  - rewrite shr_m_of_loc. lia.
  - rewrite iter_shr_1 by by rewrite shr_m_of_loc.
    rewrite shr_m_of_loc. split; [lia|]. split; [by apply Z.shiftr_nonneg|].
    pose proof (shiftr_digits m (Z.pos n) Hm ltac:(lia)). lia.
  - rewrite shr_m_of_loc. lia.
Qed.

Lemma round_nearest_even_bounds m l :
  m <= round_nearest_even m l <= m + 1.
Proof.
  destruct l as [|[]]; cbn [round_nearest_even]; try lia.
  destruct (Z.even m); lia.
Qed.

Lemma fexp_mono x y : x <= y -> fexp prec emax x <= fexp prec emax y.
Proof. unfold fexp. lia. Qed.

Lemma binary_round_aux_finite sx mx ex lx s :
  0 <= mx -> Zdigits2 mx + ex <= 1023 -> ex <= 970 ->
  binary_round_aux prec emax sx mx ex lx <> S754_infinity s.
Proof.
  intros Hm Hd He. unfold binary_round_aux.
  pose proof (shr_fexp_bounds mx ex lx Hm) as H1.
  destruct (shr_fexp prec emax mx ex lx) as [mrs' e'].
  destruct H1 as (He' & Hm' & Hd').
  pose proof (round_nearest_even_bounds (shr_m mrs') (loc_of_shr_record mrs'))
    as Hr.
  set (mr := round_nearest_even (shr_m mrs') (loc_of_shr_record mrs')) in *.
  pose proof (shr_fexp_bounds mr e' loc_Exact ltac:(lia)) as H2.
  destruct (shr_fexp prec emax mr e' loc_Exact) as [mrs'' e''].
  destruct H2 as (He'' & _ & _).
  assert (fexp prec emax (Zdigits2 mx + ex) <= 970) as Hf1.
  { etransitivity; [apply (fexp_mono _ 1023); lia|]. by vm_compute. }
  assert (Zdigits2 mr <= Zdigits2 (shr_m mrs') + 1) as Hdr.
  { pose proof (Zdigits2_gt (shr_m mrs') Hm').
    pose proof (Zdigits2_nonneg (shr_m mrs')).
    apply Zdigits2_le; [|lia]. rewrite Z.pow_add_r by lia. lia. }
  assert (fexp prec emax (Zdigits2 mr + e') <= 971) as Hf2.
  { etransitivity; [apply (fexp_mono _ 1024); lia|]. by vm_compute. }
  destruct (shr_m mrs'') as [|m|m]; [done| |done].
  replace (emax - prec) with 971 by (by vm_compute).
  destruct (Z.leb_spec e'' 971); [done|lia].
Qed.

Lemma SFdiv_finite sx p sy q s :
  Z.pos p < 2 ^ 1023 ->
  SFdiv prec emax (S754_finite sx p 0) (S754_finite sy q 0) <> S754_infinity s.
Proof.
  intros Hp. cbn [SFdiv]. unfold SFdiv_core_binary.
  set (d := Zdigits2 (Z.pos p) + 0 - (Zdigits2 (Z.pos q) + 0)).
  set (e' := Z.min (fexp prec emax d) (0 - 0)).
  assert (e' <= 0) as He' by (unfold e'; lia).
  set (m' := match 0 - 0 - e' with
             | 0 => Z.pos p
             | Z.pos _ => Z.shiftl (Z.pos p) (0 - 0 - e')
             | Z.neg _ => 0
             end).
  assert (m' = Z.pos p * 2 ^ (- e')) as Hm'.
  { unfold m'. replace (0 - 0 - e') with (- e') by lia.
    destruct (- e') as [|n|n] eqn:Hn; [lia| |lia].
    by rewrite Z.shiftl_mul_pow2. }
  destruct (Z.div_eucl m' (Z.pos q)) as [mz r] eqn:Hdiv.
  assert (mz = m' / Z.pos q) as Hmz by (unfold Z.div; by rewrite Hdiv).
  assert (0 < 2 ^ (- e')) as Hpow by (apply Z.pow_pos_nonneg; lia).
  assert (0 <= mz <= m') as [Hmz0 Hmzm].
  { rewrite Hmz. split; [apply Z.div_pos; lia|].
    apply Z.div_le_upper_bound; [lia|]. nia. }
  assert (Zdigits2 (Z.pos p) <= 1023) as Hdp
    by (apply Zdigits2_le; lia).
  pose proof (Zdigits2_gt (Z.pos p) ltac:(lia)) as Hgt.
  pose proof (Zdigits2_nonneg (Z.pos p)) as Hnn.
  apply binary_round_aux_finite; [done| |lia].
  assert (Zdigits2 mz <= Zdigits2 (Z.pos p) + - e'); [|lia].
  apply Zdigits2_le; [|lia]. rewrite Z.pow_add_r by lia. nia.
Qed.

Lemma truediv_positive p q :
  Z.pos p < 2 ^ 1023 ->
  Py.truediv (Z.pos p) (Z.pos q)
  = Ok (SF2Prim (SFdiv prec emax (S754_finite false p 0)
                                 (S754_finite false q 0))).
Proof.
  intros Hp. unfold Py.truediv. rewrite bool_decide_eq_false_2 by done.
  cbn [Py.exact].
  pose proof (fun s => SFdiv_finite false p false q s Hp) as Hfin.
  destruct (SFdiv prec emax (S754_finite false p 0) (S754_finite false q 0))
    as [| s | |]; try done.
  by destruct (Hfin s).
Qed.

(** C9: the restaurant's average is written only when its count is
    positive, and is then the quotient [rating_sum / rating_count]: for a
    positive sum below 2^1023 an average is produced, and it is the
    binary64 quotient, rounded to nearest even, of the two integers.  The
    driver's three averages likewise, each sum over the one count.  With
    a count of 0 (or no aggregate at all) nothing is computed.  Neither
    line ever divides by zero. *)
Theorem averages_guarded (rs : Ratings.t) (restaurant driver : string) :
  (forall r, Ratings.restaurants rs !! restaurant = Some r ->
     (0 < RestaurantRating.rating_count r ->
        restaurant_average rs restaurant
        = (avg <- Py.truediv (RestaurantRating.rating_sum r)
                             (RestaurantRating.rating_count r) ;;
           Ok (Some avg))) /\
     (RestaurantRating.rating_count r <= 0 ->
        restaurant_average rs restaurant = Ok None)) /\
  (Ratings.restaurants rs !! restaurant = None ->
     restaurant_average rs restaurant = Ok None) /\
  restaurant_average rs restaurant <> Raise Py.ZeroDivisionError /\
  (forall d, Ratings.drivers rs !! driver = Some d ->
     (0 < DriverRating.rating_count d ->
        driver_average rs driver
        = (avg_food <- Py.truediv (DriverRating.rating_sum d)
                                  (DriverRating.rating_count d) ;;
           avg_speed <- Py.truediv (DriverRating.speed_sum d)
                                   (DriverRating.rating_count d) ;;
           avg_service <- Py.truediv (DriverRating.service_sum d)
                                     (DriverRating.rating_count d) ;;
           Ok (Some (avg_food, avg_speed, avg_service)))) /\
     (DriverRating.rating_count d <= 0 ->
        driver_average rs driver = Ok None)) /\
  (Ratings.drivers rs !! driver = None ->
     driver_average rs driver = Ok None) /\
  driver_average rs driver <> Raise Py.ZeroDivisionError /\
  (forall r sum count,
     Ratings.restaurants rs !! restaurant = Some r ->
     RestaurantRating.rating_sum r = Z.pos sum ->
     RestaurantRating.rating_count r = Z.pos count ->
     Z.pos sum < 2 ^ 1023 ->
     restaurant_average rs restaurant
     = Ok (Some (SF2Prim (SFdiv prec emax (S754_finite false sum 0)
                                          (S754_finite false count 0))))) /\
  (forall d food speed service count,
     Ratings.drivers rs !! driver = Some d ->
     DriverRating.rating_sum d = Z.pos food ->
     DriverRating.speed_sum d = Z.pos speed ->
     DriverRating.service_sum d = Z.pos service ->
     DriverRating.rating_count d = Z.pos count ->
     Z.pos food < 2 ^ 1023 -> Z.pos speed < 2 ^ 1023 ->
     Z.pos service < 2 ^ 1023 ->
     driver_average rs driver
     = Ok (Some (SF2Prim (SFdiv prec emax (S754_finite false food 0)
                                          (S754_finite false count 0)),
                 SF2Prim (SFdiv prec emax (S754_finite false speed 0)
                                          (S754_finite false count 0)),
                 SF2Prim (SFdiv prec emax (S754_finite false service 0)
                                          (S754_finite false count 0))))).
Proof.
  unfold restaurant_average, driver_average.
  split; [|split; [|split; [|split; [|split; [|split; [|split]]]]]].
  - intros r ->. split; intros Hc.
    + by rewrite bool_decide_eq_true_2.
    + rewrite bool_decide_eq_false_2; [done|lia].
  - by intros ->.
  - destruct (Ratings.restaurants rs !! restaurant) as [r|]; [|done].
    case_bool_decide as Hc; [|done].
    apply bind_not_raise; [apply truediv_nonzero; lia|done].
  - intros d ->. split; intros Hc.
    + by rewrite bool_decide_eq_true_2.
    + rewrite bool_decide_eq_false_2; [done|lia].
  - by intros ->.
  - destruct (Ratings.drivers rs !! driver) as [d|]; [|done].
    case_bool_decide as Hc; [|done].
    repeat (apply bind_not_raise; [apply truediv_nonzero; lia|intros ?]).
    done.
  - intros r sum count -> Hsum Hcount Hbound.
    rewrite bool_decide_eq_true_2 by lia.
    by rewrite Hsum, Hcount, truediv_positive.
  - intros d food speed service count -> Hf Hsp Hsv Hcount Hbf Hbs Hbv.
    rewrite bool_decide_eq_true_2 by lia.
    by rewrite Hf, Hsp, Hsv, Hcount, !truediv_positive.
Qed.

(** Three ratings that sum to 14, 13 and 9. *)
Lemma averages_guarded_witness :
  restaurant_average
    (Ratings.mk {[ "Pizza Place" := RestaurantRating.mk 14 3 ]} ∅)
    "Pizza Place"
  = Ok (Some 4.666666666666667%float) /\
  driver_average (Ratings.mk ∅ {[ "bob" := DriverRating.mk 14 3 13 9 ]}) "bob"
  = Ok (Some (4.666666666666667, 4.333333333333333, 3)%float) /\
  restaurant_average
    (Ratings.mk {[ "Pizza Place" := RestaurantRating.mk 0 0 ]} ∅)
    "Pizza Place"
  = Ok None.
Proof.
  assert (forall p : positive, (p < 15)%positive -> Z.pos p < 2 ^ 1023)
    as Hsmall.
  { intros p Hp. apply (Z.lt_trans _ 15); [lia|]. by vm_compute. }
  split; [|split].
  - destruct (averages_guarded
                (Ratings.mk {[ "Pizza Place" := RestaurantRating.mk 14 3 ]} ∅)
                "Pizza Place" "bob")
      as (_ & _ & _ & _ & _ & _ & Hrest & _).
    rewrite (Hrest (RestaurantRating.mk 14 3) 14%positive 3%positive);
      [vm_compute; reflexivity|vm_compute; reflexivity|reflexivity..|].
    apply Hsmall. lia.
  - destruct (averages_guarded
                (Ratings.mk ∅ {[ "bob" := DriverRating.mk 14 3 13 9 ]})
                "Pizza Place" "bob")
      as (_ & _ & _ & _ & _ & _ & _ & Hdrv).
    rewrite (Hdrv (DriverRating.mk 14 3 13 9)
                  14%positive 13%positive 9%positive 3%positive);
      [vm_compute; reflexivity|vm_compute; reflexivity|reflexivity..| | |];
      apply Hsmall; lia.
  - destruct (averages_guarded
                (Ratings.mk {[ "Pizza Place" := RestaurantRating.mk 0 0 ]} ∅)
                "Pizza Place" "bob") as (Hrest & _).
    apply (Hrest (RestaurantRating.mk 0 0)); [vm_compute; reflexivity|].
    cbn. lia.
Defined.

(** The scenario of the specification: one rating of 4 gives the average
    4.0, a second rating of 2 gives 3.0. *)
Example average_after_two_ratings :
  let r1 := Ratings.mk (rate_restaurant "Pizza Place" 4 ∅) ∅ in
  let r2 := Ratings.mk (rate_restaurant "Pizza Place" 2
                          (Ratings.restaurants r1)) ∅ in
  restaurant_average (Ratings.mk ∅ ∅) "Pizza Place" = Ok None /\
  restaurant_average r1 "Pizza Place" = Ok (Some 4%float) /\
  restaurant_average r2 "Pizza Place" = Ok (Some 3%float).
Proof. vm_compute. done. Qed.

(** ** Loading *)

Lemma load_data_absent loads disk file :
  disk !! file = None -> load_data loads disk file = Ok (Json.object []).
Proof. intros Hf. unfold load_data. by rewrite Hf. Qed.

Lemma load_data_unparsable loads disk file content s :
  disk !! file = Some content ->
  read content = Ok s ->
  loads s = Raise Py.JSONDecodeError ->
  load_data loads disk file = Ok (Json.object []).
Proof.
  intros Hf Hr Hl. unfold load_data. rewrite Hf, Hr. cbn [Py.bind].
  by rewrite Hl.
Qed.

Lemma load_data_undecodable loads disk file content :
  disk !! file = Some content ->
  utf8 content = false ->
  load_data loads disk file = Raise Py.UnicodeDecodeError.
Proof.
  intros Hf Hu. unfold load_data, read. by rewrite Hf, Hu.
Qed.

(** C8: an orders file that holds the two bytes FF FE (the mark that
    starts a UTF-16 file) is not valid UTF-8; reading it raises
    [UnicodeDecodeError] before the parser runs, the handler for
    [JSONDecodeError] does not catch it, and [load_data] raises to its
    caller instead of returning the empty dictionary. *)
Theorem load_data_raises_on_utf16_mark (loads : string -> Py.result Json.value) :
  load_data loads {[ ORDERS_FILE := [xff; xfe] ]} ORDERS_FILE
  = Raise Py.UnicodeDecodeError.
Proof. by apply (load_data_undecodable loads _ _ [xff; xfe]). Qed.

(** ** Instances on the sample states *)


(** The store at Alice's second checkout holds the one identifier "1". *)
Lemma sample_numeric : numeric (orders Sample.at_checkout).
Proof. apply (bool_decide_unpack _). vm_compute. exact I. Defined.

(** Alice's second checkout, of two lines, leaves three orders. *)
Lemma checkout_new_orders_witness :
  "Dorm 3" <> EmptyString /\
  users Sample.at_checkout !! username Sample.at_checkout = Some Sample.alice /\
  numeric (orders Sample.at_checkout) /\
  exists m r,
    checkout_block Sample.at_checkout (Some (place_order "Dorm 3" "Cash" 2))
    = Ok r /\
    size (orders (state r)) = 3%nat /\
    Py.int (order_id m 0) = Ok (m + 1).
Proof.
  assert ("Dorm 3" <> EmptyString) as Hdrop by discriminate.
  assert (users Sample.at_checkout !! username Sample.at_checkout
          = Some Sample.alice) as Huser by (vm_compute; reflexivity).
  split; [exact Hdrop|]. split; [exact Huser|]. split; [exact sample_numeric|].
  destruct (checkout_new_orders Sample.at_checkout Sample.alice
              "Dorm 3" "Cash" 2 Hdrop Huser sample_numeric)
    as (m & r & Hrun & _ & _ & Hsize & _ & _ & Hid & _).
  exists m, r. split; [exact Hrun|]. split.
  - rewrite Hsize. vm_compute. reflexivity.
  - rewrite Hid. f_equal. lia.
Defined.

(** Both orders of that checkout carry the tip of 2.0. *)
Lemma checkout_shared_fields_witness :
  "Dorm 3" <> EmptyString /\
  users Sample.at_checkout !! username Sample.at_checkout = Some Sample.alice /\
  numeric (orders Sample.at_checkout) /\
  exists r,
    checkout_block Sample.at_checkout (Some (place_order "Dorm 3" "Cash" 2))
    = Ok r /\
    forall k o,
      orders (state r) !! k = Some o ->
      orders Sample.at_checkout !! k = None ->
      Order.tip o = 2%float.
Proof.
  assert ("Dorm 3" <> EmptyString) as Hdrop by discriminate.
  assert (users Sample.at_checkout !! username Sample.at_checkout
          = Some Sample.alice) as Huser by (vm_compute; reflexivity).
  split; [exact Hdrop|]. split; [exact Huser|]. split; [exact sample_numeric|].
  destruct (checkout_shared_fields Sample.at_checkout Sample.alice
              "Dorm 3" "Cash" 2 Hdrop Huser sample_numeric)
    as (m & r & Hrun & _ & Hnew).
  exists r. split; [exact Hrun|]. intros k o Ho Hfree.
  by destruct (Hnew k o Ho Hfree) as (_ & _ & _ & _ & ?).
Defined.

Lemma sample_delivered :
  orders Sample.delivered !! "1" = Some Sample.delivered_order.
Proof. vm_compute. reflexivity. Defined.

(** Once Alice has rated order "1", no further rating of it is taken. *)
Lemma rating_write_once_witness :
  orders Sample.delivered !! "1" = Some Sample.delivered_order /\
  Order.customer Sample.delivered_order = username Sample.delivered /\
  Order.status Sample.delivered_order = completed /\
  Order.rating_food Sample.delivered_order = None /\
  forall f s v,
    orders_block Sample.rated (Some (submit_rating "1" f s v))
    = idle Sample.rated.
Proof.
  split; [exact sample_delivered|]. do 3 (split; [reflexivity|]).
  intros f s v.
  destruct (rating_write_once Sample.delivered "1" Sample.delivered_order
              5 4 3 sample_delivered eq_refl eq_refl eq_refl)
    as (_ & Hagain & _).
  destruct (Hagain "alice" f s v) as [Hidle _]. exact Hidle.
Defined.

(** Alice's rating 5, 4, 3 of order "1" is written on the order and
    creates both aggregates. *)
Lemma submit_rating_effects_witness :
  orders Sample.delivered !! "1" = Some Sample.delivered_order /\
  Order.customer Sample.delivered_order = username Sample.delivered /\
  Order.status Sample.delivered_order = completed /\
  Order.rating_food Sample.delivered_order = None /\
  (exists o',
     orders Sample.rated !! "1" = Some o' /\
     Order.rating_food o' = Some 5 /\
     Order.rating_speed o' = Some 4 /\
     Order.rating_service o' = Some 3 /\
     Order.status o' = completed /\
     Order.driver o' = Some "bob") /\
  Ratings.restaurants (ratings Sample.rated) !! "Pizza Place"
  = Some (RestaurantRating.mk 5 1) /\
  Ratings.drivers (ratings Sample.rated) !! "bob"
  = Some (DriverRating.mk 5 1 4 3).
Proof.
  split; [exact sample_delivered|]. do 3 (split; [reflexivity|]).
  destruct (submit_rating_effects Sample.delivered "1"
              Sample.delivered_order 5 4 3
              sample_delivered eq_refl eq_refl eq_refl)
    as (_ & (o' & Ho' & Hf & Hs & Hv & _ & _ & _ & _ & _ & _ & _ & _ & _ & _
             & Hst & Hd) & _ & Hrest & Hdrv & _).
  split; [|split].
  - exists o'. split; [exact Ho'|]. split; [exact Hf|]. split; [exact Hs|].
    split; [exact Hv|]. split; [exact Hst|exact Hd].
  - unfold Sample.rated. rewrite Hrest. apply lookup_insert_eq.
  - unfold Sample.rated. rewrite (Hdrv "bob" eq_refl) by discriminate.
    apply lookup_insert_eq.
Defined.

(** * The rest of the script: proofs *)

(** * Properties of the rest of the script *)

(** ** Phone numbers *)

Lemma only_digits_idemp s : only_digits (only_digits s) = only_digits s.
Proof.
  induction s as [|c r IH]; [done|]. cbn [only_digits].
  destruct (Py.isdigit c) eqn:Hc; [|done]. cbn [only_digits].
  by rewrite Hc, IH.
Qed.

Lemma only_digits_head s c r :
  only_digits s = String c r -> Py.isdigit c = true /\ only_digits r = r.
Proof.
  intros Hs. pose proof (only_digits_idemp s) as Hi. rewrite Hs in Hi.
  cbn [only_digits] in Hi. destruct (Py.isdigit c) eqn:Hc.
  - split; [done|]. congruence.
  - exfalso. apply (f_equal String.length) in Hi. cbn [String.length] in Hi.
    assert (forall t, (String.length (only_digits t) <= String.length t)%nat) as Hle.
    { induction t as [|c' t IH]; [done|]. cbn [only_digits].
      destruct (Py.isdigit c'); cbn [String.length]; lia. }
    specialize (Hle r). lia.
Qed.

Lemma substring_all s : String.substring 0 (String.length s) s = s.
Proof. induction s as [|c r IH]; [done|]. cbn. by rewrite IH. Qed.

Lemma format_phone_number_short phone :
  (String.length (only_digits phone) < 4)%nat ->
  format_phone_number phone = phone.
Proof. intros Hlen. unfold format_phone_number. by rewrite bool_decide_eq_true_2. Qed.

Lemma format_phone_number_long phone :
  (4 <= String.length (only_digits phone))%nat ->
  exists a b c rest,
    only_digits phone = String a (String b (String c rest)) /\
    rest <> EmptyString /\
    format_phone_number phone = String a (String b (String c (String "-" rest))).
Proof.
  intros Hlen. unfold format_phone_number.
  rewrite bool_decide_eq_false_2 by lia.
  destruct (only_digits phone) as [|a [|b [|c rest]]]; cbn in Hlen; try lia.
  exists a, b, c, rest. split; [done|]. split; [destruct rest; [cbn in *; lia|done]|].
  cbn [String.length String.substring Nat.sub String.append].
  destruct rest as [|d rest]; [cbn in Hlen; lia|].
  cbn [String.length]. rewrite Nat.sub_0_r.
  change (String.substring 0 (S (String.length rest)) (String d rest))
    with (String.substring 0 (String.length (String d rest)) (String d rest)).
  by rewrite substring_all.
Qed.

Lemma only_digits_format phone :
  (4 <= String.length (only_digits phone))%nat ->
  only_digits (format_phone_number phone) = only_digits phone.
Proof.
  intros Hlen.
  destruct (format_phone_number_long phone Hlen)
    as (a & b & c & rest & Hd & Hrest & ->).
  rewrite Hd.
  apply only_digits_head in Hd as [Ha Hd].
  apply only_digits_head in Hd as [Hb Hd].
  apply only_digits_head in Hd as [Hc Hd].
  cbn [only_digits]. rewrite Ha, Hb, Hc.
  change (Py.isdigit "-") with false. cbn iota. by rewrite Hd.
Qed.

(** X1: a phone with fewer than four digits is returned as it is; with
    four or more, the result is the first three digits, a hyphen, and
    the remaining digits, so it is one character longer than the digit
    string and its digits are those of the input, in order. *)
Theorem format_phone_number_digits (phone : string) :
  ascii_text phone ->
  ((String.length (only_digits phone) < 4)%nat ->
     format_phone_number phone = phone) /\
  ((4 <= String.length (only_digits phone))%nat ->
     format_phone_number phone
     = String.substring 0 3 (only_digits phone) +:+ "-"
       +:+ String.substring 3 (String.length (only_digits phone) - 3)
                            (only_digits phone) /\
     String.get 3 (format_phone_number phone) = Some "-"%char /\
     String.length (format_phone_number phone)
     = S (String.length (only_digits phone)) /\
     only_digits (format_phone_number phone) = only_digits phone).
Proof.
  intros _. split; [apply format_phone_number_short|]. intros Hlen.
  split.
  { unfold format_phone_number. by rewrite bool_decide_eq_false_2 by lia. }
  split.
  { by destruct (format_phone_number_long phone Hlen)
      as (a & b & c & rest & _ & _ & ->). }
  split.
  { destruct (format_phone_number_long phone Hlen)
      as (a & b & c & rest & Hd & _ & ->). by rewrite Hd. }
  by apply only_digits_format.
Qed.

(** X2: formatting is idempotent: a formatted phone is left as it is by a
    second formatting. *)
Theorem format_phone_number_idemp (phone : string) :
  ascii_text phone ->
  format_phone_number (format_phone_number phone) = format_phone_number phone.
Proof.
  intros _.
  destruct (decide (String.length (only_digits phone) < 4)%nat) as [Hshort|Hlong].
  - by rewrite (format_phone_number_short phone Hshort),
               (format_phone_number_short phone Hshort).
  - unfold format_phone_number at 1.
    rewrite only_digits_format by lia.
    rewrite bool_decide_eq_false_2 by lia.
    unfold format_phone_number. by rewrite bool_decide_eq_false_2 by lia.
Qed.

Lemma format_phone_number_digits_witness :
  ascii_text "012-345 6789" /\
  format_phone_number "012-345 6789" = "012-3456789" /\
  format_phone_number "12a" = "12a".
Proof.
  assert (ascii_text "012-345 6789") as Hascii by (cbn [ascii_text]; repeat split; apply Nat.ltb_lt; reflexivity).
  split; [exact Hascii|].
  destruct (format_phone_number_digits "012-345 6789" Hascii) as [_ Hl].
  destruct Hl as (Heq & _); [cbn; lia|]. split; [by rewrite Heq|].
  assert (ascii_text "12a") as Hascii' by (cbn [ascii_text]; repeat split; apply Nat.ltb_lt; reflexivity).
  destruct (format_phone_number_digits "12a" Hascii') as [Hs _].
  apply Hs. cbn. lia.
Defined.

Lemma format_phone_number_idemp_witness :
  ascii_text "0123456789" /\
  format_phone_number (format_phone_number "0123456789")
  = format_phone_number "0123456789".
Proof.
  assert (ascii_text "0123456789") as Hascii by (cbn [ascii_text]; repeat split; apply Nat.ltb_lt; reflexivity).
  split; [exact Hascii|]. exact (format_phone_number_idemp _ Hascii).
Defined.

(** ** Accounts *)

Lemma login_cases verify_password w username password role :
  match users (app_of w) !! username with
  | Some u =>
      match verify_password password (User.password u) with
      | Ok true =>
          if decide (User.role u = role) then
            login verify_password w username password role
            = Ok (SidebarRun
                    (World (with_username username (app_of w)) true role)
                    [success ("Logged in as " +:+ username +:+ " (" +:+ role
                              +:+ ")")]
                    None true)
          else
            login verify_password w username password role
            = Ok (refused w ("User '" +:+ username
                             +:+ "' is not registered as a " +:+ role +:+ "."))
      | Ok false =>
          login verify_password w username password role
          = Ok (refused w "Invalid username or password.")
      | Raise e => login verify_password w username password role = Raise e
      end
  | None =>
      login verify_password w username password role
      = Ok (refused w "Invalid username or password.")
  end.
Proof.
  unfold login. destruct (users (app_of w) !! username) as [u|]; [|done].
  destruct (verify_password password (User.password u)) as [[|]|e];
    cbn [Py.bind]; [|done..].
  case_decide.
  - by rewrite bool_decide_eq_true_2.
  - by rewrite bool_decide_eq_false_2.
Qed.

Lemma login_outcome verify_password w username password role r :
  logged_in w = false ->
  login verify_password w username password role = Ok r ->
  (logged_in (world_after r) = true <->
   exists u, users (app_of w) !! username = Some u /\
             verify_password password (User.password u) = Ok true /\
             User.role u = role) /\
  (logged_in (world_after r) = true ->
   world_after r = World (with_username username (app_of w)) true role /\
   reran r = true) /\
  (logged_in (world_after r) = false ->
   world_after r = w /\ exists msg, banners r = [error msg]) /\
  (users (app_of w) !! username = None \/
   (exists u, users (app_of w) !! username = Some u /\
              verify_password password (User.password u) = Ok false) ->
   r = refused w "Invalid username or password.") /\
  users_saved r = None.
Proof.
  intros Hout Hrun.
  pose proof (login_cases verify_password w username password role) as Hc.
  destruct (users (app_of w) !! username) as [u|] eqn:Hu;
    [destruct (verify_password password (User.password u)) as [[|]|e] eqn:Hv;
     [case_decide as Hrole|..]|];
    rewrite Hc in Hrun; try done; injection Hrun as <-;
    cbn [world_after logged_in reran banners users_saved refused];
    rewrite ?Hout;
    (split; [|split; [|split; [|split]]]); try done; try naive_solver.
  - intros [[=]|(u' & [= <-] & Hv')]. congruence.
  - intros [[=]|(u' & [= <-] & Hv')]. congruence.
  - split; [done|]. intros (u' & [= <-] & Hv' & _). congruence.
Qed.

Lemma login_fields verify_password w name password wanted r :
  login verify_password w name password wanted = Ok r ->
  (users (app_of (world_after r)) = users (app_of w) /\
   orders (app_of (world_after r)) = orders (app_of w) /\
   ratings (app_of (world_after r)) = ratings (app_of w) /\
   cart (app_of (world_after r)) = cart (app_of w) /\
   step (app_of (world_after r)) = step (app_of w)) /\
  (logged_in w = false -> logged_in (world_after r) = true ->
   username (app_of (world_after r)) = name /\
   role (world_after r) = wanted).
Proof.
  intros Hrun.
  pose proof (login_cases verify_password w name password wanted) as Hc.
  destruct (users (app_of w) !! name) as [u|];
    [destruct (verify_password password (User.password u)) as [[|]|e];
     [case_decide|..]|];
    rewrite Hc in Hrun; try done; injection Hrun as <-;
    cbn [world_after refused app_of with_username users orders ratings cart
         step username role logged_in];
    (split; [done|]); try done; congruence.
Qed.

(** X3: a logged-out session becomes logged in exactly when the user
    name is registered, the password verifies against the stored hash and
    the stored role is the requested one; it is then logged in under that
    name and role.  A refused login leaves the world as it was and shows
    an error; an unknown name and a wrong password get the same one.
    Login never writes the users, and changes neither the accounts, nor
    the orders, nor the ratings, nor the cart, nor the step. *)
Theorem login_sound verify_password w name password wanted r :
  logged_in w = false ->
  login verify_password w name password wanted = Ok r ->
  (logged_in (world_after r) = true ->
   username (app_of (world_after r)) = name /\
   role (world_after r) = wanted) /\
  (users (app_of (world_after r)) = users (app_of w) /\
   orders (app_of (world_after r)) = orders (app_of w) /\
   ratings (app_of (world_after r)) = ratings (app_of w) /\
   cart (app_of (world_after r)) = cart (app_of w) /\
   step (app_of (world_after r)) = step (app_of w)) /\
  (logged_in (world_after r) = true <->
   exists u, users (app_of w) !! name = Some u /\
             verify_password password (User.password u) = Ok true /\
             User.role u = wanted) /\
  (logged_in (world_after r) = true ->
   world_after r = World (with_username name (app_of w)) true wanted /\
   reran r = true) /\
  (logged_in (world_after r) = false ->
   world_after r = w /\ exists msg, banners r = [error msg]) /\
  (users (app_of w) !! name = None \/
   (exists u, users (app_of w) !! name = Some u /\
              verify_password password (User.password u) = Ok false) ->
   r = refused w "Invalid username or password.") /\
  users_saved r = None.
Proof.
  intros Hout Hrun.
  destruct (login_fields _ _ _ _ _ _ Hrun) as [Hsame Hnew].
  split; [by apply Hnew|]. split; [exact Hsame|].
  by apply login_outcome.
Qed.


Lemma toy_law salt password :
  salt ∈ Toy.salts ->
  Toy.verify_password password (Toy.hash_password salt password) = Ok true.
Proof.
  intros Hs. unfold Toy.verify_password. rewrite bool_decide_eq_true_2; [done|].
  apply Exists_exists. by exists salt.
Qed.

(** X5: when the library verifies a password against its own hash, a
    user who has just registered can log in with the same password and
    role: the session is then logged in under that name and role.  Under
    the other role the login is refused. *)
Theorem register_then_login verify_password hash_password
    w salt name password phone chosen :
  verify_password password (hash_password salt password) = Ok true ->
  name <> EmptyString -> password <> EmptyString ->
  phone <> EmptyString ->
  users (app_of w) !! name = None ->
  let w1 := world_after (register hash_password w salt name password
                                  phone (role_name chosen)) in
  (exists r,
     login verify_password w1 name password (role_name chosen) = Ok r /\
     logged_in (world_after r) = true /\
     username (app_of (world_after r)) = name /\
     role (world_after r) = role_name chosen /\
     reran r = true /\
     banners r = [success ("Logged in as " +:+ name +:+ " ("
                           +:+ role_name chosen +:+ ")")]) /\
  forall other, other <> chosen ->
    login verify_password w1 name password (role_name other)
    = Ok (refused w1 ("User '" +:+ name +:+ "' is not registered as a "
                      +:+ role_name other +:+ ".")).
Proof.
  intros Hlaw Hu Hp Hph Hfree w1.
  assert (users (app_of w1) !! name
          = Some (User.mk (hash_password salt password) phone (role_name chosen)))
    as Hstored.
  { subst w1. unfold register.
    destruct name, password, phone; try done. cbn [Py.truthy negb orb].
    rewrite Hfree. cbn [world_after app_of users with_app with_users].
    apply lookup_insert_eq. }
  split.
  - pose proof (login_cases verify_password w1 name password
                            (role_name chosen)) as Hc.
    rewrite Hstored in Hc. cbn [User.password User.role] in Hc.
    rewrite Hlaw in Hc. rewrite decide_True in Hc by done.
    eexists. split; [exact Hc|]. by cbn.
  - intros other Hother.
    pose proof (login_cases verify_password w1 name password
                            (role_name other)) as Hc.
    rewrite Hstored in Hc. cbn [User.password User.role] in Hc.
    rewrite Hlaw in Hc. rewrite decide_False in Hc; [done|].
    by destruct chosen, other.
Qed.

(** X6: the sidebar changes neither the orders, nor the ratings, nor
    the cart, nor the step: what a user left in the cart is still there
    after a logout and for whoever logs in next in the same session. *)
Theorem sidebar_keeps_cart verify_password hash_password w ev r :
  sidebar verify_password hash_password w ev = Ok r ->
  orders (app_of (world_after r)) = orders (app_of w) /\
  ratings (app_of (world_after r)) = ratings (app_of w) /\
  cart (app_of (world_after r)) = cart (app_of w) /\
  step (app_of (world_after r)) = step (app_of w).
Proof.
  unfold sidebar. destruct (logged_in w); cbn [negb].
  - destruct ev as [[| |]|]; intros [= <-]; done.
  - destruct ev as [[u p rl|salt u p ph rl|]|]; try (intros [= <-]; done).
    + intros Hrun.
      pose proof (login_cases verify_password w u p (role_name rl)) as Hc.
      destruct (users (app_of w) !! u) as [usr|];
        [destruct (verify_password p (User.password usr)) as [[|]|e];
         [case_decide|..]|];
        rewrite Hc in Hrun; try done; by injection Hrun as <-.
    + intros [= <-]. unfold register.
      destruct (_ || _); [done|].
      by destruct (users (app_of w) !! u).
Qed.

(** ** The cart buttons *)

Lemma fired_eq {B} `{EqDecision B} (click : option B) (b : B) :
  fired click b = true <-> click = Some b.
Proof. unfold fired. apply bool_decide_eq_true. Qed.

Lemma cart_rows_skip click cart idx before rest acc :
  (forall i, (i < length before)%nat ->
     click <> Some (minus (idx + i)) /\ click <> Some (plus (idx + i))
     /\ click <> Some (remove (idx + i))) ->
  Forall fits before ->
  cart_rows click cart idx (before ++ rest) acc
  = cart_rows click cart (idx + length before) rest
              (foldl PrimFloat.add acc (line_amount <$> before)).
Proof.
  intros Hquiet Hfit. revert idx acc Hquiet.
  induction Hfit as [|item before Hitem _ IH]; intros idx acc Hquiet.
  - cbn. by rewrite Nat.add_0_r.
  - cbn [Datatypes.app cart_rows length].
    destruct (Hquiet 0%nat) as (Hm & Hp & Hr); [cbn; lia|].
    rewrite Nat.add_0_r in Hm, Hp, Hr.
    unfold fired.
    rewrite (bool_decide_eq_false_2 _ Hm), (bool_decide_eq_false_2 _ Hp),
      (bool_decide_eq_false_2 _ Hr). cbn [andb].
    unfold Py.mul_float_int. rewrite (float_of_int_fits _ Hitem).
    cbn [Py.bind]. rewrite IH.
    + replace (S idx + length before)%nat with (idx + S (length before))%nat by lia.
      reflexivity.
    + intros i Hi. specialize (Hquiet (S i)).
      replace (idx + S i)%nat with (S idx + i)%nat in Hquiet by lia.
      apply Hquiet. cbn. lia.
Qed.

Lemma cart_rows_quiet click cart idx rows acc :
  (forall i item, rows !! i = Some item ->
     (click = Some (minus (idx + i)) -> Item.quantity item <= 1) /\
     click <> Some (plus (idx + i)) /\ click <> Some (remove (idx + i))) ->
  cart_rows click cart idx rows acc = cart_rows None cart idx rows acc.
Proof.
  revert idx acc. induction rows as [|item rows IH]; intros idx acc Hquiet; [done|].
  cbn [cart_rows]. rewrite !fired_None. cbn [andb].
  destruct (Hquiet 0%nat item eq_refl) as (Hm & Hp & Hr).
  rewrite Nat.add_0_r in Hm, Hp, Hr.
  assert (fired click (minus idx) && bool_decide (1 < Item.quantity item) = false)
    as ->.
  { destruct (fired click (minus idx)) eqn:Hf; [|done].
    apply fired_eq in Hf. cbn [andb]. apply bool_decide_eq_false_2.
    specialize (Hm Hf). lia. }
  unfold fired at 1 2.
  rewrite (bool_decide_eq_false_2 _ Hp), (bool_decide_eq_false_2 _ Hr).
  destruct (Py.mul_float_int _ _); cbn [Py.bind]; [|done].
  apply IH. intros i item' Hi. specialize (Hquiet (S i) item' Hi).
  by replace (idx + S i)%nat with (S idx + i)%nat in Hquiet by lia.
Qed.

Lemma cart_rows_changed click cart idx rows acc cart' :
  (forall i item, rows !! i = Some item -> cart !! (idx + i)%nat = Some item) ->
  cart_rows click cart idx rows acc = Ok (inl cart') ->
  exists j item,
    cart !! j = Some item /\
    ((click = Some (minus j) /\ 1 < Item.quantity item
      /\ cart' = decremented j cart) \/
     (click = Some (plus j) /\ cart' = incremented j cart) \/
     (click = Some (remove j) /\ cart' = delete j cart)).
Proof.
  revert idx acc. induction rows as [|item rows IH]; intros idx acc Hrows; [done|].
  cbn [cart_rows].
  assert (cart !! idx = Some item) as Hitem.
  { specialize (Hrows 0%nat item eq_refl). by rewrite Nat.add_0_r in Hrows. }
  destruct (fired click (minus idx) && bool_decide (1 < Item.quantity item))
    eqn:Hminus.
  { apply andb_prop in Hminus as [Hf%fired_eq Hq%bool_decide_eq_true].
    intros [= <-]. exists idx, item. split; [done|]. by left. }
  destruct (fired click (plus idx)) eqn:Hplus.
  { apply fired_eq in Hplus. intros [= <-]. exists idx, item.
    split; [done|]. right. by left. }
  destruct (fired click (remove idx)) eqn:Hremove.
  { apply fired_eq in Hremove. intros [= <-]. exists idx, item.
    split; [done|]. right. by right. }
  destruct (Py.mul_float_int _ _); cbn [Py.bind]; [|done].
  apply IH. intros i item' Hi. specialize (Hrows (S i) item' Hi).
  by replace (idx + S i)%nat with (S idx + i)%nat in Hrows by lia.
Qed.

Lemma cart_block_changed click cart cart' :
  cart_block click cart = Ok (changed cart') ->
  exists j item,
    cart !! j = Some item /\
    ((click = Some (minus j) /\ 1 < Item.quantity item
      /\ cart' = decremented j cart) \/
     (click = Some (plus j) /\ cart' = incremented j cart) \/
     (click = Some (remove j) /\ cart' = delete j cart)).
Proof.
  unfold cart_block.
  destruct (cart_rows click cart 0 cart 0) as [[c|subtotal]|e] eqn:Hrows;
    cbn [Py.bind]; [|by destruct (fired click proceed)|done].
  intros [= <-]. by apply (cart_rows_changed click cart 0%nat cart 0%float).
Qed.

Lemma cart_rows_at click cart j item acc0 :
  cart !! j = Some item ->
  Forall fits (take j cart) ->
  (click = Some (minus j) \/ click = Some (plus j) \/ click = Some (remove j)) ->
  cart_rows click cart 0 cart acc0
  = cart_rows click cart j (item :: drop (S j) cart)
              (foldl PrimFloat.add acc0 (line_amount <$> take j cart)).
Proof.
  intros Hj Hfit Hclick.
  rewrite <- (take_drop_middle cart j item Hj) at 2.
  rewrite cart_rows_skip; [|..|done].
  - rewrite length_take_le; [done|]. apply lookup_lt_Some in Hj. lia.
  - intros i Hi. rewrite length_take in Hi. cbn [Nat.add].
    destruct Hclick as [-> | [-> | ->]]; repeat split; try done; intros [= Heq]; lia.
Qed.

(** X7: what the three buttons of a cart row do, when the rows above it
    have quantities that convert to floats.  "+" adds one to the
    quantity of that row, "-" takes one off when the quantity is above 1,
    "Remove" deletes the row; each leaves every other row as it is, and
    the restaurant, category, food and price of its own row, and re-runs
    the script.  "-" on a row of quantity 1, and a click for a
    row that the cart does not have, do what no click does: the cart is
    unchanged and the totals are drawn. *)
Theorem cart_buttons (cart : list Item.t) (j : nat) :
  (forall item,
     cart !! j = Some item -> Forall fits (take j cart) ->
     cart_block (Some (plus j)) cart = Ok (changed (incremented j cart)) /\
     cart_block (Some (remove j)) cart = Ok (changed (delete j cart)) /\
     (1 < Item.quantity item ->
      cart_block (Some (minus j)) cart = Ok (changed (decremented j cart)))) /\
  (forall item,
     cart !! j = Some item -> Item.quantity item <= 1 ->
     cart_block (Some (minus j)) cart = cart_block None cart) /\
  (cart !! j = None ->
   cart_block (Some (minus j)) cart = cart_block None cart /\
   cart_block (Some (plus j)) cart = cart_block None cart /\
   cart_block (Some (remove j)) cart = cart_block None cart) /\
  (forall i, i <> j ->
     incremented j cart !! i = cart !! i /\
     decremented j cart !! i = cart !! i) /\
  length (incremented j cart) = length cart /\
  length (decremented j cart) = length cart /\
  (Item.quantity <$> incremented j cart !! j)
  = (fun q => q + 1) <$> (Item.quantity <$> cart !! j) /\
  (Item.quantity <$> decremented j cart !! j)
  = (fun q => q - 1) <$> (Item.quantity <$> cart !! j) /\
  (sold <$> incremented j cart !! j) = (sold <$> cart !! j) /\
  (sold <$> decremented j cart !! j) = (sold <$> cart !! j).
Proof.
  split; [|split; [|split; [|split; [|split; [|split; [|split; [|split;
    [|split]]]]]]]].
  - intros item Hj Hfit. unfold cart_block.
    split; [|split; [|intros Hq]];
      rewrite (cart_rows_at _ cart j item) by auto;
      cbn [cart_rows]; unfold fired.
    + rewrite (bool_decide_eq_false_2 (Some (plus j) = Some (minus j))) by done.
      by rewrite (bool_decide_eq_true_2 (Some (plus j) = Some (plus j))).
    + rewrite (bool_decide_eq_false_2 (Some (remove j) = Some (minus j))) by done.
      rewrite (bool_decide_eq_false_2 (Some (remove j) = Some (plus j))) by done.
      by rewrite (bool_decide_eq_true_2 (Some (remove j) = Some (remove j))).
    + rewrite (bool_decide_eq_true_2 (Some (minus j) = Some (minus j))) by done.
      by rewrite (bool_decide_eq_true_2 (1 < Item.quantity item)).
  - intros item Hj Hq. unfold cart_block. rewrite cart_rows_quiet; [done|].
    intros i item' Hi. cbn [Nat.add]. split; [|done].
    intros [= ->]. congruence.
  - intros Hj. unfold cart_block.
    split; [|split]; (rewrite cart_rows_quiet; [done|]);
      intros i item' Hi; cbn [Nat.add]; repeat split; try done;
      intros [= ->]; congruence.
  - intros i Hne. unfold incremented, decremented.
    by rewrite !list_lookup_alter_ne.
  - apply length_alter.
  - apply length_alter.
  - unfold incremented. rewrite list_lookup_alter_eq. by destruct (cart !! j).
  - unfold decremented. rewrite list_lookup_alter_eq. by destruct (cart !! j).
  - unfold incremented. rewrite list_lookup_alter_eq. by destruct (cart !! j).
  - unfold decremented. rewrite list_lookup_alter_eq. by destruct (cart !! j).
Qed.

Lemma line_key_alter_quantity (f : Z -> Z) (j : nat) (cart : list Item.t) :
  line_key <$> alter (fun i => Item.with_quantity (f (Item.quantity i)) i) j cart
  = line_key <$> cart.
Proof.
  rewrite (list_fmap_alter line_key _ id); [|by apply Forall_true].
  clear. revert j. induction (line_key <$> cart) as [|k ks IH]; intros [|j];
    cbn; try done. by rewrite IH.
Qed.

Lemma priced_with_quantity q item : priced item -> priced (Item.with_quantity q item).
Proof. done. Qed.

Lemma cart_ok_changed click cart cart' :
  cart_ok cart -> cart_block click cart = Ok (changed cart') -> cart_ok cart'.
Proof.
  intros (Hnodup & Hq & Hp) Hrun.
  destruct (cart_block_changed _ _ _ Hrun)
    as (j & item & Hj & [(_ & Hgt & ->)|[(_ & ->)|(_ & ->)]]).
  - unfold decremented. split; [|split].
    + by rewrite (line_key_alter_quantity (fun q => q - 1)).
    + apply Forall_alter; [done|]. intros x Hx _. cbn.
      assert (x = item) as -> by congruence. lia.
    + apply Forall_alter; [done|]. intros x _ Hpx. by apply priced_with_quantity.
  - unfold incremented. split; [|split].
    + by rewrite (line_key_alter_quantity (fun q => q + 1)).
    + apply Forall_alter; [done|]. intros x _ Hx. cbn. lia.
    + apply Forall_alter; [done|]. intros x _ Hpx. by apply priced_with_quantity.
  - split; [|split].
    + rewrite list_fmap_delete. eapply sublist_NoDup; [done|apply sublist_delete].
    + by apply Forall_delete.
    + by apply Forall_delete.
Qed.

Lemma cart_ok_add restaurant category food price cart :
  catalogue_price restaurant category food = Ok price ->
  cart_ok cart -> cart_ok (add_to_cart restaurant category food price cart).
Proof.
  intros Hprice (Hnodup & Hq & Hp). unfold add_to_cart.
  destruct (increment restaurant food cart) as [cart'|] eqn:Hinc.
  - apply increment_Some in Hinc as (before & item & after & -> & Hk & _ & ->).
    rewrite fmap_app in *. cbn [fmap list_fmap] in *.
    apply Forall_app in Hq as [Hq1 Hq2]. apply Forall_cons in Hq2 as [Hqi Hq2].
    apply Forall_app in Hp as [Hp1 Hp2]. apply Forall_cons in Hp2 as [Hpi Hp2].
    split; [rewrite fmap_app; exact Hnodup|]. split.
    + apply Forall_app. split; [done|]. constructor; [cbn; lia|done].
    + apply Forall_app. split; [done|]. by constructor.
  - apply increment_None in Hinc. split; [|split].
    + rewrite fmap_app. cbn [fmap list_fmap]. apply NoDup_app.
      split; [done|]. split; [|apply NoDup_singleton].
      intros k Hk [->|[]%not_elem_of_nil]%elem_of_cons. done.
    + apply Forall_app. split; [done|]. by repeat constructor.
    + apply Forall_app. split; [done|]. by repeat constructor.
Qed.

(** X8: a well-formed cart (one line per pair of restaurant and food,
    every quantity at least 1, every line at the catalogue price of its
    food) stays well-formed under "Add to Cart" with a catalogue price
    and under any button of the cart; so does every cart built from the
    empty one by such clicks.  In particular "-" never takes a quantity
    below 1 and no click changes a price. *)
Theorem cart_stays_well_formed (cart : list Item.t) :
  cart_ok cart ->
  (forall restaurant category food price,
     catalogue_price restaurant category food = Ok price ->
     cart_ok (add_to_cart restaurant category food price cart)) /\
  (forall click cart',
     cart_block click cart = Ok (changed cart') -> cart_ok cart') /\
  cart_ok [].
Proof.
  intros Hok. split; [|split].
  - intros. by apply cart_ok_add.
  - intros click cart'. by apply cart_ok_changed.
  - split; [constructor|]. split; constructor.
Qed.

(** ** Checkout refusals *)




(** ** Delivery *)

Lemma deliver_rows_hit a oid rows :
  oid ∈ rows.*1 ->
  deliver_rows a (Some (deliver oid)) rows
  = Some (Run (with_orders
                 (alter (Order.with_status completed) oid (orders a)) a)
              [success ("Order " +:+ oid +:+ " marked as completed!")]
              [(ORDERS_FILE,
                orders_data (alter (Order.with_status completed) oid
                                   (orders a)))]
              true).
Proof.
  induction rows as [|[oid' o] rows IH]; cbn [fmap list_fmap fst].
  - intros H. by apply not_elem_of_nil in H.
  - intros Hin. cbn [deliver_rows]. unfold fired.
    destruct (decide (oid' = oid)) as [->|Hne].
    + by rewrite bool_decide_eq_true_2.
    + rewrite bool_decide_eq_false_2 by congruence.
      apply IH. apply elem_of_cons in Hin as [?|?]; [congruence|done].
Qed.

Lemma deliver_rows_miss a click rows :
  (forall oid, click = Some (deliver oid) -> oid ∉ rows.*1) ->
  deliver_rows a click rows = None.
Proof.
  induction rows as [|[oid' o] rows IH]; [done|]. cbn [fmap list_fmap fst].
  intros Hmiss. cbn [deliver_rows]. unfold fired.
  rewrite bool_decide_eq_false_2.
  - apply IH. intros oid Hc. specialize (Hmiss oid Hc).
    by apply not_elem_of_cons in Hmiss as [_ ?].
  - intros Hc. specialize (Hmiss oid' Hc). apply Hmiss. left.
Qed.

Lemma claim_rows_miss' a click rows :
  (forall oid, click = Some (claim oid) -> oid ∉ rows.*1) ->
  claim_rows a click rows = None.
Proof.
  induction rows as [|[oid' o] rows IH]; [done|]. cbn [fmap list_fmap fst].
  intros Hmiss. cbn [claim_rows]. unfold fired.
  rewrite bool_decide_eq_false_2.
  - apply IH. intros oid Hc. specialize (Hmiss oid Hc).
    by apply not_elem_of_cons in Hmiss as [_ ?].
  - intros Hc. specialize (Hmiss oid' Hc). apply Hmiss. left.
Qed.

Lemma elem_of_driver_keys os driver oid :
  oid ∈ (map_to_list (driver_orders os driver)).*1 <->
  exists o, os !! oid = Some o /\ Order.driver o = Some driver
            /\ Order.status o = claimed.
Proof.
  unfold driver_orders. rewrite list_elem_of_fmap. split.
  - intros ([k o] & -> & Hin). apply elem_of_map_to_list in Hin.
    apply map_lookup_filter_Some in Hin as [? [? ?]]. by exists o.
  - intros (o & Ho & Hd & Hs). exists (oid, o). split; [done|].
    apply elem_of_map_to_list, map_lookup_filter_Some. done.
Qed.

Lemma deliver_own a oid o :
  orders a !! oid = Some o ->
  Order.driver o = Some (username a) ->
  Order.status o = claimed ->
  driver_page a (Some (deliver oid))
  = let os := <[oid := Order.with_status completed o]> (orders a) in
    Run (with_orders os a)
        [success ("Order " +:+ oid +:+ " marked as completed!")]
        [(ORDERS_FILE, orders_data os)]
        true.
Proof.
  intros Ho Hd Hs. unfold driver_page.
  rewrite deliver_rows_hit by (apply elem_of_driver_keys; eauto).
  by rewrite (alter_lookup_insert _ _ _ _ Ho).
Qed.

Lemma deliver_other a oid :
  (forall o, orders a !! oid = Some o ->
             ~ (Order.driver o = Some (username a) /\ Order.status o = claimed)) ->
  driver_page a (Some (deliver oid)) = idle a.
Proof.
  intros Hno. unfold driver_page. rewrite deliver_rows_miss.
  - by rewrite claim_rows_miss'.
  - intros oid' [= <-] (o & Ho & Hd & Hs)%elem_of_driver_keys.
    by apply (Hno o).
Qed.

(** X10: "Mark as Completed" works only on an order that the session's
    driver has claimed: the stored order then has the status completed
    and is otherwise as it was (driver, what was ordered, ratings), every
    other order is as it was, the store is saved and the page confirms.
    For an order claimed by another driver, or not in the state claimed,
    there is no such button: the run changes nothing, saves nothing and
    shows nothing. *)
Theorem deliver_order a oid o :
  orders a !! oid = Some o ->
  (Order.driver o = Some (username a) -> Order.status o = claimed ->
   let r := driver_page a (Some (deliver oid)) in
   (exists o',
      orders (state r) !! oid = Some o' /\
      Order.status o' = completed /\
      Order.driver o' = Order.driver o /\
      ordered o' = ordered o /\
      rating_fields o' = rating_fields o) /\
   (forall k, k <> oid -> orders (state r) !! k = orders a !! k) /\
   users (state r) = users a /\ ratings (state r) = ratings a /\
   username (state r) = username a /\
   notices r = [success ("Order " +:+ oid +:+ " marked as completed!")] /\
   saved r = [(ORDERS_FILE, orders_data (orders (state r)))] /\
   rerun r = true) /\
  (Order.driver o <> Some (username a) \/ Order.status o <> claimed ->
   driver_page a (Some (deliver oid)) = idle a).
Proof.
  intros Ho. split.
  - intros Hd Hs. cbn zeta. rewrite (deliver_own _ _ _ Ho Hd Hs). cbn zeta.
    cbn [state orders users ratings username with_orders notices saved rerun].
    split.
    { eexists. split; [apply lookup_insert_eq|]. by repeat split. }
    split; [by intros k Hk; rewrite lookup_insert_ne|]. by repeat split.
  - intros Hno. apply deliver_other. intros o' Ho' [Hd Hs].
    rewrite Ho in Ho'. injection Ho' as <-. by destruct Hno.
Qed.

(** ** One run of the script as a transition *)

Lemma with_app_id w : with_app (app_of w) w = w.
Proof. by destruct w. Qed.

Lemma traverse_Ok_inv {A B} (f : A -> Py.result B) xs ys :
  Py.traverse f xs = Ok ys -> Forall2 (fun x y => f x = Ok y) xs ys.
Proof.
  revert ys. induction xs as [|x xs IH]; intros ys; cbn [Py.traverse].
  - intros [= <-]. constructor.
  - destruct (f x) as [y|] eqn:Hx; cbn [Py.bind]; [|done].
    destruct (Py.traverse f xs) as [ys'|]; cbn [Py.bind]; [|done].
    intros [= <-]. constructor; auto.
Qed.

Lemma last_order_id_inv os m :
  last_order_id os = Ok m -> numeric os /\ highest os m.
Proof.
  intros Hm.
  assert (numeric os) as Hnum.
  { unfold last_order_id in Hm.
    destruct (Py.traverse Py.int (keys os)) as [ids|] eqn:Hids; [|done].
    apply traverse_Ok_inv in Hids. intros k o Ho. cbn beta.
    assert (k ∈ keys os) as Hk by (apply elem_of_keys; eauto).
    apply list_elem_of_lookup in Hk as [i Hi].
    destruct (Forall2_lookup_l _ _ _ _ _ Hids Hi) as (n & _ & Hn).
    by rewrite Hn. }
  split; [done|].
  destruct (last_order_id_highest os Hnum) as (m' & Hm' & Hhigh). congruence.
Qed.

Lemma checkout_block_inv a dropoff payment tip r :
  checkout_block a (Some (place_order dropoff payment tip)) = Ok r ->
  (dropoff = EmptyString /\
   r = Run a [error "Please enter a dropoff location."] [] false) \/
  (dropoff <> EmptyString /\
   exists usr m,
     users a !! username a = Some usr /\
     highest (orders a) m /\
     let os := (foldl (place_line (username a) (User.phone usr)
                                  dropoff payment tip)
                      (m, orders a) (cart a)).2 in
     r = Run (with_cart [] (with_step 1 (with_orders os a)))
             [success "Order placed successfully!"]
             [(ORDERS_FILE, orders_data os)] true).
Proof.
  unfold checkout_block. destruct dropoff as [|c dropoff].
  - intros [= <-]. by left.
  - cbn [Py.truthy negb]. unfold getitem.
    destruct (users a !! username a) as [usr|] eqn:Hu; [|done].
    cbn [Py.bind].
    destruct (last_order_id (orders a)) as [m|] eqn:Hm; [|done].
    cbn [Py.bind]. intros [= <-]. right. split; [done|].
    exists usr, m. split; [done|]. split; [|done].
    by apply last_order_id_inv in Hm as [_ ?].
Qed.

Lemma sidebar_transition verify_password hash_password w ev s :
  sidebar verify_password hash_password w ev = Ok s ->
  transition verify_password hash_password w (world_after s) /\
  (reran s = false -> logged_in (world_after s) = true -> world_after s = w).
Proof.
  unfold sidebar. destruct (logged_in w) eqn:Hin; cbn [negb].
  - destruct ev as [[| |]|]; intros [= <-]; cbn [world_after reran];
      (split; [|done]); try apply stays. by apply logs_out.
  - destruct ev as [[u p rc|salt u p ph rc|]|];
      try (intros [= <-]; split; [apply stays|done]).
    + intros Hrun.
      pose proof (login_cases verify_password w u p (role_name rc)) as Hc.
      destruct (users (app_of w) !! u) as [usr|] eqn:Hu;
        [destruct (verify_password p (User.password usr)) as [[|]|e] eqn:Hv;
         [case_decide as Hrole|..]|];
        rewrite Hc in Hrun; try done; injection Hrun as <-;
        cbn [world_after refused reran]; (split; [|done]); try apply stays.
      by eapply logs_in.
    + intros [= <-]. unfold register.
      destruct (negb (Py.truthy u) || negb (Py.truthy p)
                || negb (Py.truthy ph)) eqn:Hempty;
        [split; [apply stays|done]|].
      destruct (users (app_of w) !! u) as [usr|] eqn:Hu;
        [split; [apply stays|done]|].
      cbn [world_after]. split.
      * apply registers; try done; by destruct u, p, ph.
      * cbn [logged_in with_app]. congruence.
Qed.

Lemma orders_block_transition verify_password hash_password w ev :
  as_role "Customer" w ->
  offered (in_customer_page <$> (rating_form <$> ev)) ->
  transition verify_password hash_password w
    (with_app (state (orders_block (app_of w) ev)) w).
Proof.
  intros Hc Hoff.
  destruct (orders_block_cases (app_of w) ev)
    as [->|(oid & o & f & s & v & -> & Ho & Hcust & Hs & Hr & ->)].
  - cbn [state idle]. rewrite with_app_id. apply stays.
  - cbn in Hoff. destruct Hoff as (? & ? & ?). by apply rates.
Qed.

Lemma ordering_step_cases verify_password hash_password
    w restaurant category food ev first :
  as_role "Customer" w ->
  step (app_of w) = 1 ->
  ordering_step (app_of w) restaurant category food ev = Ok first ->
  (rerun first = true /\
   transition verify_password hash_password w (with_app (state first) w)) \/
  (rerun first = false /\ first = idle (app_of w)).
Proof.
  intros Hc Hstep. unfold ordering_step.
  destruct (restaurant_average _ _); cbn [Py.bind]; [|done].
  destruct (catalogue_price restaurant category food) as [price|] eqn:Hprice;
    cbn [Py.bind]; [|done].
  assert (match cart (app_of w) with
          | [] => Ok (idle (app_of w))
          | _ :: _ =>
              v <- cart_block (cart_click ev) (cart (app_of w)) ;;
              match v with
              | changed cart' => Ok (Run (with_cart cart' (app_of w)) [] [] true)
              | drawn _ => Ok (idle (app_of w))
              | checkout _ => Ok (Run (with_step 2 (app_of w)) [] [] true)
              end
          end = Ok first ->
          (rerun first = true /\
   transition verify_password hash_password w (with_app (state first) w)) \/
          (rerun first = false /\ first = idle (app_of w))) as Hcart.
  { destruct (cart (app_of w)) as [|item rest] eqn:Hcart.
    - intros [= <-]. by right.
    - rewrite <- Hcart.
      destruct (cart_block _ _) as [[cart'|t|t]|] eqn:Hblock; cbn [Py.bind];
        try done; intros [= <-].
      + left. split; [done|]. by eapply presses.
      + by right.
      + left. split; [done|]. cbn [state]. apply proceeds; try done.
        by rewrite Hcart. }
  destruct ev as [[|b|e|e]|]; try exact Hcart.
  intros [= <-]. left. split; [done|]. by apply adds.
Qed.

Lemma customer_page_transition verify_password hash_password
    w restaurant category food ev r :
  as_role "Customer" w ->
  offered (in_customer_page <$> ev) ->
  customer_page (app_of w) restaurant category food ev = Ok r ->
  transition verify_password hash_password w (with_app (state r) w).
Proof.
  intros Hc Hoff. unfold customer_page.
  assert (forall first,
            rerun first = false -> first = idle (app_of w) \/
              (exists msg, first = Run (app_of w) [error msg] [] false) ->
            (if rerun first then Ok first
             else
               let last := orders_block (state first) (rating_click ev) in
               Ok (Run (state last) (notices first ++ notices last)
                       (saved first ++ saved last) (rerun last))) = Ok r ->
            transition verify_password hash_password w
              (with_app (state r) w)) as Hlast.
  { intros first Hrerun Hfirst. rewrite Hrerun. intros [= <-]. cbn [state].
    assert (state first = app_of w) as -> by (by destruct Hfirst as [->|[msg ->]]).
    apply orders_block_transition; [done|].
    by destruct ev as [[|b|e|e]|]. }
  case_bool_decide as Hstep1.
  - destruct (ordering_step _ _ _ _ _) as [first|] eqn:Hfirst; cbn [Py.bind];
      [|done].
    destruct (ordering_step_cases verify_password hash_password
                _ _ _ _ _ _ Hc Hstep1 Hfirst)
      as [[Hre Ht]|[Hre ->]].
    + rewrite Hre. by intros [= <-].
    + apply Hlast; [done|by left].
  - case_bool_decide as Hstep2.
    + destruct (checkout_block _ _) as [first|] eqn:Hfirst; cbn [Py.bind];
        [|done].
      destruct ev as [[|b|[dropoff payment tip|]|e]|];
        cbn [checkout_click] in Hfirst;
        try (injection Hfirst as <-; apply Hlast; [done|by left]).
      * apply checkout_block_inv in Hfirst
          as [[-> ->]|(Hd & usr & m & Hu & Hm & ->)].
        -- apply Hlast; [done|]. right. by eexists.
        -- cbn [rerun]. intros [= <-]. cbn [state].
           cbn in Hoff. destruct Hoff as [-> Htip]. by apply checks_out.
      * injection Hfirst as <-. cbn [rerun]. intros [= <-]. cbn [state].
        by apply goes_back.
    + cbn [Py.bind]. apply Hlast; [done|by left].
Qed.

Lemma driver_page_transition verify_password hash_password w click :
  as_role "Driver" w ->
  transition verify_password hash_password w
    (with_app (state (driver_page (app_of w) click)) w).
Proof.
  intros Hd.
  assert (transition verify_password hash_password w
            (with_app (state (idle (app_of w))) w)) as Hidle
    by (cbn [state idle]; rewrite with_app_id; apply stays).
  destruct click as [[oid|oid]|].
  - destruct (orders (app_of w) !! oid) as [o|] eqn:Ho.
    + destruct (decide (Order.driver o = Some (username (app_of w))
                        /\ Order.status o = claimed)) as [[Hdr Hs]|Hno].
      * rewrite (deliver_own _ _ _ Ho Hdr Hs). cbn [state]. by apply delivers.
      * rewrite deliver_other; [done|]. intros o' Ho'.
        rewrite Ho in Ho'. by injection Ho' as <-.
    + rewrite deliver_other; [done|]. intros o' Ho'. by rewrite Ho in Ho'.
  - destruct (orders (app_of w) !! oid) as [o|] eqn:Ho.
    + destruct (decide (Order.status o = pending)) as [Hs|Hno].
      * rewrite (claim_pending _ _ _ Ho Hs). cbn [state]. by apply claims.
      * rewrite claim_not_pending; [done|]. intros o' Ho'.
        rewrite Ho in Ho'. by injection Ho' as <-.
    + rewrite claim_not_pending; [done|]. intros o' Ho'. by rewrite Ho in Ho'.
  - assert (driver_page (app_of w) None = idle (app_of w)) as ->; [|done].
    unfold driver_page. rewrite deliver_rows_miss by done.
    by rewrite claim_rows_miss' by done.
Qed.

Lemma script_transition_run verify_password hash_password
    w restaurant category food ev r :
  offered ev ->
  script verify_password hash_password w restaurant category food ev = Ok r ->
  transition verify_password hash_password w (final r).
Proof.
  intros Hoff. unfold script.
  destruct (sidebar verify_password hash_password w (sidebar_click ev))
    as [s|] eqn:Hs; cbn [Py.bind]; [|done].
  destruct (sidebar_transition _ _ _ _ _ Hs) as [Ht Hsame].
  destruct (reran s || negb (logged_in (world_after s))) eqn:Hstop.
  { by intros [= <-]. }
  apply orb_false_elim in Hstop as [Hre Hin].
  apply negb_false_iff in Hin.
  pose proof (Hsame Hre Hin) as Hw. rewrite Hw in *. clear Ht Hsame.
  case_bool_decide as Hcust.
  - destruct (customer_page _ _ _ _ _) as [r'|] eqn:Hpage; cbn [Py.bind];
      [|done].
    intros [= <-]. cbn [final page_run].
    eapply customer_page_transition; [by split| |exact Hpage].
    by destruct ev as [[e|e|b]|].
  - case_bool_decide as Hdrv; [|by intros [= <-]; apply stays].
    destruct (driver_average _ _); cbn [Py.bind]; [|done].
    intros [= <-]. cbn [final page_run]. apply driver_page_transition.
    by split.
Qed.

(** ** Sums over a store *)

Lemma sum_over_empty g : sum_over g ∅ = 0.
Proof. unfold sum_over. by rewrite map_fold_empty. Qed.

Lemma sum_over_insert_fresh g os k o :
  os !! k = None -> sum_over g (<[k := o]> os) = sum_over g os + g o.
Proof.
  intros Hk. unfold sum_over. rewrite map_fold_insert_L; [done| |done].
  intros. lia.
Qed.

Lemma sum_over_insert g os k o o' :
  os !! k = Some o ->
  sum_over g (<[k := o']> os) = sum_over g os - g o + g o'.
Proof.
  intros Hk. rewrite <- (insert_delete_id os k o Hk) at 2.
  rewrite <- (insert_delete_eq os k o').
  rewrite !sum_over_insert_fresh by apply lookup_delete_eq. lia.
Qed.

Lemma sum_over_insert_same g os k o o' :
  os !! k = Some o -> g o' = g o -> sum_over g (<[k := o']> os) = sum_over g os.
Proof. intros Hk Hg. rewrite (sum_over_insert g os k o o' Hk). lia. Qed.

(** ** The store after a checkout *)

Lemma below_insert os m o :
  below os m -> below (<[Py.str (m + 1) := o]> os) (m + 1).
Proof.
  intros Hb k n [o' Ho'] Hn. destruct (decide (k = Py.str (m + 1))) as [->|Hne].
  - rewrite int_str in Hn. injection Hn as <-. lia.
  - rewrite lookup_insert_ne in Ho' by done.
    specialize (Hb k n (mk_is_Some _ _ Ho') Hn). lia.
Qed.

Lemma place_lines_sum g customer user_phone dropoff payment tip cart :
  (forall item, g (new_order customer user_phone item dropoff payment tip) = 0) ->
  forall m os,
    below os m ->
    sum_over g (foldl (place_line customer user_phone dropoff payment tip)
                      (m, os) cart).2
    = sum_over g os.
Proof.
  intros Hg. induction cart as [|item rest IH]; intros m os Hb; [done|].
  cbn [foldl].
  change (place_line customer user_phone dropoff payment tip (m, os) item)
    with (m + 1, <[Py.str (m + 1) :=
                     new_order customer user_phone item dropoff payment tip]> os).
  rewrite IH by by apply below_insert.
  rewrite sum_over_insert_fresh, Hg; [lia|].
  pose proof (below_fresh os m 0 Hb) as H0. unfold order_id in H0.
  by rewrite Z.add_0_r in H0.
Qed.

Lemma place_lines_cases customer user_phone dropoff payment tip cart m os k o :
  below os m ->
  (foldl (place_line customer user_phone dropoff payment tip)
         (m, os) cart).2 !! k = Some o ->
  os !! k = Some o \/
  exists i item, cart !! i = Some item /\ k = order_id m i /\
                 o = new_order customer user_phone item dropoff payment tip.
Proof.
  intros Hb Ho.
  destruct (place_lines customer user_phone dropoff payment tip cart m os Hb)
    as (_ & Hnew & Hold).
  destruct (decide (k ∈ order_id m <$> seq 0 (length cart)))
    as [(i & -> & Hi%elem_of_seq)%list_elem_of_fmap|Hnone].
  - destruct (lookup_lt_is_Some_2 cart i) as [item Hitem]; [lia|].
    rewrite (Hnew i item Hitem) in Ho. injection Ho as <-. right. eauto.
  - left. rewrite Hold in Ho; [done|]. intros i Hi ->. apply Hnone.
    apply list_elem_of_fmap. exists i. split; [done|]. apply elem_of_seq. lia.
Qed.

Lemma place_lines_keys customer user_phone dropoff payment tip cart m os k :
  below os m ->
  is_Some ((foldl (place_line customer user_phone dropoff payment tip)
                  (m, os) cart).2 !! k) <->
  is_Some (os !! k) \/ exists i, (i < length cart)%nat /\ k = order_id m i.
Proof.
  intros Hb.
  destruct (place_lines customer user_phone dropoff payment tip cart m os Hb)
    as (_ & Hnew & Hold).
  split.
  - intros [o Ho].
    destruct (place_lines_cases _ _ _ _ _ _ _ _ _ _ Hb Ho)
      as [?|(i & item & Hi & -> & _)]; [left; eauto|].
    right. exists i. split; [|done]. by apply lookup_lt_Some in Hi.
  - intros [[o Ho]|(i & Hi & ->)].
    + destruct (decide (k ∈ order_id m <$> seq 0 (length cart)))
        as [(i & -> & Hi%elem_of_seq)%list_elem_of_fmap|Hnone].
      * by rewrite (below_fresh _ _ i Hb) in Ho.
      * rewrite Hold; [eauto|]. intros i Hi ->. apply Hnone.
        apply list_elem_of_fmap. exists i. split; [done|]. apply elem_of_seq. lia.
    + destruct (lookup_lt_is_Some_2 cart i Hi) as [item Hitem].
      rewrite (Hnew i item Hitem). eauto.
Qed.

Lemma ids_ok_highest os N m :
  (forall k, is_Some (os !! k) <-> exists i, (i < N)%nat /\ k = order_id 0 i) ->
  highest os m -> m = Z.of_nat N.
Proof.
  intros Hids [Hub Hmax].
  assert (forall i, (i < N)%nat -> Z.of_nat i + 1 <= m) as Hlow.
  { intros i Hi. apply (Hub (order_id 0 i)).
    - apply Hids. eauto.
    - unfold order_id. rewrite int_str. f_equal. lia. }
  destruct Hmax as [[-> ->]|(k & Hk & Hm)].
  - destruct N as [|N]; [done|].
    assert (is_Some ((∅ : gmap string Order.t) !! order_id 0 0)) as [o Ho]
      by (apply Hids; exists 0%nat; split; [lia|done]).
    by rewrite lookup_empty in Ho.
  - apply Hids in Hk as (i & Hi & ->). unfold order_id in Hm.
    rewrite int_str in Hm. injection Hm as <-.
    destruct N as [|N]; [lia|]. specialize (Hlow N ltac:(lia)). lia.
Qed.

Lemma ids_ok_checkout customer user_phone dropoff payment tip cart os m :
  ids_ok os -> highest os m ->
  ids_ok (foldl (place_line customer user_phone dropoff payment tip)
                (m, os) cart).2.
Proof.
  intros [N Hids] Hhigh. pose proof (ids_ok_highest _ _ _ Hids Hhigh) as ->.
  destruct Hhigh as [Hb _]. exists (N + length cart)%nat. intros k.
  rewrite (place_lines_keys _ _ _ _ _ _ _ _ _ Hb), Hids.
  assert (forall i, order_id (Z.of_nat N) i = order_id 0 (N + i)) as Hshift.
  { intros i. unfold order_id. f_equal. lia. }
  split.
  - intros [(i & Hi & ->)|(i & Hi & ->)].
    + exists i. split; [lia|done].
    + exists (N + i)%nat. split; [lia|]. apply Hshift.
  - intros (i & Hi & ->). destruct (decide (i < N)%nat) as [Hlt|Hge].
    + left. eauto.
    + right. exists (i - N)%nat. split; [lia|]. rewrite Hshift. f_equal. lia.
Qed.

Lemma ids_ok_insert os k o o' :
  os !! k = Some o -> ids_ok os -> ids_ok (<[k := o']> os).
Proof.
  intros Ho [N Hids]. exists N. intros k'. rewrite <- Hids.
  rewrite lookup_insert_is_Some. split.
  - intros [<-|[_ ?]]; [eauto|done].
  - intros Hk'. destruct (decide (k = k')); [by left|by right].
Qed.

Lemma ids_ok_numeric os : ids_ok os -> numeric os.
Proof.
  intros [N Hids] k o Ho. cbn beta.
  destruct (proj1 (Hids k) (mk_is_Some _ _ Ho)) as (i & _ & ->).
  unfold order_id. by rewrite int_str.
Qed.

(** ** The invariant is kept by every transition *)

Lemma order_ok_users us us' o :
  (forall u usr, us !! u = Some usr -> us' !! u = Some usr) ->
  order_ok us o -> order_ok us' o.
Proof.
  intros Hsub (? & ? & ? & ? & ? & ? & ? & ? & (usr & Hc & ? & ?) & Hd).
  repeat split; try tauto.
  - exists usr. eauto.
  - by apply Hd.
  - destruct (Hd d) as (_ & usr' & ? & ?); eauto.
Qed.

Lemma order_ok_new us customer usr item dropoff tip :
  us !! customer = Some usr ->
  User.role usr = "Customer" ->
  dropoff <> EmptyString ->
  (0 <=? tip)%float = true ->
  1 <= Item.quantity item ->
  priced item ->
  order_ok us (new_order customer (User.phone usr) item dropoff "Cash" tip).
Proof.
  intros Hu Hrole Hd Htip Hq Hp. unfold order_ok, new_order. cbn.
  repeat split; try done. by left. by exists usr.
Qed.

Lemma unrated_fields o :
  rating_ok o -> Order.rating_food o = None ->
  rating_fields o = (None, None, None).
Proof.
  intros [?|(f & s & v & Hf & _)] Hnone; [done|].
  unfold rating_fields in Hf. congruence.
Qed.

Lemma order_ok_claim us o d usr :
  order_ok us o ->
  Order.status o = pending ->
  d <> EmptyString -> us !! d = Some usr -> User.role usr = "Driver" ->
  order_ok us (Order.with_status claimed (Order.with_driver (Some d) o)).
Proof.
  intros (Hdrv & Hrated & Hrating & ? & ? & ? & ? & ? & ? & _) Hs Hd Hu Hrole.
  unfold order_ok. cbn.
  assert (Order.rating_food o = None) as Hnone.
  { destruct (Order.rating_food o) eqn:Hf; [|done].
    assert (Order.status o = completed) by (apply Hrated; congruence).
    congruence. }
  split; [split; intros; congruence|].
  split; [intros; congruence|].
  split; [exact Hrating|].
  repeat split; try done;
    match goal with H : Some _ = Some _ |- _ => injection H as <- end; eauto.
Qed.

Lemma order_ok_deliver us o :
  order_ok us o ->
  Order.status o = claimed ->
  order_ok us (Order.with_status completed o).
Proof.
  intros (Hdrv & Hrated & Htail) Hs.
  split; [|split; [done|exact Htail]].
  split; [|done]. intros Hnone. apply Hdrv in Hnone. cbn in *. congruence.
Qed.

Lemma order_ok_rate us o f s v :
  order_ok us o ->
  Order.status o = completed ->
  1 <= f <= 5 -> 1 <= s <= 5 -> 1 <= v <= 5 ->
  order_ok us (Order.with_rating_service (Some v)
                 (Order.with_rating_speed (Some s)
                    (Order.with_rating_food (Some f) o))).
Proof.
  intros (Hdrv & Hrated & Hrating & Htail) Hs Hf Hsp Hv.
  split; [exact Hdrv|]. split; [by intros _|]. split; [|exact Htail].
  right. by exists f, s, v.
Qed.

Lemma ratings_ok_sums rs os os' :
  (forall g,
     (exists r, g = at_restaurant r rated) \/
     (exists r, g = at_restaurant r (value Order.rating_food)) \/
     (exists d, g = of_driver d rated) \/
     (exists d, g = of_driver d (value Order.rating_food)) \/
     (exists d, g = of_driver d (value Order.rating_speed)) \/
     (exists d, g = of_driver d (value Order.rating_service)) ->
     sum_over g os' = sum_over g os) ->
  ratings_ok rs os -> ratings_ok rs os'.
Proof.
  intros Hsame [Hr Hd]. split.
  - intros r. specialize (Hr r). cbn zeta in *.
    rewrite !Hsame by eauto 10. done.
  - intros d. specialize (Hd d). cbn zeta in *.
    rewrite !Hsame by eauto 10. done.
Qed.

Lemma ratings_ok_insert rs os k o o' :
  os !! k = Some o -> same_measures o o' ->
  ratings_ok rs os -> ratings_ok rs (<[k := o']> os).
Proof.
  intros Ho Hsame. apply ratings_ok_sums. intros g Hg.
  apply (sum_over_insert_same g os k o o' Ho). by apply Hsame.
Qed.

Lemma same_measures_unrated o o' :
  Order.restaurant o' = Order.restaurant o ->
  rating_fields o = (None, None, None) ->
  rating_fields o' = (None, None, None) ->
  same_measures o o'.
Proof.
  unfold rating_fields. intros Hr [= Hf Hs Hv] [= Hf' Hs' Hv'] g Hg.
  destruct Hg as [[r ->]|[[r ->]|[[d ->]|[[d ->]|[[d ->]|[d ->]]]]]];
    unfold at_restaurant, of_driver, rated, value;
    rewrite ?Hr, ?Hf, ?Hs, ?Hv, ?Hf', ?Hs', ?Hv'; cbn;
    repeat case_decide; done.
Qed.

Lemma same_measures_status o s :
  same_measures o (Order.with_status s o).
Proof.
  intros g Hg.
  by destruct Hg as [[r ->]|[[r ->]|[[d ->]|[[d ->]|[[d ->]|[d ->]]]]]].
Qed.

Lemma ratings_ok_rate rs os oid o f s v d :
  os !! oid = Some o ->
  rating_fields o = (None, None, None) ->
  Order.driver o = Some d ->
  ratings_ok rs os ->
  ratings_ok
    (Ratings.mk (rate_restaurant (Order.restaurant o) f (Ratings.restaurants rs))
                (rate_driver d f s v (Ratings.drivers rs)))
    (<[oid := Order.with_rating_service (Some v)
                (Order.with_rating_speed (Some s)
                   (Order.with_rating_food (Some f) o))]> os).
Proof.
  unfold rating_fields. intros Ho [= Hf Hs Hv] Hd [Hrest Hdrv].
  set (o' := Order.with_rating_service (Some v)
               (Order.with_rating_speed (Some s)
                  (Order.with_rating_food (Some f) o))).
  assert (forall g r, at_restaurant r g o' - at_restaurant r g o
                      = if decide (Order.restaurant o = r)
                        then g o' - g o else 0) as Hres.
  { intros g r. unfold at_restaurant. cbn. case_decide; lia. }
  assert (forall g d', of_driver d' g o' - of_driver d' g o
                       = if decide (d = d') then g o' - g o else 0) as Hdri.
  { intros g d'. unfold of_driver. cbn. rewrite Hd.
    destruct (decide (d = d')) as [<-|Hne].
    - rewrite !decide_True by done. lia.
    - rewrite !decide_False by congruence. lia. }
  assert (rated o' - rated o = 1) as Hrated
    by (unfold rated; cbn; rewrite Hf; lia).
  assert (value Order.rating_food o' - value Order.rating_food o = f) as Hvf
    by (unfold value; cbn; rewrite Hf; cbn; lia).
  assert (value Order.rating_speed o' - value Order.rating_speed o = s) as Hvs
    by (unfold value; cbn; rewrite Hs; cbn; lia).
  assert (value Order.rating_service o' - value Order.rating_service o = v)
    as Hvv by (unfold value; cbn; rewrite Hv; cbn; lia).
  split; cbn [Ratings.restaurants Ratings.drivers].
  - intros r. specialize (Hrest r). cbn zeta in *.
    rewrite rate_restaurant_insert. cbn zeta.
    rewrite !(sum_over_insert _ os oid o o' Ho).
    pose proof (Hres rated r) as H1.
    pose proof (Hres (value Order.rating_food) r) as H2.
    destruct (decide (Order.restaurant o = r)) as [<-|Hne].
    + rewrite lookup_insert_eq. cbn [default from_option id
        RestaurantRating.rating_count RestaurantRating.rating_sum].
      destruct Hrest as [Hc Hsum]. split; lia.
    + rewrite lookup_insert_ne by done.
      destruct Hrest as [Hc Hsum]. split; lia.
  - intros d'. specialize (Hdrv d'). cbn zeta in *.
    rewrite rate_driver_insert. cbn zeta.
    rewrite !(sum_over_insert _ os oid o o' Ho).
    pose proof (Hdri rated d') as H1.
    pose proof (Hdri (value Order.rating_food) d') as H2.
    pose proof (Hdri (value Order.rating_speed) d') as H3.
    pose proof (Hdri (value Order.rating_service) d') as H4.
    destruct (decide (d = d')) as [<-|Hne].
    + rewrite lookup_insert_eq. cbn [default from_option id
        DriverRating.rating_count DriverRating.rating_sum
        DriverRating.speed_sum DriverRating.service_sum].
      destruct Hdrv as (? & ? & ? & ?). repeat split; lia.
    + rewrite lookup_insert_ne by done.
      destruct Hdrv as (? & ? & ? & ?). repeat split; lia.
Qed.

Lemma new_order_measures customer user_phone dropoff payment tip g :
  (exists r, g = at_restaurant r rated) \/
  (exists r, g = at_restaurant r (value Order.rating_food)) \/
  (exists d, g = of_driver d rated) \/
  (exists d, g = of_driver d (value Order.rating_food)) \/
  (exists d, g = of_driver d (value Order.rating_speed)) \/
  (exists d, g = of_driver d (value Order.rating_service)) ->
  forall item, g (new_order customer user_phone item dropoff payment tip) = 0.
Proof.
  intros Hg item.
  destruct Hg as [[r ->]|[[r ->]|[[d ->]|[[d ->]|[[d ->]|[d ->]]]]]];
    unfold at_restaurant, of_driver, rated, value; cbn; by repeat case_decide.
Qed.

Ltac invariant_parts := split; [|split; [|split; [|split; [|split]]]].

Lemma invariant_step verify_password hash_password w w' :
  invariant w ->
  transition verify_password hash_password w w' ->
  invariant w'.
Proof.
  intros (Hus & Hse & Hcs & Hids & Hos & Hrs) Ht.
  destruct Ht as
    [ w
    | w username password usr rc Hout Hu Hv Hrole
    | w salt username password phone rc Hout Hn Hp Hph Hfree
    | w Hin
    | w restaurant category food price Hc Hstep Hprice
    | w click cart' Hc Hstep Hblock
    | w Hc Hstep Hcart
    | w dropoff tip usr m Hc Hstep Hdrop Htip Hu Hhigh
    | w Hc Hstep
    | w oid o f s v Hc Ho Hcust Hs Hr Hf Hsp Hv
    | w oid o Hd Ho Hdrv Hs
    | w oid o Hd Ho Hs ].
  - done.
  - (* login *)
    invariant_parts;
      [exact Hus| |exact Hcs|exact Hids|exact Hos|exact Hrs].
    intros _. by exists usr.
  - (* registration *)
    assert (forall u usr, users (app_of w) !! u = Some usr ->
              <[username := User.mk (hash_password salt password) phone
                                    (role_name rc)]> (users (app_of w)) !! u
              = Some usr) as Hsub.
    { intros u usr Hu. rewrite lookup_insert_ne; [done|]. congruence. }
    invariant_parts; [| |exact Hcs|exact Hids| |exact Hrs].
    + intros u usr. cbn [app_of with_app with_users users].
      rewrite lookup_insert_Some. intros [[<- <-]|[_ Hu]]; [|by eapply Hus].
      cbn. repeat split; try done. by destruct rc; [left|right].
    + intros Hin. cbn in Hin. congruence.
    + cbn [app_of with_app with_users users orders].
      intros k o Ho. eapply order_ok_users; [exact Hsub|]. by apply (Hos k).
  - (* logout *)
    invariant_parts; [exact Hus| |exact Hcs|exact Hids|exact Hos|exact Hrs].
    by intros [=].
  - (* add to cart *)
    destruct Hcs as (Hok & Hst & Hne).
    invariant_parts; [exact Hus|exact Hse| |exact Hids|exact Hos|exact Hrs].
    split; [by apply cart_ok_add|]. split; [exact Hst|].
    cbn [app_of with_app with_cart step]. intros ?. lia.
  - (* a cart button *)
    destruct Hcs as (Hok & Hst & Hne).
    invariant_parts; [exact Hus|exact Hse| |exact Hids|exact Hos|exact Hrs].
    split; [by eapply cart_ok_changed|]. split; [exact Hst|].
    cbn [app_of with_app with_cart step]. intros ?. lia.
  - (* proceed to checkout *)
    destruct Hcs as (Hok & Hst & Hne).
    invariant_parts; [exact Hus|exact Hse| |exact Hids|exact Hos|exact Hrs].
    split; [exact Hok|]. split; [by right|done].
  - (* checkout *)
    destruct Hcs as ((Hnodup & Hq & Hp) & Hst & Hne).
    destruct Hc as [Hin Hrole]. destruct (Hse Hin) as (usr' & Hu' & Hrole').
    assert (usr' = usr) as -> by congruence.
    pose proof Hhigh as [Hb _].
    invariant_parts; [exact Hus|exact Hse| | | |].
    + split; [|split; [by left|done]]. split; [constructor|].
      split; constructor.
    + by apply ids_ok_checkout.
    + cbn [app_of with_app with_cart with_step with_orders users orders].
      intros k o Ho.
      destruct (place_lines_cases _ _ _ _ _ _ _ _ _ _ Hb Ho)
        as [Hold|(i & item & Hi & _ & ->)]; [by apply (Hos k)|].
      apply order_ok_new; try done; try congruence.
      * by apply (Forall_lookup_1 _ _ _ _ Hq Hi).
      * by apply (Forall_lookup_1 _ _ _ _ Hp Hi).
    + cbn [app_of with_app with_cart with_step with_orders ratings orders].
      eapply ratings_ok_sums; [|exact Hrs]. intros g Hg.
      apply place_lines_sum; [|done]. by apply new_order_measures.
  - (* back to the menu *)
    destruct Hcs as (Hok & Hst & Hne).
    invariant_parts; [exact Hus|exact Hse| |exact Hids|exact Hos|exact Hrs].
    split; [exact Hok|]. split; [by left|].
    cbn [app_of with_app with_step step]. intros ?. lia.
  - (* rating *)
    pose proof (Hos oid o Ho) as Hoko. cbn beta in Hoko.
    pose proof Hoko as (Hdrv & _ & Hrating & _ & _ & _ & _ & _ & _ & Hdriver).
    destruct (Order.driver o) as [d|] eqn:Hd;
      [|assert (Order.status o = pending) by (by apply Hdrv); congruence].
    destruct (Hdriver d eq_refl) as [Hdne _].
    unfold submit. rewrite Hd.
    assert (Py.truthy d = true) as -> by (by destruct d).
    cbn [state app_of with_app with_ratings with_orders].
    rewrite (alter_lookup_insert _ _ _ _ Ho).
    invariant_parts; [exact Hus|exact Hse|exact Hcs| | |].
    + by eapply ids_ok_insert.
    + cbn [users orders]. apply map_Forall_insert_2; [|done].
      by apply order_ok_rate.
    + cbn [ratings orders]. apply ratings_ok_rate; try done.
      by apply unrated_fields.
  - (* delivery *)
    pose proof (Hos oid o Ho) as Hoko. cbn beta in Hoko.
    invariant_parts; [exact Hus|exact Hse|exact Hcs| | |].
    + by eapply ids_ok_insert.
    + cbn [app_of with_app with_orders users orders].
      apply map_Forall_insert_2; [|done]. by apply order_ok_deliver.
    + cbn [app_of with_app with_orders ratings orders].
      apply (ratings_ok_insert _ _ _ o); [done| |done].
      apply same_measures_status.
  - (* claim *)
    pose proof (Hos oid o Ho) as Hoko. cbn beta in Hoko.
    destruct Hd as [Hin Hrole]. destruct (Hse Hin) as (usr & Hu & Hrole').
    destruct (Hus _ _ Hu) as (Hne & _ & _).
    assert (rating_fields o = (None, None, None)) as Hnone.
    { destruct Hoko as (_ & Hrated & Hrating & _).
      apply unrated_fields; [done|].
      destruct (Order.rating_food o) eqn:Hf; [|done].
      assert (Order.status o = completed) by (apply Hrated; congruence).
      congruence. }
    invariant_parts; [exact Hus|exact Hse|exact Hcs| | |].
    + by eapply ids_ok_insert.
    + cbn [app_of with_app with_orders users orders].
      apply map_Forall_insert_2; [|done].
      eapply order_ok_claim; try done. congruence.
    + cbn [app_of with_app with_orders ratings orders].
      apply (ratings_ok_insert _ _ _ o); [done| |done].
      by apply same_measures_unrated.
Qed.

Lemma invariant_first : invariant first_visit.
Proof.
  unfold first_visit. invariant_parts; cbn [app_of users orders ratings].
  - intros u usr Hu. by rewrite lookup_empty in Hu.
  - by intros [=].
  - split; [|split; [by left|done]]. split; [constructor|]. split; constructor.
  - exists 0%nat. intros k. rewrite lookup_empty. split.
    + by intros [? ?].
    + intros (i & Hi & _). lia.
  - apply map_Forall_empty.
  - split; intros ?; cbn [Ratings.restaurants Ratings.drivers];
      rewrite !lookup_empty; cbn; rewrite !sum_over_empty; done.
Qed.

Lemma reachable_invariant verify_password hash_password w :
  reachable verify_password hash_password w -> invariant w.
Proof.
  induction 1 as [|w restaurant category food ev r _ IH Hoff Hrun].
  - apply invariant_first.
  - eapply invariant_step; [exact IH|].
    by eapply script_transition_run.
Qed.

(** ** Orders only move forward *)

Lemma evolves_refl o : evolves o o.
Proof. unfold evolves. repeat split; try done; lia. Qed.

Lemma evolves_trans o1 o2 o3 : evolves o1 o2 -> evolves o2 o3 -> evolves o1 o3.
Proof.
  intros (Ho & Hr & Hd & Hn & Hf) (Ho' & Hr' & Hd' & Hn' & Hf').
  unfold evolves. split; [congruence|]. split; [lia|]. split; [|split].
  - intros Hs. rewrite Hd', Hd; [done..|].
    intros Hp. rewrite Hp in Hr. destruct (Order.status o1); cbn in Hr; done || lia.
  - auto.
  - intros Hrated. rewrite Hf', Hf; [done..|].
    specialize (Hf Hrated). unfold rating_fields in Hf. congruence.
Qed.

Lemma store_evolves_refl os : store_evolves os os.
Proof. intros k o Ho. exists o. split; [done|apply evolves_refl]. Qed.

Lemma store_evolves_trans os1 os2 os3 :
  store_evolves os1 os2 -> store_evolves os2 os3 -> store_evolves os1 os3.
Proof.
  intros H12 H23 k o Ho. destruct (H12 k o Ho) as (o' & Ho' & He).
  destruct (H23 k o' Ho') as (o'' & Ho'' & He'). exists o''.
  split; [done|]. by eapply evolves_trans.
Qed.

Lemma store_evolves_insert os k o o' :
  os !! k = Some o -> evolves o o' -> store_evolves os (<[k := o']> os).
Proof.
  intros Ho He k' o0 Hk'. destruct (decide (k = k')) as [<-|Hne].
  - rewrite lookup_insert_eq. exists o'. split; [done|]. congruence.
  - rewrite lookup_insert_ne by done. exists o0. split; [done|apply evolves_refl].
Qed.

Lemma transition_evolves verify_password hash_password w w' :
  transition verify_password hash_password w w' ->
  store_evolves (orders (app_of w)) (orders (app_of w')).
Proof.
  intros Ht.
  destruct Ht as
    [ w
    | w username password usr rc Hout Hu Hv Hrole
    | w salt username password phone rc Hout Hn Hp Hph Hfree
    | w Hin
    | w restaurant category food price Hc Hstep Hprice
    | w click cart' Hc Hstep Hblock
    | w Hc Hstep Hcart
    | w dropoff tip usr m Hc Hstep Hdrop Htip Hu Hhigh
    | w Hc Hstep
    | w oid o f s v Hc Ho Hcust Hs Hr Hf Hsp Hv
    | w oid o Hd Ho Hdrv Hs
    | w oid o Hd Ho Hs ];
    try apply store_evolves_refl.
  - cbn [app_of with_app with_cart with_step with_orders orders].
    destruct Hhigh as [Hb _].
    destruct (place_lines (username (app_of w)) (User.phone usr) dropoff "Cash"
                tip (cart (app_of w)) m (orders (app_of w)) Hb)
      as (_ & _ & Hold).
    intros k o Ho. exists o. split; [|apply evolves_refl].
    rewrite Hold; [done|]. intros i _ ->.
    by rewrite (below_fresh _ _ i Hb) in Ho.
  - unfold submit. cbn [state app_of with_app with_ratings with_orders orders].
    rewrite (alter_lookup_insert _ _ _ _ Ho).
    apply (store_evolves_insert _ _ o); [done|].
    unfold evolves. cbn. repeat split; try done; lia.
  - cbn [app_of with_app with_orders orders].
    apply (store_evolves_insert _ _ o); [done|].
    unfold evolves. cbn. rewrite Hs. cbn. repeat split; try done; lia.
  - cbn [app_of with_app with_orders orders].
    apply (store_evolves_insert _ _ o); [done|].
    unfold evolves. cbn. rewrite Hs. cbn. repeat split; try done; lia.
Qed.

(** X11: through any sequence of runs of the script an order is never
    deleted and what was ordered is never rewritten (customer, phone,
    restaurant, category, food, price, quantity, drop-off, payment,
    tip); its status never goes back; once claimed it keeps its driver;
    once rated it keeps its rating. *)
Theorem orders_only_move_forward verify_password hash_password w w' :
  rtc (run_of verify_password hash_password) w w' ->
  store_evolves (orders (app_of w)) (orders (app_of w')).
Proof.
  induction 1 as [w|w w1 w' (restaurant & category & food & ev & r & Hoff & Hrun & ->) _ IH].
  - apply store_evolves_refl.
  - eapply store_evolves_trans; [|exact IH].
    eapply transition_evolves. by eapply script_transition_run.
Qed.

(** ** What every reachable world satisfies *)

Lemma ids_size (os : gmap string Order.t) N :
  (forall k, is_Some (os !! k) <-> exists i, (i < N)%nat /\ k = order_id 0 i) ->
  size os = N.
Proof.
  intros Hids.
  assert (dom os = list_to_set (C := gset string) (order_id 0 <$> seq 0 N))
    as Hdom.
  { apply set_eq. intros k.
    rewrite elem_of_dom, Hids, elem_of_list_to_set, list_elem_of_fmap.
    split.
    - intros (i & Hi & ->). exists i. split; [done|]. apply elem_of_seq. lia.
    - intros (i & -> & Hi%elem_of_seq). exists i. split; [lia|done]. }
  rewrite <- size_dom, Hdom, size_list_to_set.
  - by rewrite length_fmap, length_seq.
  - apply NoDup_fmap_2; [|apply NoDup_seq].
    intros i j. apply order_id_inj.
Qed.

(** X12: in every world that runs of the script lead to from a first
    visit, a logged-in session is the session of a stored account: the
    session's name is not empty, the account is in the users store, and
    the session's role is the account's role, "Customer" or "Driver" (so
    one of the two pages is drawn). *)
Theorem reachable_session verify_password hash_password w :
  reachable verify_password hash_password w ->
  logged_in w = true ->
  username (app_of w) <> EmptyString /\
  exists usr,
    users (app_of w) !! username (app_of w) = Some usr /\
    User.role usr = role w /\
    (role w = "Customer" \/ role w = "Driver").
Proof.
  intros (Hus & Hse & _)%reachable_invariant Hin.
  destruct (Hse Hin) as (usr & Hu & Hrole).
  destruct (Hus _ _ Hu) as (Hn & _ & Hr).
  split; [done|]. exists usr. rewrite <- Hrole. auto.
Qed.

(** X13: in every reachable world the order identifiers are exactly
    "1", "2", ..., "N" for the N orders of the store: no identifier is
    skipped or reused, and every one reads back as an integer, so the
    next checkout cannot raise on [int(k)]. *)
Theorem reachable_order_ids verify_password hash_password w :
  reachable verify_password hash_password w ->
  (forall k, is_Some (orders (app_of w) !! k) <->
             exists i, (i < size (orders (app_of w)))%nat /\
                       k = Py.str (Z.of_nat i + 1)) /\
  last_order_id (orders (app_of w))
  = Ok (Z.of_nat (size (orders (app_of w)))).
Proof.
  intros (_ & _ & _ & Hids & _)%reachable_invariant.
  pose proof (ids_ok_numeric _ Hids) as Hnum.
  destruct Hids as [N Hids]. rewrite (ids_size _ _ Hids). split.
  - intros k. rewrite Hids. unfold order_id.
    split; intros (i & Hi & ->); exists i; (split; [done|]); f_equal; lia.
  - destruct (last_order_id_highest _ Hnum) as (m & -> & Hhigh).
    f_equal. by eapply ids_ok_highest.
Qed.

(** X14: in every reachable world every stored order is well formed: it
    has no driver exactly when it is pending; it is rated only when
    completed, with all three ratings from 1 to 5 or none; its quantity
    is at least 1, its drop-off is not empty, it is paid in cash with a
    tip that is not negative; its price is the catalogue's price of its
    food; its customer is an account with the role "Customer" whose phone
    is the order's; its driver, when there is one, is an account with
    the role "Driver". *)
Theorem reachable_orders_well_formed verify_password hash_password w k o :
  reachable verify_password hash_password w ->
  orders (app_of w) !! k = Some o ->
  order_ok (users (app_of w)) o.
Proof.
  intros (_ & _ & _ & _ & Hos & _)%reachable_invariant Ho.
  exact (Hos k o Ho).
Qed.

(** X15: in every reachable world the stored aggregates are the sums
    over the orders: a restaurant's count and sum are the number of its
    rated orders and the sum of their food ratings; a driver's count and
    three sums are the number of rated orders they delivered and the sums
    of the food, speed and service ratings of these (a restaurant or
    driver without entry has no rated order). *)
Theorem reachable_aggregates verify_password hash_password w :
  reachable verify_password hash_password w ->
  ratings_ok (ratings (app_of w)) (orders (app_of w)).
Proof. by intros (_ & _ & _ & _ & _ & Hrs)%reachable_invariant. Qed.

Lemma sum_over_le g1 g2 (os : gmap string Order.t) :
  (forall k o, os !! k = Some o -> g1 o <= g2 o) ->
  sum_over g1 os <= sum_over g2 os.
Proof.
  induction os as [|k o os Hk IH] using map_ind.
  - intros _. by rewrite !sum_over_empty.
  - intros Hle. rewrite !sum_over_insert_fresh by done.
    assert (g1 o <= g2 o) by (apply (Hle k); apply lookup_insert_eq).
    assert (sum_over g1 os <= sum_over g2 os).
    { apply IH. intros k' o' Ho'. apply (Hle k').
      rewrite lookup_insert_ne; [done|]. intros <-. congruence. }
    lia.
Qed.

Lemma sum_over_scale c g (os : gmap string Order.t) :
  sum_over (fun o => c * g o) os = c * sum_over g os.
Proof.
  induction os as [|k o os Hk IH] using map_ind.
  - rewrite !sum_over_empty. lia.
  - rewrite !sum_over_insert_fresh by done. lia.
Qed.

Lemma sum_over_bounds (os : gmap string Order.t) count field :
  (forall k o, os !! k = Some o ->
               0 <= count o /\ count o <= field o <= 5 * count o) ->
  0 <= sum_over count os /\
  sum_over count os <= sum_over field os <= 5 * sum_over count os.
Proof.
  intros Hle. split; [|split].
  - rewrite <- (Z.mul_0_l (sum_over count os)), <- sum_over_scale.
    apply sum_over_le. intros k o Ho. destruct (Hle k o Ho). lia.
  - apply sum_over_le. intros k o Ho. destruct (Hle k o Ho). lia.
  - rewrite <- sum_over_scale.
    apply sum_over_le. intros k o Ho. destruct (Hle k o Ho). lia.
Qed.

Lemma rating_ok_bounds o :
  rating_ok o ->
  0 <= rated o /\
  rated o <= value Order.rating_food o <= 5 * rated o /\
  rated o <= value Order.rating_speed o <= 5 * rated o /\
  rated o <= value Order.rating_service o <= 5 * rated o.
Proof.
  unfold rating_ok, rating_fields, rated, value.
  intros [[= -> -> ->]|(f & s & v & [= -> -> ->] & ? & ? & ?)]; cbn; lia.
Qed.

(** X16: in every reachable world each stored aggregate is that of
    ratings from 1 to 5: the count is not negative and each sum lies
    between the count and five times the count, so an average that is
    displayed lies between 1 and 5. *)
Theorem reachable_rating_sums verify_password hash_password w :
  reachable verify_password hash_password w ->
  (forall r agg,
     Ratings.restaurants (ratings (app_of w)) !! r = Some agg ->
     0 <= RestaurantRating.rating_count agg /\
     RestaurantRating.rating_count agg <= RestaurantRating.rating_sum agg
     <= 5 * RestaurantRating.rating_count agg) /\
  (forall d agg,
     Ratings.drivers (ratings (app_of w)) !! d = Some agg ->
     0 <= DriverRating.rating_count agg /\
     DriverRating.rating_count agg <= DriverRating.rating_sum agg
     <= 5 * DriverRating.rating_count agg /\
     DriverRating.rating_count agg <= DriverRating.speed_sum agg
     <= 5 * DriverRating.rating_count agg /\
     DriverRating.rating_count agg <= DriverRating.service_sum agg
     <= 5 * DriverRating.rating_count agg).
Proof.
  intros (_ & _ & _ & _ & Hos & Hres & Hdri)%reachable_invariant.
  assert (forall k o, orders (app_of w) !! k = Some o -> rating_ok o) as Hok.
  { intros k o Ho. by destruct (Hos k o Ho) as (_ & _ & ? & _). }
  split.
  - intros r agg Hagg. specialize (Hres r). rewrite Hagg in Hres.
    cbv zeta in Hres. cbn [from_option id] in Hres. destruct Hres as [-> ->].
    apply sum_over_bounds. intros k o Ho.
    destruct (rating_ok_bounds o (Hok k o Ho)) as (? & ? & _).
    unfold at_restaurant. case_decide; lia.
  - intros d agg Hagg. specialize (Hdri d). rewrite Hagg in Hdri.
    cbv zeta in Hdri. cbn [from_option id] in Hdri.
    destruct Hdri as (-> & -> & -> & ->).
    assert (forall field,
              (forall o, rating_ok o ->
                         rated o <= value field o <= 5 * rated o) ->
              0 <= sum_over (of_driver d rated) (orders (app_of w)) /\
              sum_over (of_driver d rated) (orders (app_of w))
              <= sum_over (of_driver d (value field)) (orders (app_of w))
              <= 5 * sum_over (of_driver d rated) (orders (app_of w)))
      as Hfield.
    { intros field Hf. apply sum_over_bounds. intros k o Ho.
      pose proof (Hf o (Hok k o Ho)).
      destruct (rating_ok_bounds o (Hok k o Ho)) as (? & _).
      unfold of_driver. case_decide; lia. }
    split; [|split; [|split]].
    + apply (Hfield Order.rating_food). intros o Ho.
      by destruct (rating_ok_bounds o Ho) as (_ & ? & _).
    + apply (Hfield Order.rating_food). intros o Ho.
      by destruct (rating_ok_bounds o Ho) as (_ & ? & _).
    + apply (Hfield Order.rating_speed). intros o Ho.
      by destruct (rating_ok_bounds o Ho) as (_ & _ & ? & _).
    + apply (Hfield Order.rating_service). intros o Ho.
      by destruct (rating_ok_bounds o Ho) as (_ & _ & _ & ?).
Qed.

(** X17: in every reachable world the cart is well formed (no two
    lines for the same restaurant and food, every quantity at least 1,
    every price the catalogue's), the step is 1 or 2, and the checkout
    step is never shown with an empty cart. *)
Theorem reachable_cart verify_password hash_password w :
  reachable verify_password hash_password w ->
  cart_ok (cart (app_of w)) /\
  (step (app_of w) = 1 \/ step (app_of w) = 2) /\
  (step (app_of w) = 2 -> cart (app_of w) <> []).
Proof. by intros (_ & _ & Hcs & _)%reachable_invariant. Qed.

(** ** Checkout in a reachable world *)

(** X18: in a reachable world, "Place Order" with a drop-off that is not
    empty, by a customer at the checkout step, cannot raise: the run
    returns, confirms, writes the orders file once, with the store it
    leaves, empties the cart, goes back to step 1, and the store has one
    more order for each of the cart's lines, of which there is at least
    one. *)
Theorem reachable_checkout verify_password hash_password
    w restaurant category food dropoff tip :
  reachable verify_password hash_password w ->
  as_role "Customer" w ->
  step (app_of w) = 2 ->
  dropoff <> EmptyString ->
  exists r,
    script verify_password hash_password w restaurant category food
      (Some (in_customer_page (checkout_form (place_order dropoff "Cash" tip))))
    = Ok r /\
    shown r = [success "Order placed successfully!"] /\
    written r = [(ORDERS_FILE, orders_data (orders (app_of (final r))))] /\
    step (app_of (final r)) = 1 /\
    cart (app_of (final r)) = [] /\
    (0 < length (cart (app_of w)))%nat /\
    size (orders (app_of (final r)))
    = (size (orders (app_of w)) + length (cart (app_of w)))%nat.
Proof.
  intros (_ & Hse & (_ & _ & Hcart) & Hids & _)%reachable_invariant
         [Hin Hrole] Hstep Hdrop.
  destruct (Hse Hin) as (usr & Hu & _).
  destruct (checkout_placed (app_of w) usr dropoff "Cash" tip Hdrop Hu
              (ids_ok_numeric _ Hids)) as (m & [Hb _] & Hblock).
  cbv zeta in Hblock.
  destruct (place_lines (username (app_of w)) (User.phone usr) dropoff "Cash"
              tip (cart (app_of w)) m (orders (app_of w)) Hb) as (Hsize & _).
  cbv zeta in Hsize.
  eexists. split.
  - unfold script, sidebar. rewrite Hin. cbn [negb sidebar_click Py.bind
      world_after reran orb]. rewrite Hin, Hrole. cbn [negb].
    rewrite bool_decide_eq_true_2 by done.
    unfold customer_page. rewrite Hstep.
    rewrite bool_decide_eq_false_2 by done.
    rewrite bool_decide_eq_true_2 by done.
    cbn [customer_click checkout_click]. rewrite Hblock.
    cbn [Py.bind rerun]. reflexivity.
  - cbn [shown written final page_run banners notices saved state app_of
         with_app with_cart with_step with_orders orders step cart
         Datatypes.app].
    repeat split; try done.
    specialize (Hcart Hstep). destruct (cart (app_of w)); [done|cbn; lia].
Qed.

(** ** Every change is saved *)

Lemma run_saves_quiet a r :
  users (state r) = users a -> orders (state r) = orders a ->
  ratings (state r) = ratings a -> saved r = [] ->
  run_saves a r.
Proof.
  intros Hu Ho Hr Hs. unfold run_saves. rewrite Hu, Ho, Hr, Hs.
  repeat split; try done. intros f d Hin. by apply elem_of_nil in Hin.
Qed.

Lemma run_saves_orders a a' os notices rerun :
  users a' = users a -> ratings a' = ratings a -> orders a' = os ->
  run_saves a (Run a' notices [(ORDERS_FILE, orders_data os)] rerun).
Proof.
  intros Hu Hr Ho. unfold run_saves. cbn [state saved].
  rewrite Hu, Hr, Ho. repeat split; try done.
  - intros _. apply list_elem_of_singleton. done.
  - intros f d [= -> ->]%list_elem_of_singleton. by left.
Qed.

Lemma run_saves_submit a oid o f s v : run_saves a (submit a oid o f s v).
Proof.
  unfold run_saves, submit. cbn [state saved with_ratings with_orders users
    orders ratings]. repeat split; try done.
  - intros _. apply list_elem_of_further, list_elem_of_here.
  - intros _. apply list_elem_of_here.
  - intros f' d [[= -> ->]|[= -> ->]%list_elem_of_singleton]%elem_of_cons;
      [by right|by left].
Qed.

Lemma orders_block_saves a ev : run_saves a (orders_block a ev).
Proof.
  destruct (orders_block_cases a ev)
    as [->|(oid & o & f & s & v & _ & _ & _ & _ & _ & ->)].
  - by apply run_saves_quiet.
  - apply run_saves_submit.
Qed.

Lemma driver_page_saves a click : run_saves a (driver_page a click).
Proof.
  assert (run_saves a (idle a)) as Hidle by by apply run_saves_quiet.
  destruct click as [[oid|oid]|].
  - destruct (orders a !! oid) as [o|] eqn:Ho.
    + destruct (decide (Order.driver o = Some (username a)
                        /\ Order.status o = claimed)) as [[Hdr Hs]|Hno].
      * rewrite (deliver_own _ _ _ Ho Hdr Hs). by apply run_saves_orders.
      * rewrite deliver_other; [done|]. intros o' Ho'.
        rewrite Ho in Ho'. by injection Ho' as <-.
    + rewrite deliver_other; [done|]. intros o' Ho'. by rewrite Ho in Ho'.
  - destruct (orders a !! oid) as [o|] eqn:Ho.
    + destruct (decide (Order.status o = pending)) as [Hs|Hno].
      * rewrite (claim_pending _ _ _ Ho Hs). by apply run_saves_orders.
      * rewrite claim_not_pending; [done|]. intros o' Ho'.
        rewrite Ho in Ho'. by injection Ho' as <-.
    + rewrite claim_not_pending; [done|]. intros o' Ho'. by rewrite Ho in Ho'.
  - assert (driver_page a None = idle a) as ->; [|done].
    unfold driver_page. rewrite deliver_rows_miss by done.
    by rewrite claim_rows_miss' by done.
Qed.

Lemma ordering_step_saves a restaurant category food ev first :
  ordering_step a restaurant category food ev = Ok first ->
  run_saves a first /\ (rerun first = false -> first = idle a).
Proof.
  unfold ordering_step.
  destruct (restaurant_average _ _); cbn [Py.bind]; [|done].
  destruct (catalogue_price restaurant category food) as [price|];
    cbn [Py.bind]; [|done].
  assert (match cart a with
          | [] => Ok (idle a)
          | _ :: _ =>
              v <- cart_block (cart_click ev) (cart a) ;;
              match v with
              | changed cart' => Ok (Run (with_cart cart' a) [] [] true)
              | drawn _ => Ok (idle a)
              | checkout _ => Ok (Run (with_step 2 a) [] [] true)
              end
          end = Ok first ->
          run_saves a first /\ (rerun first = false -> first = idle a))
    as Hcart.
  { destruct (cart a) as [|item rest].
    - intros [= <-]. split; [by apply run_saves_quiet|done].
    - destruct (cart_block _ _) as [[cart'|t|t]|]; cbn [Py.bind];
        try done; intros [= <-]; (split; [by apply run_saves_quiet|done]). }
  destruct ev as [[|b|e|e]|]; try exact Hcart.
  intros [= <-]. split; [by apply run_saves_quiet|done].
Qed.

Lemma checkout_block_saves a ev first :
  checkout_block a ev = Ok first ->
  run_saves a first /\ (rerun first = false -> state first = a /\ saved first = []).
Proof.
  destruct ev as [[dropoff payment tip|]|].
  - intros [[-> ->]|(Hd & usr & m & Hu & Hm & ->)]%checkout_block_inv.
    + split; [by apply run_saves_quiet|done].
    + split; [by apply run_saves_orders|done].
  - intros [= <-]. split; [by apply run_saves_quiet|done].
  - intros [= <-]. split; [by apply run_saves_quiet|done].
Qed.

Lemma customer_page_saves a restaurant category food ev r :
  customer_page a restaurant category food ev = Ok r -> run_saves a r.
Proof.
  unfold customer_page.
  assert (forall first,
            run_saves a first ->
            (rerun first = false -> state first = a /\ saved first = []) ->
            (if rerun first then Ok first
             else
               let last := orders_block (state first) (rating_click ev) in
               Ok (Run (state last) (notices first ++ notices last)
                       (saved first ++ saved last) (rerun last))) = Ok r ->
            run_saves a r) as Hlast.
  { intros first Hfirst Hquiet. destruct (rerun first); [by intros [= <-]|].
    destruct (Hquiet eq_refl) as [-> ->]. intros [= <-].
    exact (orders_block_saves a (rating_click ev)). }
  case_bool_decide.
  - destruct (ordering_step _ _ _ _ _) as [first|] eqn:Hfirst; cbn [Py.bind];
      [|done].
    apply ordering_step_saves in Hfirst as [Hs Hq].
    apply Hlast; [done|]. intros Hre. by rewrite (Hq Hre).
  - case_bool_decide.
    + destruct (checkout_block _ _) as [first|] eqn:Hfirst; cbn [Py.bind];
        [|done].
      apply checkout_block_saves in Hfirst as [Hs Hq]. by apply Hlast.
    + cbn [Py.bind]. apply Hlast; [by apply run_saves_quiet|done].
Qed.

Lemma sidebar_saves verify_password hash_password w ev s :
  sidebar verify_password hash_password w ev = Ok s ->
  orders (app_of (world_after s)) = orders (app_of w) /\
  ratings (app_of (world_after s)) = ratings (app_of w) /\
  (users (app_of (world_after s)) <> users (app_of w) ->
   users_saved s = Some (users (app_of (world_after s)))) /\
  (forall us, users_saved s = Some us -> us = users (app_of (world_after s))).
Proof.
  unfold sidebar. destruct (logged_in w); cbn [negb].
  - destruct ev as [[| |]|]; by intros [= <-].
  - destruct ev as [[u p rc|salt u p ph rc|]|]; try by intros [= <-].
    + intros Hrun.
      pose proof (login_cases verify_password w u p (role_name rc)) as Hc.
      destruct (users (app_of w) !! u) as [usr|];
        [destruct (verify_password p (User.password usr)) as [[|]|e];
         [case_decide|..]|];
        rewrite Hc in Hrun; try done; by injection Hrun as <-.
    + intros [= <-]. unfold register.
      destruct (negb (Py.truthy u) || negb (Py.truthy p)
                || negb (Py.truthy ph)); [done|].
      destruct (users (app_of w) !! u); [done|].
      cbn. repeat split; try done. by intros us [= <-].
Qed.

(** X19: a run of the script that returns has saved every store that it
    changed, after the change: the accounts written to the users file,
    and the stores written to the orders and ratings files, are the ones
    the run leaves in memory, and a store that the run changed was
    written.  So after every run the three files hold what the next run
    would load. *)
Theorem script_saves_changes verify_password hash_password
    w restaurant category food ev r :
  script verify_password hash_password w restaurant category food ev = Ok r ->
  script_saves w r.
Proof.
  unfold script.
  destruct (sidebar verify_password hash_password w (sidebar_click ev))
    as [s|] eqn:Hs; cbn [Py.bind]; [|done].
  destruct (sidebar_saves _ _ _ _ _ Hs) as (Ho & Hr & Hu & Hu').
  assert (script_saves w (ScriptRun (world_after s) (banners s) (users_saved s) []))
    as Hstop.
  { unfold script_saves. cbn [final users_written written].
    rewrite Ho, Hr. repeat split; try done.
    intros f d Hin. by apply elem_of_nil in Hin. }
  assert (forall p, run_saves (app_of (world_after s)) p ->
                    script_saves w (page_run (world_after s) s p)) as Hpage.
  { intros p (Hpu & Hpo & Hpr & Hpw). unfold script_saves.
    cbn [final page_run users_written written app_of with_app].
    rewrite Hpu, <- Ho, <- Hr. by repeat split. }
  destruct (reran s || negb (logged_in (world_after s))); [by intros [= <-]|].
  case_bool_decide.
  - destruct (customer_page _ _ _ _ _) as [p|] eqn:Hp; cbn [Py.bind]; [|done].
    intros [= <-]. apply Hpage. by eapply customer_page_saves.
  - case_bool_decide; [|by intros [= <-]].
    destruct (driver_average _ _); cbn [Py.bind]; [|done].
    intros [= <-]. apply Hpage. apply driver_page_saves.
Qed.

(** ** The listing of a small store *)




(** ** Who can change what *)

Lemma role_distinct w : as_role "Customer" w -> as_role "Driver" w -> False.
Proof. intros [_ Hc] [_ Hd]. congruence. Qed.

Lemma transition_roles verify_password hash_password w w' :
  transition verify_password hash_password w w' -> role_bound w w'.
Proof.
  intros Ht.
  destruct Ht as
    [ w
    | w username password usr rc Hout Hu Hv Hrole
    | w salt username password phone rc Hout Hn Hp Hph Hfree
    | w Hin
    | w restaurant category food price Hc Hstep Hprice
    | w click cart' Hc Hstep Hblock
    | w Hc Hstep Hcart
    | w dropoff tip usr m Hc Hstep Hdrop Htip Hu Hhigh
    | w Hc Hstep
    | w oid o f s v Hc Ho Hcust Hs Hr Hf Hsp Hv
    | w oid o Hd Ho Hdrv Hs
    | w oid o Hd Ho Hs ];
    unfold role_bound;
    cbn [app_of with_app with_users with_username with_cart with_step
         with_orders with_ratings users orders ratings cart step
         state submit logged_in];
    (split; [|split; [|split]]);
    try (intros [? ?]; congruence);
    try (intros Hx; exfalso;
         first [exact (role_distinct _ Hx Hd)|exact (role_distinct _ Hc Hx)]);
    try (intros ?; congruence);
    try (intros [?|?]; congruence);
    try (intros _; by destruct Hc);
    try (intros _; by destruct Hd);
    try (intros _; repeat split; try done; intros k o' Hk; by exists o').
  - (* a checkout keeps the old orders as they are *)
    intros _. destruct Hhigh as [Hb _].
    destruct (place_lines (username (app_of w)) (User.phone usr) dropoff "Cash"
                tip (cart (app_of w)) m (orders (app_of w)) Hb)
      as (_ & _ & Hold).
    intros k o Ho. exists o. split; [|done].
    rewrite Hold; [done|]. intros i _ ->.
    by rewrite (below_fresh _ _ i Hb) in Ho.
  - (* a rating keeps status and driver *)
    intros _. rewrite (alter_lookup_insert _ _ _ _ Ho).
    intros k o0 Hk. destruct (decide (oid = k)) as [<-|Hne].
    + rewrite lookup_insert_eq. eexists. split; [done|].
      rewrite Ho in Hk. by injection Hk as <-.
    + rewrite lookup_insert_ne by done. by exists o0.
  - (* a delivery keeps what was ordered and the ratings *)
    intros _. split; [done|split; [done|split]].
    + intros k. rewrite lookup_insert_is_Some. split.
      * intros [<-|[_ ?]]; [eauto|done].
      * intros Hk'. destruct (decide (oid = k)); [by left|by right].
    + intros k o0 Hk. destruct (decide (oid = k)) as [<-|Hne].
      * rewrite lookup_insert_eq. eexists. split; [done|].
        rewrite Ho in Hk. by injection Hk as <-.
      * rewrite lookup_insert_ne by done. by exists o0.
  - intros _. split; [done|split; [done|split]].
    + intros k. rewrite lookup_insert_is_Some. split.
      * intros [<-|[_ ?]]; [eauto|done].
      * intros Hk'. destruct (decide (oid = k)); [by left|by right].
    + intros k o0 Hk. destruct (decide (oid = k)) as [<-|Hne].
      * rewrite lookup_insert_eq. eexists. split; [done|].
        rewrite Ho in Hk. by injection Hk as <-.
      * rewrite lookup_insert_ne by done. by exists o0.
Qed.

(** X21: who can change what in one run of the script.  The accounts
    change only in a run started logged out; the orders and the
    aggregates only in a run started logged in.  A run started as a
    customer leaves the status and the driver of every order as they
    were.  A run started as a driver leaves the aggregates and the cart
    as they were, creates no order, and leaves what was ordered and the
    ratings of every order as they were. *)
Theorem script_roles verify_password hash_password
    w restaurant category food ev r :
  offered ev ->
  script verify_password hash_password w restaurant category food ev = Ok r ->
  role_bound w (final r).
Proof.
  intros Hoff Hrun. eapply transition_roles.
  by eapply script_transition_run.
Qed.

(** ** Instances on the session of [Story] *)

Lemma story_after w restaurant category food ev :
  reachable Toy.verify_password Toy.hash_password w ->
  offered ev ->
  reachable Toy.verify_password Toy.hash_password
            (Story.after w restaurant category food ev).
Proof.
  intros Hw Hoff. unfold Story.after, Story.run.
  destruct (script _ _ w restaurant category food ev) as [r|e] eqn:Hrun;
    [|done].
  by eapply reachable_run.
Qed.

Lemma story_later w restaurant category food ev :
  offered ev ->
  rtc (run_of Toy.verify_password Toy.hash_password)
      w (Story.after w restaurant category food ev).
Proof.
  intros Hoff. unfold Story.after, Story.run.
  destruct (script _ _ w restaurant category food ev) as [r|e] eqn:Hrun;
    [|apply rtc_refl].
  apply rtc_once. by exists restaurant, category, food, ev, r.
Qed.

Ltac offered_now :=
  first [ exact I
        | split; [reflexivity|vm_compute; reflexivity]
        | cbn; lia ].

Ltac story :=
  repeat first [ apply reachable_first
               | apply story_after; [|offered_now] ].

Lemma story_alice_in :
  reachable Toy.verify_password Toy.hash_password Story.alice_in.
Proof. story. Qed.

Lemma story_at_checkout :
  reachable Toy.verify_password Toy.hash_password Story.at_checkout.
Proof. story. Qed.

Lemma story_judged :
  reachable Toy.verify_password Toy.hash_password Story.judged.
Proof. story. Qed.

(** Alice logs in once both accounts exist. *)
Lemma login_sound_witness :
  logged_in Story.both_registered = false /\
  exists r,
    login Toy.verify_password Story.both_registered "alice" "pw" "Customer"
    = Ok r /\
    world_after r = Story.alice_in /\
    users_saved r = None.
Proof.
  assert (logged_in Story.both_registered = false) as Hout
    by (vm_compute; reflexivity).
  split; [exact Hout|].
  exists (SidebarRun Story.alice_in
            [success "Logged in as alice (Customer)"] None true).
  assert (login Toy.verify_password Story.both_registered "alice" "pw"
                "Customer"
          = Ok (SidebarRun Story.alice_in
                  [success "Logged in as alice (Customer)"] None true))
    as Hrun by (vm_compute; reflexivity).
  split; [exact Hrun|]. split; [reflexivity|].
  exact (proj2 (proj2 (proj2 (proj2 (proj2 (proj2
           (login_sound _ _ _ _ _ _ Hout Hrun))))))).
Defined.

(** Alice, just registered on a first visit, logs in as a customer and
    is refused as a driver. *)
Lemma register_then_login_witness :
  Toy.verify_password "pw" (Toy.hash_password "s1" "pw") = Ok true /\
  users (app_of first_visit) !! "alice" = None /\
  login Toy.verify_password Story.alice_registered "alice" "pw" "Driver"
  = Ok (refused Story.alice_registered
          "User 'alice' is not registered as a Driver.").
Proof.
  assert (Toy.verify_password "pw" (Toy.hash_password "s1" "pw") = Ok true)
    as Hlaw by (vm_compute; reflexivity).
  assert (users (app_of first_visit) !! "alice" = None) as Hfree
    by (vm_compute; reflexivity).
  split; [exact Hlaw|]. split; [exact Hfree|].
  assert ("alice" <> EmptyString) as Hu by discriminate.
  assert ("pw" <> EmptyString) as Hp by discriminate.
  assert ("0123456789" <> EmptyString) as Hph by discriminate.
  assert (Driver <> Customer) as Hother by discriminate.
  exact (proj2 (register_then_login Toy.verify_password Toy.hash_password
                  first_visit "s1" "alice" "pw" "0123456789" Customer
                  Hlaw Hu Hp Hph Hfree) Driver Hother).
Defined.

(** Alice logs out with two Margheritas in the cart: they stay there. *)
Lemma sidebar_keeps_cart_witness :
  exists r,
    sidebar Toy.verify_password Toy.hash_password Story.one_line
            (Some logout_button) = Ok r /\
    logged_in (world_after r) = false /\
    cart (app_of (world_after r))
    = [Item.mk "Pizza Place" "Pizza" "Margherita" 12 2].
Proof.
  exists (SidebarRun (World (with_username "" (app_of Story.one_line)) false "")
                     [] None true).
  assert (sidebar Toy.verify_password Toy.hash_password Story.one_line
                  (Some logout_button)
          = Ok (SidebarRun
                  (World (with_username "" (app_of Story.one_line)) false "")
                  [] None true)) as Hrun by (vm_compute; reflexivity).
  split; [exact Hrun|]. split; [reflexivity|].
  destruct (sidebar_keeps_cart _ _ _ _ _ Hrun) as (_ & _ & Hcart & _).
  rewrite Hcart. vm_compute. reflexivity.
Defined.

(** Garlic Bread added to a cart of two Margheritas. *)
Lemma cart_stays_well_formed_witness :
  cart_ok [Sample.margherita] /\
  cart_ok (add_to_cart "Pizza Place" "Sides" "Garlic Bread" 5
                       [Sample.margherita]).
Proof.
  assert (cart_ok [Sample.margherita]) as Hok.
  { split; [|split].
    - apply NoDup_singleton.
    - constructor; [|constructor]. cbn. lia.
    - constructor; [|constructor]. vm_compute. reflexivity. }
  split; [exact Hok|].
  apply (proj1 (cart_stays_well_formed _ Hok)).
  vm_compute. reflexivity.
Defined.

(** Bob delivers the order he claimed. *)
Lemma deliver_order_witness :
  orders (app_of Story.taken) !! "1"
  = Some (Order.mk "alice" "0123456789" "Pizza Place" "Pizza" "Margherita"
                   12 2 "Dorm 3" "Cash" 2 claimed (Some "bob")
                   None None None) /\
  exists o',
    orders (app_of Story.brought) !! "1" = Some o' /\
    Order.status o' = completed /\
    Order.driver o' = Some "bob".
Proof.
  assert (orders (app_of Story.taken) !! "1"
          = Some (Order.mk "alice" "0123456789" "Pizza Place" "Pizza"
                           "Margherita" 12 2 "Dorm 3" "Cash" 2 claimed
                           (Some "bob") None None None)) as Ho
    by (vm_compute; reflexivity).
  split; [exact Ho|].
  destruct (proj1 (deliver_order (app_of Story.taken) "1" _ Ho)
                  eq_refl eq_refl)
    as ((o' & Ho' & Hs & Hd & _) & _).
  exists o'. split; [|split; [exact Hs|exact Hd]].
  rewrite <- Ho'. vm_compute. reflexivity.
Defined.

(** From the placed order to the rated one. *)
Lemma orders_only_move_forward_witness :
  rtc (run_of Toy.verify_password Toy.hash_password)
      Story.placed Story.judged /\
  store_evolves (orders (app_of Story.placed)) (orders (app_of Story.judged)).
Proof.
  assert (rtc (run_of Toy.verify_password Toy.hash_password)
              Story.placed Story.judged) as Hruns.
  { unfold Story.judged, Story.alice_back, Story.brought, Story.taken,
      Story.bob_in, Story.click.
    do 6 (etrans; [|apply story_later; offered_now]).
    apply story_later. offered_now. }
  split; [exact Hruns|].
  exact (orders_only_move_forward _ _ _ _ Hruns).
Defined.

(** Alice's session after her login. *)
Lemma reachable_session_witness :
  reachable Toy.verify_password Toy.hash_password Story.alice_in /\
  logged_in Story.alice_in = true /\
  username (app_of Story.alice_in) <> EmptyString /\
  exists usr,
    users (app_of Story.alice_in) !! username (app_of Story.alice_in)
    = Some usr /\
    User.role usr = role Story.alice_in /\
    (role Story.alice_in = "Customer" \/ role Story.alice_in = "Driver").
Proof.
  assert (logged_in Story.alice_in = true) as Hin by (vm_compute; reflexivity).
  split; [exact story_alice_in|]. split; [exact Hin|].
  exact (reachable_session _ _ _ story_alice_in Hin).
Defined.

(** The store of the rated order holds the one identifier "1". *)
Lemma reachable_order_ids_witness :
  reachable Toy.verify_password Toy.hash_password Story.judged /\
  last_order_id (orders (app_of Story.judged)) = Ok 1.
Proof.
  split; [exact story_judged|].
  rewrite (proj2 (reachable_order_ids _ _ _ story_judged)).
  vm_compute. reflexivity.
Defined.

(** The rated order is well formed. *)
Lemma reachable_orders_well_formed_witness :
  reachable Toy.verify_password Toy.hash_password Story.judged /\
  orders (app_of Story.judged) !! "1"
  = Some (Order.mk "alice" "0123456789" "Pizza Place" "Pizza" "Margherita"
                   12 2 "Dorm 3" "Cash" 2 completed (Some "bob")
                   (Some 5) (Some 4) (Some 3)) /\
  order_ok (users (app_of Story.judged))
           (Order.mk "alice" "0123456789" "Pizza Place" "Pizza" "Margherita"
                     12 2 "Dorm 3" "Cash" 2 completed (Some "bob")
                     (Some 5) (Some 4) (Some 3)).
Proof.
  assert (orders (app_of Story.judged) !! "1"
          = Some (Order.mk "alice" "0123456789" "Pizza Place" "Pizza"
                           "Margherita" 12 2 "Dorm 3" "Cash" 2 completed
                           (Some "bob") (Some 5) (Some 4) (Some 3))) as Ho
    by (vm_compute; reflexivity).
  split; [exact story_judged|]. split; [exact Ho|].
  exact (reachable_orders_well_formed _ _ _ _ _ story_judged Ho).
Defined.

(** The aggregates after Alice's rating. *)
Lemma reachable_aggregates_witness :
  reachable Toy.verify_password Toy.hash_password Story.judged /\
  ratings_ok (ratings (app_of Story.judged)) (orders (app_of Story.judged)).
Proof.
  split; [exact story_judged|].
  exact (reachable_aggregates _ _ _ story_judged).
Defined.

(** Bob's aggregate after Alice's rating of 5, 4 and 3. *)
Lemma reachable_rating_sums_witness :
  reachable Toy.verify_password Toy.hash_password Story.judged /\
  Ratings.drivers (ratings (app_of Story.judged)) !! "bob"
  = Some (DriverRating.mk 5 1 4 3) /\
  1 <= DriverRating.speed_sum (DriverRating.mk 5 1 4 3) <= 5 * 1.
Proof.
  assert (Ratings.drivers (ratings (app_of Story.judged)) !! "bob"
          = Some (DriverRating.mk 5 1 4 3)) as Hbob
    by (vm_compute; reflexivity).
  split; [exact story_judged|]. split; [exact Hbob|].
  destruct (proj2 (reachable_rating_sums _ _ _ story_judged) _ _ Hbob)
    as (_ & _ & Hspeed & _).
  exact Hspeed.
Defined.

(** Alice's cart at the checkout step. *)
Lemma reachable_cart_witness :
  reachable Toy.verify_password Toy.hash_password Story.at_checkout /\
  cart_ok (cart (app_of Story.at_checkout)) /\
  cart (app_of Story.at_checkout) <> [].
Proof.
  split; [exact story_at_checkout|].
  destruct (reachable_cart _ _ _ story_at_checkout) as (Hok & _ & Hfull).
  split; [exact Hok|]. apply Hfull. vm_compute. reflexivity.
Defined.

(** Alice's checkout of her one line. *)
Lemma reachable_checkout_witness :
  reachable Toy.verify_password Toy.hash_password Story.at_checkout /\
  as_role "Customer" Story.at_checkout /\
  step (app_of Story.at_checkout) = 2 /\
  "Dorm 3" <> EmptyString /\
  exists r,
    script Toy.verify_password Toy.hash_password Story.at_checkout
      "Pizza Place" "Pizza" "Margherita"
      (Some (in_customer_page (checkout_form (place_order "Dorm 3" "Cash" 2))))
    = Ok r /\
    size (orders (app_of (final r))) = 1%nat.
Proof.
  assert (as_role "Customer" Story.at_checkout) as Hrole
    by (split; vm_compute; reflexivity).
  assert (step (app_of Story.at_checkout) = 2) as Hstep
    by (vm_compute; reflexivity).
  assert ("Dorm 3" <> EmptyString) as Hdrop by discriminate.
  split; [exact story_at_checkout|]. split; [exact Hrole|].
  split; [exact Hstep|]. split; [exact Hdrop|].
  destruct (reachable_checkout _ _ _ "Pizza Place" "Pizza" "Margherita"
              "Dorm 3" 2%float story_at_checkout Hrole Hstep Hdrop)
    as (r & Hrun & _ & _ & _ & _ & _ & Hsize).
  exists r. split; [exact Hrun|]. rewrite Hsize. vm_compute. reflexivity.
Defined.

(** Alice's rating writes both files with what the run leaves. *)
Lemma script_saves_changes_witness :
  script Toy.verify_password Toy.hash_password Story.alice_back
         "Pizza Place" "Pizza" "Margherita"
         (Some (in_customer_page (rating_form (submit_rating "1" 5 4 3))))
  = Ok (Story.run Story.alice_back "Pizza Place" "Pizza" "Margherita"
          (Some (in_customer_page (rating_form (submit_rating "1" 5 4 3)))))
  /\
  script_saves Story.alice_back
    (Story.run Story.alice_back "Pizza Place" "Pizza" "Margherita"
       (Some (in_customer_page (rating_form (submit_rating "1" 5 4 3))))).
Proof.
  assert (script Toy.verify_password Toy.hash_password Story.alice_back
            "Pizza Place" "Pizza" "Margherita"
            (Some (in_customer_page (rating_form (submit_rating "1" 5 4 3))))
          = Ok (Story.run Story.alice_back "Pizza Place" "Pizza" "Margherita"
                  (Some (in_customer_page
                           (rating_form (submit_rating "1" 5 4 3))))))
    as Hrun by (vm_compute; reflexivity).
  split; [exact Hrun|].
  exact (script_saves_changes _ _ _ _ _ _ _ _ Hrun).
Defined.


(** Bob's delivery respects what a driver may change. *)
Lemma script_roles_witness :
  offered (Some (in_driver_page (deliver "1"))) /\
  script Toy.verify_password Toy.hash_password Story.taken
         "Pizza Place" "Pizza" "Margherita"
         (Some (in_driver_page (deliver "1")))
  = Ok (Story.run Story.taken "Pizza Place" "Pizza" "Margherita"
                  (Some (in_driver_page (deliver "1")))) /\
  role_bound Story.taken Story.brought.
Proof.
  assert (script Toy.verify_password Toy.hash_password Story.taken
            "Pizza Place" "Pizza" "Margherita"
            (Some (in_driver_page (deliver "1")))
          = Ok (Story.run Story.taken "Pizza Place" "Pizza" "Margherita"
                          (Some (in_driver_page (deliver "1"))))) as Hrun
    by (vm_compute; reflexivity).
  split; [exact I|]. split; [exact Hrun|].
  exact (script_roles _ _ _ _ _ _ _ _
           (I : offered (Some (in_driver_page (deliver "1")))) Hrun).
Defined.
